(** * libspex: game channels, the ships board rules and the on-chain arbiter

    A shallow embedding of the parts of the repository that the properties
    below talk about:

    - [src/ships/board.cpp]: the board rules of the ships game
      ([GetPhase], [IsValid], [WhoseTurn], [TurnCount], [ApplyMoveProto]);
    - [src/gamechannel/protoboard.tpp]: the protocol-buffer glue
      ([ParseState], [ApplyMove]);
    - [src/gamechannel/protoutils.tpp]: [ProtoToBase64] / [ProtoFromBase64];
    - [src/gamechannel/database.cpp]: [ChannelData] and [ChannelsTable];
    - the on-chain arbiter of the ships game ([ShipsLogic::UpdateState]),
      whose implementation file is not among the sources and is modelled
      from the specification and from [src/ships/logic_tests.cpp].

    C++ [CHECK] failures and [LOG (FATAL)] abort the process; they are the
    [Fatal] outcome of the [Chk] monad. *)

From Stdlib Require Import ZArith NArith List Bool Lia String Ascii.
From Stdlib.Strings Require Import Byte.
From stdpp Require Import base option list gmap strings sorting countable.

Local Open Scope Z_scope.

(** ** Aborting computations *)

Inductive Chk (A : Type) : Type :=
| Ok (a : A)
| Fatal.
Arguments Ok {A} a.
Arguments Fatal {A}.

#[global] Instance Chk_ret : MRet Chk := fun _ a => Ok a.
#[global] Instance Chk_bind : MBind Chk := fun _ _ f m =>
  match m with
  | Ok a => f a
  | Fatal => Fatal
  end.

(** [CHECK (b)]. *)
Definition CHECK (b : bool) : Chk unit := if b then Ok tt else Fatal.

(** An access [field (i)] to a repeated field; out of range is undefined
    behaviour in the C++ and counts as an abort here. *)
Definition at_index {A} (l : list A) (i : Z) : Chk A :=
  if (0 <=? i) && (i <? Z.of_nat (length l))
  then match l !! Z.to_nat i with Some a => Ok a | None => Fatal end
  else Fatal.

(** [*mutable_field (i) = x]. *)
Definition set_index {A} (l : list A) (i : Z) (x : A) : Chk (list A) :=
  if (0 <=? i) && (i <? Z.of_nat (length l))
  then Ok (<[Z.to_nat i := x]> l)
  else Fatal.

(** [std::string] holding binary data. *)
Abbreviation bytes := (list byte).

#[global] Instance byte_eq_dec : EqDecision byte := fun x y =>
  match Byte.eqb x y as b return Byte.eqb x y = b -> Decision (x = y) with
  | true => fun H => left (@Byte.byte_dec_bl x y H)
  | false => fun H => right (@Byte.eqb_false x y H)
  end eq_refl.

#[global] Program Instance byte_countable : Countable byte :=
  inj_countable' Byte.to_N (fun n => default x00 (Byte.of_N n)) _.
Next Obligation. intros x. simpl. by rewrite Byte.of_to_N. Qed.

Definition bytes_eqb (a b : bytes) : bool := bool_decide (a = b).

Definition byteZ (b : byte) : Z := Z.of_N (Byte.to_N b).

Definition Zbyte (z : Z) : byte :=
  match Byte.of_N (Z.to_N (z mod 256)) with
  | Some b => b
  | None => x00
  end.

(** ** SHA-256 ([xutil/hash.hpp], a wrapper around the standard function) *)

Module SHA256.

Definition w32 (x : Z) : Z := x mod 2 ^ 32.

Definition rotr (n x : Z) : Z :=
  Z.lor (Z.shiftr x n) (w32 (Z.shiftl x (32 - n))).

Definition ch (x y z : Z) : Z :=
  Z.lxor (Z.land x y) (Z.land (Z.lxor x (2 ^ 32 - 1)) z).

Definition maj (x y z : Z) : Z :=
  Z.lxor (Z.lxor (Z.land x y) (Z.land x z)) (Z.land y z).

Definition bsig0 (x : Z) : Z := Z.lxor (Z.lxor (rotr 2 x) (rotr 13 x)) (rotr 22 x).
Definition bsig1 (x : Z) : Z := Z.lxor (Z.lxor (rotr 6 x) (rotr 11 x)) (rotr 25 x).
Definition ssig0 (x : Z) : Z := Z.lxor (Z.lxor (rotr 7 x) (rotr 18 x)) (Z.shiftr x 3).
Definition ssig1 (x : Z) : Z := Z.lxor (Z.lxor (rotr 17 x) (rotr 19 x)) (Z.shiftr x 10).

(** The constants of FIPS 180-4 are the first 32 bits of the fractional
    parts of the cube roots (square roots, for the initial hash value) of
    the first primes. *)
Definition is_prime (n : Z) : bool :=
  forallb (fun d => negb (n mod Z.of_nat d =? 0)) (seq 2 (Z.to_nat n - 2)).

Definition primes : list Z :=
  List.filter is_prime (map Z.of_nat (seq 2 310)).

(** The integer [r]-th root of [n], bit by bit from bit [bit - 1] down. *)
Fixpoint iroot (bit : nat) (r : positive) (n x : Z) : Z :=
  match bit with
  | O => x
  | S b =>
      let y := x + 2 ^ Z.of_nat b in
      iroot b r n (if Z.pow_pos y r <=? n then y else x)
  end.

Definition frac_root (r : positive) (p : Z) : Z :=
  w32 (iroot 40 r (p * 2 ^ (32 * Z.pos r)) 0).

Definition K : list Z := Eval vm_compute in map (frac_root 3) primes.

Definition H0 : list Z := Eval vm_compute in map (frac_root 2) (take 8 primes).

(** Big-endian encoding of [x] on [n] bytes. *)
Fixpoint be_bytes (n : nat) (x : Z) : list Z :=
  match n with
  | O => []
  | S n' => be_bytes n' (x / 256) ++ [x mod 256]
  end.

Definition be_word (bs : list Z) : Z := fold_left (fun acc b => acc * 256 + b) bs 0.

Definition pad (msg : list Z) : list Z :=
  let len := Z.of_nat (length msg) in
  let zeros := Z.to_nat ((55 - len) mod 64) in
  msg ++ [0x80] ++ repeat 0 zeros ++ be_bytes 8 (8 * len).

Fixpoint chunks (fuel : nat) (k : nat) (l : list Z) : list (list Z) :=
  match fuel with
  | O => []
  | S fuel' =>
      match l with
      | [] => []
      | _ => take k l :: chunks fuel' k (drop k l)
      end
  end.

Definition word_at (ws : list Z) (i : nat) : Z := nth i ws 0.

Fixpoint schedule (n : nat) (ws : list Z) : list Z :=
  match n with
  | O => ws
  | S n' =>
      let t := length ws in
      schedule n'
        (ws ++ [w32 (ssig1 (word_at ws (t - 2)) + word_at ws (t - 7)
                     + ssig0 (word_at ws (t - 15)) + word_at ws (t - 16))])
  end.

Record regs := Regs { ra : Z; rb : Z; rc : Z; rd : Z; re : Z; rf : Z; rg : Z; rh : Z }.

Definition round (r : regs) (kw : Z * Z) : regs :=
  let t1 := w32 (rh r + bsig1 (re r) + ch (re r) (rf r) (rg r) + fst kw + snd kw) in
  let t2 := w32 (bsig0 (ra r) + maj (ra r) (rb r) (rc r)) in
  Regs (w32 (t1 + t2)) (ra r) (rb r) (rc r) (w32 (rd r + t1)) (re r) (rf r) (rg r).

Definition regs_of (h : list Z) : regs :=
  Regs (word_at h 0) (word_at h 1) (word_at h 2) (word_at h 3)
       (word_at h 4) (word_at h 5) (word_at h 6) (word_at h 7).

Definition compress (h : list Z) (block : list Z) : list Z :=
  let ws := schedule 48 (map be_word (chunks 16 4 block)) in
  let r := fold_left round (combine K ws) (regs_of h) in
  zip_with (fun x y => w32 (x + y)) h
           [ra r; rb r; rc r; rd r; re r; rf r; rg r; rh r].

(** Modelled from the spec: [SHA256::Hash (data)], declared in
    [src/xutil/hash.hpp]; its implementation file is not among the sources.
    The function is SHA-256 of FIPS 180-4; the result is the 32 bytes of the
    [uint256]. *)
Definition Hash (data : bytes) : bytes :=
  let padded := pad (map byteZ data) in
  let blocks := chunks (length padded) 64 padded in
  map Zbyte (concat (map (be_bytes 4) (fold_left compress blocks H0))).

End SHA256.

Definition hexdigit (z : Z) : string :=
  String (ascii_of_nat (Z.to_nat (if z <? 10 then 48 + z else 87 + z))) EmptyString.

Definition ToHex (b : bytes) : string :=
  foldr (fun x acc => (hexdigit (byteZ x / 16) +:+ hexdigit (byteZ x mod 16) +:+ acc)%string)
        EmptyString b.

Definition bytes_of_string (s : string) : bytes :=
  list_byte_of_string s.

(** ** Base64 ([xutil/base64.hpp]) *)

Module Base64.

Definition alphabet : bytes :=
  bytes_of_string "ABCDEFGHIJKLMNOPQRSTUVWXYZabcdefghijklmnopqrstuvwxyz0123456789+/".

Definition pad_char : byte := "="%byte.

(** The character of a 6-bit value. *)
Definition enc6 (n : Z) : byte := nth (Z.to_nat n) alphabet pad_char.

(** The 6-bit value of a character of the alphabet. *)
Definition dec6 (c : byte) : option Z :=
  let z := byteZ c in
  if (65 <=? z) && (z <=? 90) then Some (z - 65)
  else if (97 <=? z) && (z <=? 122) then Some (z - 71)
  else if (48 <=? z) && (z <=? 57) then Some (z + 4)
  else if z =? 43 then Some 62
  else if z =? 47 then Some 63
  else None.

(** Groups of three bytes become four characters; the last group is padded. *)
Fixpoint encode_groups (data : bytes) : bytes :=
  match data with
  | [] => []
  | [a] =>
      let n := byteZ a * 65536 in
      [enc6 (n / 262144); enc6 (n / 4096 mod 64); pad_char; pad_char]
  | [a; b] =>
      let n := byteZ a * 65536 + byteZ b * 256 in
      [enc6 (n / 262144); enc6 (n / 4096 mod 64); enc6 (n / 64 mod 64); pad_char]
  | a :: b :: c :: rest =>
      let n := byteZ a * 65536 + byteZ b * 256 + byteZ c in
      enc6 (n / 262144) :: enc6 (n / 4096 mod 64) :: enc6 (n / 64 mod 64)
        :: enc6 (n mod 64) :: encode_groups rest
  end.

Definition quad (c1 c2 c3 c4 : byte) : option Z :=
  v1 ← dec6 c1; v2 ← dec6 c2; v3 ← dec6 c3; v4 ← dec6 c4;
  Some (((v1 * 64 + v2) * 64 + v3) * 64 + v4).

Fixpoint decode_groups (s : bytes) : option bytes :=
  match s with
  | [] => Some []
  | c1 :: c2 :: c3 :: c4 :: rest =>
      match rest with
      | [] =>
          if bool_decide (c4 = pad_char) then
            if bool_decide (c3 = pad_char) then
              v1 ← dec6 c1; v2 ← dec6 c2;
              Some [Zbyte ((v1 * 64 + v2) / 16)]
            else
              v1 ← dec6 c1; v2 ← dec6 c2; v3 ← dec6 c3;
              let n := (v1 * 64 + v2) * 64 + v3 in
              Some [Zbyte (n / 1024); Zbyte (n / 4 mod 256)]
          else
            n ← quad c1 c2 c3 c4;
            Some [Zbyte (n / 65536); Zbyte (n / 256 mod 256); Zbyte (n mod 256)]
      | _ =>
          n ← quad c1 c2 c3 c4;
          tl ← decode_groups rest;
          Some (Zbyte (n / 65536) :: Zbyte (n / 256 mod 256) :: Zbyte (n mod 256) :: tl)
      end
  | _ => None
  end.

(** Modelled from the spec: [EncodeBase64], declared in
    [src/xutil/base64.hpp]; its implementation file is not among the
    sources.  The header promises the base64 format of OpenSSL: the
    standard alphabet, padded with [=]. *)
Definition EncodeBase64 (data : bytes) : string := string_of_list_byte (encode_groups data).

(** Modelled from the spec: [DecodeBase64], declared in
    [src/xutil/base64.hpp]; its implementation file is not among the
    sources.  [None] is the [false] the header promises for invalid data. *)
Definition DecodeBase64 (encoded : string) : option bytes :=
  decode_groups (list_byte_of_string encoded).

End Base64.

Import Base64.

(** ** Channel metadata

    The protocol-buffer declarations are not among the sources; the records
    follow the fields the code reads ([participants (i).name ()],
    [participants (i).address ()], [reinit ()]). *)

Record Participant := mkParticipant { p_name : string; p_address : string }.

Record ChannelMetadata := mkMetadata {
  participants : list Participant;
  reinit : bytes
}.

Definition participants_size (m : ChannelMetadata) : Z :=
  Z.of_nat (length (participants m)).

#[global] Instance Participant_eq_dec : EqDecision Participant.
Proof. solve_decision. Defined.

#[global] Instance ChannelMetadata_eq_dec : EqDecision ChannelMetadata.
Proof. solve_decision. Defined.

(** [uint256]: 32 bytes, compared bytewise. *)
Abbreviation uint256 := (list byte).

Definition NUM_BYTES : Z := 32.

Definition str_size (s : bytes) : Z := Z.of_nat (length s).

(** [unsigned] and [uint64_t] arithmetic wraps around. *)
Definition u32 (x : Z) : Z := x mod 2 ^ 32.
Definition u64 (x : Z) : Z := x mod 2 ^ 64.

(** ** The ships board ([src/ships/board.cpp]) *)

Module Ships.

(** Modelled from the spec: [ParsedBoardState::NO_TURN]; the header that
    gives its value is not among the sources and [-1] stands for it (the
    code only compares with it, next to checks of the range 0..1). *)
Definition NO_TURN : Z := -1.

(** *** Protocol buffers of the game ([proto::BoardState], [proto::BoardMove])

    An [optional] field is an [option] (the has-bit), a [repeated] field a
    list; a getter of an unset field gives the default. *)

Record KnownShips := mkKnown { guessed : option Z; hits : option Z }.

Record BoardState := mkState {
  turn : option Z;
  winner : option Z;
  position_hashes : list bytes;
  seed_hash_0 : option bytes;
  seed_1 : option bytes;
  known_ships : list KnownShips;
  positions : list Z;
  current_shot : option Z
}.

Record PositionCommitmentMove := mkCommit {
  position_hash : option bytes;
  seed_hash : option bytes;
  pc_seed : option bytes
}.

Record SeedRevealMove := mkSeedReveal { sr_seed : option bytes }.

Record ShotMove := mkShot { location : option Z }.

Inductive ReplyType := HIT | MISS | REPLY_OTHER.

Record ReplyMove := mkReply { reply : option ReplyType }.

Record PositionRevealMove := mkReveal {
  pr_position : option Z;
  salt : option bytes
}.

Inductive BoardMove :=
| kPositionCommitment (m : PositionCommitmentMove)
| kSeedReveal (m : SeedRevealMove)
| kShot (m : ShotMove)
| kReply (m : ReplyMove)
| kPositionReveal (m : PositionRevealMove)
| MOVE_NOT_SET.

#[global] Instance KnownShips_eq_dec : EqDecision KnownShips.
Proof. solve_decision. Defined.

#[global] Instance BoardState_eq_dec : EqDecision BoardState.
Proof. solve_decision. Defined.

(** Getters with their defaults. *)
Definition bytes_or_empty (o : option bytes) : bytes := default [] o.
Definition get_turn (s : BoardState) : Z := default 0 (turn s).
Definition get_guessed (k : KnownShips) : Z := default 0 (guessed k).
Definition get_hits (k : KnownShips) : Z := default 0 (hits k).
Definition has {A} (o : option A) : bool := bool_decide (is_Some o).

Definition position_hashes_size (s : BoardState) : Z := Z.of_nat (length (position_hashes s)).
Definition known_ships_size (s : BoardState) : Z := Z.of_nat (length (known_ships s)).
Definition positions_size (s : BoardState) : Z := Z.of_nat (length (positions s)).

(** Setters. *)
Definition set_turn (v : option Z) (s : BoardState) : BoardState :=
  mkState v (winner s) (position_hashes s) (seed_hash_0 s) (seed_1 s)
          (known_ships s) (positions s) (current_shot s).
Definition set_winner (v : option Z) (s : BoardState) : BoardState :=
  mkState (turn s) v (position_hashes s) (seed_hash_0 s) (seed_1 s)
          (known_ships s) (positions s) (current_shot s).
Definition set_position_hashes (v : list bytes) (s : BoardState) : BoardState :=
  mkState (turn s) (winner s) v (seed_hash_0 s) (seed_1 s)
          (known_ships s) (positions s) (current_shot s).
Definition set_seed_hash_0 (v : option bytes) (s : BoardState) : BoardState :=
  mkState (turn s) (winner s) (position_hashes s) v (seed_1 s)
          (known_ships s) (positions s) (current_shot s).
Definition set_seed_1 (v : option bytes) (s : BoardState) : BoardState :=
  mkState (turn s) (winner s) (position_hashes s) (seed_hash_0 s) v
          (known_ships s) (positions s) (current_shot s).
Definition set_known_ships (v : list KnownShips) (s : BoardState) : BoardState :=
  mkState (turn s) (winner s) (position_hashes s) (seed_hash_0 s) (seed_1 s)
          v (positions s) (current_shot s).
Definition set_positions (v : list Z) (s : BoardState) : BoardState :=
  mkState (turn s) (winner s) (position_hashes s) (seed_hash_0 s) (seed_1 s)
          (known_ships s) v (current_shot s).
Definition set_current_shot (v : option Z) (s : BoardState) : BoardState :=
  mkState (turn s) (winner s) (position_hashes s) (seed_hash_0 s) (seed_1 s)
          (known_ships s) (positions s) v.

(** A parsed state: the [ParsedBoardState] base holds the channel id and the
    metadata, [ProtoBoardState] the protocol buffer. *)
Record ShipsBoardState := mkBoard {
  channelId : uint256;
  GetMetadata : ChannelMetadata;
  GetState : BoardState
}.

Inductive Phase :=
| INVALID
| FIRST_COMMITMENT
| SECOND_COMMITMENT
| FIRST_REVEAL_SEED
| SHOOT
| ANSWER
| SECOND_REVEAL_POSITION
| FINISHED.

#[global] Instance Phase_eq_dec : EqDecision Phase.
Proof. solve_decision. Defined.

(** *** [Coord] and [Grid] *)

(** Modelled from the spec: [Coord::CELLS]; [coord.hpp] is not among the
    sources, the [static_assert] of [grid.hpp] fixes the value to the 64
    bits of the grid. *)
Definition CELLS : Z := 64.

(** Modelled from the spec: [Coord::IsOnBoard]; [coord.hpp] is not among
    the sources.  A coordinate is the index of its cell. *)
Definition IsOnBoard (c : Z) : bool := (0 <=? c) && (c <? CELLS).

(** [Grid (b)]: the [uint64_t] bit vector of [src/ships/grid.hpp]. *)
Definition Grid (b : Z) : Z := u64 b.

(** Modelled from the spec: [Grid::Get], declared in [src/ships/grid.hpp]
    ("retrieves the bit for the given coordinate"); the implementation file
    is not among the sources. *)
Definition Grid_Get (g : Z) (c : Z) : bool := Z.testbit g c.

(** Modelled from the spec: [Grid::Set], declared in [src/ships/grid.hpp]
    ("sets the bit at the given coordinate to true"); the implementation
    file is not among the sources. *)
Definition Grid_Set (g : Z) (c : Z) : Z := Z.lor g (Z.shiftl 1 c).

Fixpoint count_bits (n : nat) (x : Z) : Z :=
  match n with
  | O => 0
  | S n' => (if Z.testbit x (Z.of_nat n') then 1 else 0) + count_bits n' x
  end.

(** Modelled from the spec: [Grid::CountOnes], declared in
    [src/ships/grid.hpp] ("counts how many bits are true"); the
    implementation file is not among the sources. *)
Definition CountOnes (g : Z) : Z := count_bits 64 g.

(** Little-endian bytes of a 64-bit value. *)
Fixpoint le_bytes (n : nat) (x : Z) : bytes :=
  match n with
  | O => []
  | S n' => Zbyte x :: le_bytes n' (x / 256)
  end.

(** Modelled from the spec: [Grid::Blob], declared in [src/ships/grid.hpp]
    ("the little-endian encoding of the bits as individual bytes"); the
    implementation file is not among the sources. *)
Definition Grid_Blob (g : Z) : bytes := le_bytes 8 g.

(** [CheckHashValue]: a stored hash of the wrong length simply mismatches. *)
Definition CheckHashValue (actual : uint256) (expected : bytes) : bool :=
  if negb (str_size expected =? NUM_BYTES) then false
  else bool_decide (actual = expected).

(** [GetPhase]. *)
Definition GetPhaseOf (pb : BoardState) : Phase :=
  if has (winner pb) then FINISHED else
  if position_hashes_size pb =? 0 then FIRST_COMMITMENT else
  if position_hashes_size pb =? 1 then SECOND_COMMITMENT else
  if negb (position_hashes_size pb =? 2) then INVALID else
  if known_ships_size pb =? 0 then FIRST_REVEAL_SEED else
  if negb (known_ships_size pb =? 2) then INVALID else
  if positions_size pb =? 2 then SECOND_REVEAL_POSITION else
  if negb (positions_size pb =? 0) then INVALID else
  if has (current_shot pb) then ANSWER else SHOOT.

Definition GetPhase (s : ShipsBoardState) : Phase := GetPhaseOf (GetState s).

(** [IsValid]. *)
Definition IsValid (s : ShipsBoardState) : Chk bool :=
  if participants_size (GetMetadata s) =? 1 then Ok true else
  _ ← CHECK (participants_size (GetMetadata s) =? 2);
  let phase := GetPhase s in
  if bool_decide (phase = INVALID) then Ok false else
  let pb := GetState s in
  if negb (has (turn pb)) || bool_decide (phase = FINISHED)
  then Ok (negb (has (turn pb)) && bool_decide (phase = FINISHED)) else
  let turn := get_turn pb in
  if (turn <? 0) || (1 <? turn) then Ok false else
  match phase with
  | FIRST_COMMITMENT | FIRST_REVEAL_SEED => Ok (turn =? 0)
  | SECOND_COMMITMENT => Ok (turn =? 1)
  | SHOOT | ANSWER => Ok true
  | SECOND_REVEAL_POSITION =>
      _ ← CHECK (positions_size pb =? 2);
      let otherTurn := 1 - turn in
      p ← at_index (positions pb) turn;
      if negb (p =? 0) then Ok false else
      q ← at_index (positions pb) otherTurn;
      Ok (negb (q =? 0))
  | _ => Fatal
  end.

(** [WhoseTurn]. *)
Definition WhoseTurn (s : ShipsBoardState) : Chk Z :=
  if participants_size (GetMetadata s) =? 1 then Ok NO_TURN else
  if negb (has (turn (GetState s))) then Ok NO_TURN else
  let res := get_turn (GetState s) in
  _ ← CHECK (0 <=? res);
  _ ← CHECK (res <=? 1);
  Ok res.

(** [TurnCount], with its [unsigned] arithmetic.  The loop over the
    revealed positions binds each [uint64] entry to a [const int], so it
    tests the low 32 bits. *)
Definition count_shots (ks : list KnownShips) : Z :=
  fold_left (fun shots k => u32 (shots + CountOnes (Grid (get_guessed k)))) ks 0.

Definition count_positions (ps : list Z) (cnt : Z) : Z :=
  fold_left (fun c p => if u32 p =? 0 then c else u32 (c + 1)) ps cnt.

Definition TurnCount (s : ShipsBoardState) : Chk Z :=
  if participants_size (GetMetadata s) =? 1 then Ok 0 else
  let pb := GetState s in
  let shots := count_shots (known_ships pb) in
  match GetPhase s with
  | FIRST_COMMITMENT => Ok 1
  | SECOND_COMMITMENT => Ok 2
  | FIRST_REVEAL_SEED => Ok 3
  | SHOOT => Ok (u32 (4 + 2 * shots))
  | ANSWER => Ok (u32 (4 + 2 * shots - 1))
  | SECOND_REVEAL_POSITION | FINISHED =>
      let cnt := u32 (4 + 2 * shots) in
      let cnt := if has (current_shot pb) then u32 (cnt - 1) else cnt in
      Ok (count_positions (positions pb) cnt)
  | INVALID => Fatal
  end.

(** *** Applying moves

    The functions of [grid.hpp] whose rules are in the missing implementation
    file, and [Random] (seeded with a hash, asked for one [bool]), are
    parameters of the development. *)

Section Moves.

Variable VerifyPositionOfShips : Z -> bool.
Variable VerifyPositionForAnswers : Z -> Z -> Z -> bool.
Variable TotalShipCells : Z.
(** [Random rnd; rnd.Seed (h); rnd.Next<bool> ()]. *)
Variable RandomBit : uint256 -> bool.

(** Every [Apply...] function works on the out-parameter [newState] and
    returns its flag together with what [newState] holds afterwards. *)
Definition ApplyPositionCommitment (mv : PositionCommitmentMove) (phase : Phase)
    (newState : BoardState) : Chk (bool * BoardState) :=
  if negb (str_size (bytes_or_empty (position_hash mv)) =? NUM_BYTES)
  then Ok (false, newState) else
  match phase with
  | FIRST_COMMITMENT =>
      if negb (str_size (bytes_or_empty (seed_hash mv)) =? NUM_BYTES)
      then Ok (false, newState) else
      if has (pc_seed mv) then Ok (false, newState) else
      let newState := set_turn (Some 1) newState in
      let newState :=
        set_position_hashes
          (position_hashes newState ++ [bytes_or_empty (position_hash mv)]) newState in
      _ ← CHECK (position_hashes_size newState =? 1);
      Ok (true, set_seed_hash_0 (Some (bytes_or_empty (seed_hash mv))) newState)
  | SECOND_COMMITMENT =>
      if has (seed_hash mv) then Ok (false, newState) else
      if NUM_BYTES <? str_size (bytes_or_empty (pc_seed mv))
      then Ok (false, newState) else
      let newState := set_turn (Some 0) newState in
      let newState :=
        set_position_hashes
          (position_hashes newState ++ [bytes_or_empty (position_hash mv)]) newState in
      _ ← CHECK (position_hashes_size newState =? 2);
      Ok (true, set_seed_1 (Some (bytes_or_empty (pc_seed mv))) newState)
  | _ => Ok (false, newState)
  end.

Definition ApplySeedReveal (mv : SeedRevealMove) (phase : Phase)
    (newState : BoardState) : Chk (bool * BoardState) :=
  if negb (bool_decide (phase = FIRST_REVEAL_SEED)) then Ok (false, newState) else
  let seed := bytes_or_empty (sr_seed mv) in
  if NUM_BYTES <? str_size seed then Ok (false, newState) else
  if negb (CheckHashValue (SHA256.Hash seed) (bytes_or_empty (seed_hash_0 newState)))
  then Ok (false, newState) else
  let rnd := RandomBit (SHA256.Hash (seed ++ bytes_or_empty (seed_1 newState))) in
  let newState := set_turn (Some (if rnd then 1 else 0)) newState in
  let newState := set_seed_hash_0 None newState in
  let newState := set_seed_1 None newState in
  let fresh := mkKnown (Some 0) (Some 0) in
  Ok (true, set_known_ships (known_ships newState ++ [fresh; fresh]) newState).

Definition ApplyShot (mv : ShotMove) (phase : Phase)
    (newState : BoardState) : Chk (bool * BoardState) :=
  if negb (bool_decide (phase = SHOOT)) then Ok (false, newState) else
  match location mv with
  | None => Ok (false, newState)
  | Some target =>
      if negb (IsOnBoard target) then Ok (false, newState) else
      let otherPlayer := 1 - get_turn newState in
      _ ← CHECK (0 <=? otherPlayer);
      _ ← CHECK (otherPlayer <=? 1);
      known ← at_index (known_ships newState) otherPlayer;
      let guessed := Grid (get_guessed known) in
      if Grid_Get guessed target then Ok (false, newState) else
      let guessed := Grid_Set guessed target in
      let newState := set_turn (Some otherPlayer) newState in
      let newState := set_current_shot (Some target) newState in
      ks ← set_index (known_ships newState) otherPlayer
             (mkKnown (Some guessed) (hits known));
      Ok (true, set_known_ships ks newState)
  end.

Definition ApplyReply (mv : ReplyMove) (phase : Phase)
    (newState : BoardState) : Chk (bool * BoardState) :=
  if negb (bool_decide (phase = ANSWER)) then Ok (false, newState) else
  match reply mv with
  | None => Ok (false, newState)
  | Some r =>
      _ ← CHECK (has (current_shot newState));
      let target := default 0 (current_shot newState) in
      if negb (IsOnBoard target) then Ok (false, newState) else
      let newState := set_current_shot None newState in
      match r with
      | HIT =>
          known ← at_index (known_ships newState) (get_turn newState);
          let hits := Grid (get_hits known) in
          if Grid_Get hits target then Ok (false, newState) else
          let hits := Grid_Set hits target in
          ks ← set_index (known_ships newState) (get_turn newState)
                 (mkKnown (guessed known) (Some hits));
          let newState := set_known_ships ks newState in
          Ok (true, set_turn (Some (1 - get_turn newState)) newState)
      | MISS => Ok (true, newState)
      | REPLY_OTHER => Ok (false, newState)
      end
  end.

Definition ApplyPositionReveal (mv : PositionRevealMove) (phase : Phase)
    (newState : BoardState) : Chk (bool * BoardState) :=
  match phase with
  | SHOOT | ANSWER | SECOND_REVEAL_POSITION =>
    match pr_position mv with
    | None => Ok (false, newState)
    | Some position =>
      let salt := bytes_or_empty (salt mv) in
      if NUM_BYTES <? str_size salt then Ok (false, newState) else
      let g := Grid position in
      committed ← at_index (position_hashes newState) (get_turn newState);
      if negb (CheckHashValue (SHA256.Hash (Grid_Blob g ++ salt)) committed)
      then Ok (false, newState) else
      let newState :=
        if positions_size newState =? 0
        then set_positions (positions newState ++ [0; 0]) newState
        else newState in
      _ ← CHECK (positions_size newState =? 2);
      old ← at_index (positions newState) (get_turn newState);
      _ ← CHECK (old =? 0);
      ps ← set_index (positions newState) (get_turn newState) position;
      let newState := set_positions ps newState in
      phs ← set_index (position_hashes newState) (get_turn newState) [];
      let newState := set_position_hashes phs newState in
      let otherPlayer := 1 - get_turn newState in
      _ ← CHECK (0 <=? otherPlayer);
      _ ← CHECK (otherPlayer <=? 1);
      verified ←
        (if negb (VerifyPositionOfShips g)
         then Ok (Some (set_winner (Some otherPlayer) newState))
         else
           known ← at_index (known_ships newState) (get_turn newState);
           if negb (Z.land (get_hits known) (u64 (Z.lnot (get_guessed known))) =? 0)
           then Ok None
           else
             if negb (VerifyPositionForAnswers g (Grid (get_guessed known))
                                               (Grid (get_hits known)))
             then Ok (Some (set_winner (Some otherPlayer) newState))
             else Ok (Some newState));
      match verified with
      | None => Ok (false, newState)
      | Some newState =>
        newState ←
          (if negb (has (winner newState))
              && negb (bool_decide (phase = SECOND_REVEAL_POSITION))
           then
             other ← at_index (known_ships newState) otherPlayer;
             let ones := CountOnes (Grid (get_hits other)) in
             if TotalShipCells <=? ones
             then Ok (set_winner (Some (get_turn newState)) newState)
             else Ok newState
           else Ok newState);
        let newState :=
          if negb (has (winner newState))
             && bool_decide (phase = SECOND_REVEAL_POSITION)
          then set_winner (Some (get_turn newState)) newState
          else newState in
        if has (winner newState)
        then
          let newState := set_turn None newState in
          Ok (true, set_position_hashes (map (fun _ => []) (position_hashes newState))
                                         newState)
        else
          _ ← CHECK (negb (bool_decide (phase = SECOND_REVEAL_POSITION)));
          Ok (true, set_turn (Some otherPlayer) newState)
      end
    end
  | _ => Ok (false, newState)
  end.

(** [ApplyMoveProto]: [newState] is first overwritten with a copy of the
    current state. *)
Definition ApplyMoveProto (s : ShipsBoardState) (mv : BoardMove)
    (newState : BoardState) : Chk (bool * BoardState) :=
  let pb := GetState s in
  let newState := pb in
  turn ← WhoseTurn s;
  _ ← CHECK (negb (turn =? NO_TURN));
  let phase := GetPhase s in
  match mv with
  | kPositionCommitment m => ApplyPositionCommitment m phase newState
  | kSeedReveal m => ApplySeedReveal m phase newState
  | kShot m => ApplyShot m phase newState
  | kReply m => ApplyReply m phase newState
  | kPositionReveal m => ApplyPositionReveal m phase newState
  | MOVE_NOT_SET => Ok (false, newState)
  end.

End Moves.

(** [InitialBoardState]. *)
Definition InitialBoardState : BoardState :=
  mkState (Some 0) None [] None None [] [] None.

End Ships.


(** ** Protocol buffers

    The protobuf runtime is an external library.  A message type comes with
    its wire codec and with the unknown-field test of the framework
    ([HasAnyUnknownFields], declared in a header that is not among the
    sources). *)

Class ProtoCodec (M : Type) := {
  (** [msg.SerializeToString (&out)]; [None] when it reports failure. *)
  SerializeToString : M -> option bytes;
  (** [msg.ParseFromString (data)]; [None] when it reports failure. *)
  ParseFromString : bytes -> option M;
  (** Whether the parsed message carries unknown fields, at any depth. *)
  HasAnyUnknownFields : M -> bool
}.

(** ** [gamechannel/protoboard.tpp] *)

Module ProtoBoard.

Section Rules.

Context {State Move : Type}.
Context {state_codec : ProtoCodec State} {move_codec : ProtoCodec Move}.
(** The game's state class: its constructor from a parsed protocol buffer,
    and the two functions it overrides. *)
Context {StateClass : Type}.
Variable make : uint256 -> ChannelMetadata -> State -> StateClass.
Variable IsValid : StateClass -> Chk bool.
Variable ApplyMoveProto : StateClass -> Move -> State -> Chk (bool * State).
(** A default-constructed [State]. *)
Variable empty_state : State.

(** [ProtoBoardState::ApplyMove]; [newState] is written only on success. *)
Definition ApplyMove (this : StateClass) (mv : bytes) (newState : bytes)
    : Chk (bool * bytes) :=
  match ParseFromString (M := Move) mv with
  | None => Ok (false, newState)
  | Some pm =>
      if HasAnyUnknownFields pm then Ok (false, newState) else
      let pn := empty_state in
      r ← ApplyMoveProto this pm pn;
      if negb (fst r) then Ok (false, newState) else
      match SerializeToString (snd r) with
      | None => Fatal
      | Some out => Ok (true, out)
      end
  end.

(** [ProtoBoardRules::ParseState]; [None] is the null pointer. *)
Definition ParseState (channelId : uint256) (meta : ChannelMetadata) (s : bytes)
    : Chk (option StateClass) :=
  match ParseFromString (M := State) s with
  | None => Ok None
  | Some p =>
      if HasAnyUnknownFields p then Ok None else
      let res := make channelId meta p in
      valid ← IsValid res;
      if negb valid then Ok None else Ok (Some res)
  end.

End Rules.

End ProtoBoard.

(** ** [gamechannel/protoutils.tpp] *)

Section ProtoUtils.

Context {Proto : Type} {proto_codec : ProtoCodec Proto}.

Definition ProtoToBase64 (msg : Proto) : Chk string :=
  match SerializeToString msg with
  | None => Fatal
  | Some serialised => Ok (EncodeBase64 serialised)
  end.

(** The flag and the message parsed into [msg]. *)
Definition ProtoFromBase64 (str : string) : option Proto :=
  match DecodeBase64 str with
  | None => None
  | Some bytes => ParseFromString bytes
  end.

End ProtoUtils.


(** ** State proofs

    [SignedData], [StateTransition] and [StateProof] as the data model of
    the specification gives them. *)

Record SignedData := mkSigned {
  sd_data : bytes;
  sd_signatures : list bytes
}.

Record StateTransition := mkTransition {
  st_move : bytes;
  st_new_state : SignedData
}.

Record StateProof := mkProof {
  initial_state : SignedData;
  transitions : list StateTransition
}.

(** Modelled from the spec: [UnverifiedProofEndState], whose file is not
    among the sources.  The final state is [initial_state] when
    [transitions] is empty, else [transitions.last.new_state]. *)
Definition UnverifiedProofEndState (proof : StateProof) : bytes :=
  match list.last (transitions proof) with
  | None => sd_data (initial_state proof)
  | Some t => sd_data (st_new_state t)
  end.

(** ** [gamechannel/database.cpp] *)

Module Database.

(** A row of [xgame_game_channels] without its key; [None] is SQL NULL. *)
Record Row := mkRow {
  col_metadata : bytes;
  col_reinit : bytes;
  col_stateproof : option bytes;
  col_disputeHeight : option Z
}.

(** The table, keyed by the primary key [id]. *)
Abbreviation Table := (gmap uint256 Row).

Record ChannelData := mkChannel {
  id : uint256;
  initialised : bool;
  metadata : ChannelMetadata;
  reinit_state : bytes;
  proof : StateProof;
  disputeHeight : Z;
  dirty : bool
}.

Definition empty_metadata : ChannelMetadata := mkMetadata [] [].
Definition empty_proof : StateProof := mkProof (mkSigned [] []) [].

(** [StateProofFromReinit]. *)
Definition StateProofFromReinit (reinit : bytes) : StateProof :=
  mkProof (mkSigned reinit []) [].

Section Codecs.

Context {metadata_codec : ProtoCodec ChannelMetadata}.
Context {proof_codec : ProtoCodec StateProof}.

(** [ChannelData::ChannelData (db, id)]. *)
Definition NewChannelData (i : uint256) : ChannelData :=
  mkChannel i false empty_metadata [] empty_proof 0 true.

(** [ChannelData::ChannelData (db, row)]. *)
Definition ChannelDataFromRow (i : uint256) (row : Row) : Chk ChannelData :=
  match ParseFromString (M := ChannelMetadata) (col_metadata row) with
  | None => Fatal
  | Some metadata =>
      let reinit := col_reinit row in
      proof ←
        match col_stateproof row with
        | None => Ok (StateProofFromReinit reinit)
        | Some blob =>
            match ParseFromString (M := StateProof) blob with
            | None => Fatal
            | Some p => Ok p
            end
        end;
      let disputeHeight :=
        match col_disputeHeight row with
        | None => 0
        | Some h => u32 h
        end in
      Ok (mkChannel i true metadata reinit proof disputeHeight false)
  end.

(** [GetLatestState]. *)
Definition GetLatestState (c : ChannelData) : Chk bytes :=
  _ ← CHECK (initialised c);
  Ok (UnverifiedProofEndState (proof c)).

(** [BindBlobProto]. *)
Definition BindBlobProto {M} {codec : ProtoCodec M} (msg : M) : Chk bytes :=
  match SerializeToString msg with
  | None => Fatal
  | Some serialised => Ok serialised
  end.

(** [ChannelData::~ChannelData]: the database after the handle is gone. *)
Definition DestroyChannelData (db : Table) (c : ChannelData) : Chk Table :=
  _ ← CHECK (initialised c);
  if negb (dirty c) then Ok db else
  meta ← BindBlobProto (metadata c);
  latest ← GetLatestState c;
  stateproof ←
    (if bool_decide (latest = reinit_state c) then Ok None
     else blob ← BindBlobProto (proof c); Ok (Some blob));
  let height := if disputeHeight c =? 0 then None else Some (disputeHeight c) in
  Ok (<[id c := mkRow meta (reinit_state c) stateproof height]> db).

Definition GetMetadata (c : ChannelData) : Chk ChannelMetadata :=
  _ ← CHECK (initialised c); Ok (metadata c).

Definition GetReinitState (c : ChannelData) : Chk bytes :=
  _ ← CHECK (initialised c); Ok (reinit_state c).

Definition Reinitialise (m : ChannelMetadata) (initialisedState : bytes)
    (c : ChannelData) : Chk ChannelData :=
  _ ← (if initialised c
       then CHECK (negb (bool_decide (reinit (metadata c) = reinit m)))
       else Ok tt);
  Ok (mkChannel (id c) true m initialisedState
                (StateProofFromReinit initialisedState) (disputeHeight c) true).

Definition GetStateProof (c : ChannelData) : Chk StateProof :=
  _ ← CHECK (initialised c); Ok (proof c).

Definition SetStateProof (p : StateProof) (c : ChannelData) : Chk ChannelData :=
  _ ← CHECK (initialised c);
  Ok (mkChannel (id c) (initialised c) (metadata c) (reinit_state c) p
                (disputeHeight c) true).

Definition GetDisputeHeight (c : ChannelData) : Chk Z :=
  _ ← CHECK (0 <? disputeHeight c); Ok (disputeHeight c).

Definition SetDisputeHeight (h : Z) (c : ChannelData) : Chk ChannelData :=
  _ ← CHECK (0 <? h);
  Ok (mkChannel (id c) (initialised c) (metadata c) (reinit_state c) (proof c)
                h true).

(** [ChannelsTable::GetById]; [None] is the null handle. *)
Definition GetById (db : Table) (i : uint256) : Chk (option ChannelData) :=
  match db !! i with
  | None => Ok None
  | Some row => h ← ChannelDataFromRow i row; Ok (Some h)
  end.

Definition CreateNew (i : uint256) : ChannelData := NewChannelData i.

Definition DeleteById (db : Table) (i : uint256) : Table := delete i db.

End Codecs.

(** [ORDER BY id]: blobs compare bytewise. *)
Fixpoint blob_leb (a b : bytes) : bool :=
  match a, b with
  | [], _ => true
  | _ :: _, [] => false
  | x :: a', y :: b' =>
      if byteZ x <? byteZ y then true
      else if byteZ y <? byteZ x then false
      else blob_leb a' b'
  end.

Definition by_id {A} (r1 r2 : uint256 * A) : Prop := blob_leb (fst r1) (fst r2) = true.

#[global] Instance by_id_dec {A} : RelDecision (@by_id A).
Proof. intros r1 r2. unfold by_id. apply _. Defined.

(** [ChannelsTable::QueryAll]: the rows a statement steps through. *)
Definition QueryAll (db : Table) : list (uint256 * Row) :=
  merge_sort by_id (map_to_list db).

(** [ChannelsTable::QueryForDisputeHeight]: a NULL [disputeHeight] never
    satisfies the comparison. *)
Definition QueryForDisputeHeight (db : Table) (height : Z) : list (uint256 * Row) :=
  List.filter
    (fun r => match col_disputeHeight (snd r) with
              | None => false
              | Some h => h <=? height
              end)
    (QueryAll db).

(** The calls a holder of a handle can make. *)
Inductive Call :=
| CallGetMetadata
| CallGetReinitState
| CallGetStateProof
| CallGetLatestState
| CallGetDisputeHeight
| CallReinitialise (m : ChannelMetadata) (s : bytes)
| CallSetStateProof (p : StateProof)
| CallSetDisputeHeight (h : Z).

Definition mutating (c : Call) : bool :=
  match c with
  | CallReinitialise _ _ | CallSetStateProof _ | CallSetDisputeHeight _ => true
  | _ => false
  end.

Section Calls.

Context {metadata_codec : ProtoCodec ChannelMetadata}.
Context {proof_codec : ProtoCodec StateProof}.

Definition call (c : Call) (h : ChannelData) : Chk ChannelData :=
  match c with
  | CallGetMetadata => _ ← GetMetadata h; Ok h
  | CallGetReinitState => _ ← GetReinitState h; Ok h
  | CallGetStateProof => _ ← GetStateProof h; Ok h
  | CallGetLatestState => _ ← GetLatestState h; Ok h
  | CallGetDisputeHeight => _ ← GetDisputeHeight h; Ok h
  | CallReinitialise m s => Reinitialise m s h
  | CallSetStateProof p => SetStateProof p h
  | CallSetDisputeHeight x => SetDisputeHeight x h
  end.

Fixpoint calls (cs : list Call) (h : ChannelData) : Chk ChannelData :=
  match cs with
  | [] => Ok h
  | c :: cs' => h' ← call c h; calls cs' h'
  end.

End Calls.

End Database.

Import Database.


(** ** JSON values (jsoncpp) *)

#[warnings="-register-all"]
Inductive Json :=
| JNull
| JBool (b : bool)
| JInt (z : Z)
| JStr (s : string)
| JArr (items : list Json)
| JObj (members : list (string * Json)).

Definition isObject (j : Json) : bool :=
  match j with JObj _ => true | _ => false end.

Definition json_size (j : Json) : Z :=
  match j with
  | JObj members => Z.of_nat (length members)
  | JArr items => Z.of_nat (length items)
  | _ => 0
  end.

(** [obj[key]] on a constant value: null when there is no such member. *)
Definition member (key : string) (j : Json) : Json :=
  match j with
  | JObj members =>
      match List.find (fun kv => String.eqb (fst kv) key) members with
      | Some kv => snd kv
      | None => JNull
      end
  | _ => JNull
  end.

Definition asString (j : Json) : option string :=
  match j with JStr s => Some s | _ => None end.

(** Modelled from the spec: [uint256::FromHex], whose file is not among the
    sources; an id is the hex form of its 32 bytes. *)
Definition hexval (c : byte) : option Z :=
  let z := byteZ c in
  if (48 <=? z) && (z <=? 57) then Some (z - 48)
  else if (97 <=? z) && (z <=? 102) then Some (z - 87)
  else None.

Fixpoint hex_pairs (s : bytes) : option bytes :=
  match s with
  | [] => Some []
  | hi :: lo :: rest =>
      h ← hexval hi; l ← hexval lo; tl ← hex_pairs rest;
      Some (Zbyte (16 * h + l) :: tl)
  | _ => None
  end.

Definition FromHex (hex : string) : option uint256 :=
  if negb (Z.of_nat (String.length hex) =? 2 * NUM_BYTES) then None
  else hex_pairs (list_byte_of_string hex).

(** ** The on-chain arbiter of the ships game

    [ShipsLogic::UpdateState] and the handlers it calls are declared in
    [src/ships/logic.hpp]; their implementation file is not among the
    sources.  The definitions of this module follow section 4.6 of the
    specification and the cases of [src/ships/logic_tests.cpp]. *)

Module Arbiter.

Definition DISPUTE_BLOCKS : Z := 10.
Definition CHANNEL_TIMEOUT_BLOCKS : Z := 12.

(** A move of a block, with the fields the framework supplies. *)
Record BlockMove := mkMove {
  mv_name : string;
  mv_txid : uint256;
  mv_mvid : option uint256;
  mv_move : Json
}.

(** The game state: the channels table, the [game_stats] table (name to
    won and lost) and, for the unjoined timeout, the height at which each
    channel was created. *)
Record GameState := mkGame {
  channels : gmap uint256 Row;
  stats : gmap string (Z * Z);
  created : gmap uint256 Z
}.

Definition with_channels (t : gmap uint256 Row) (st : GameState) : GameState :=
  mkGame t (stats st) (created st).

(** *** Parsing the payloads *)

(** Modelled from the spec: the payload [{addr: string}] of a create move;
    the parser is in the missing implementation file. *)
Definition ParseCreateChannelMove (obj : Json) : option string :=
  if negb (isObject obj) then None else
  if negb (json_size obj =? 1) then None else
  asString (member "addr" obj).

(** Modelled from the spec: the payload [{id: hex, addr: string}] of a join
    move; the parser is in the missing implementation file. *)
Definition ParseJoinChannelMove (obj : Json) : option (uint256 * string) :=
  if negb (isObject obj) then None else
  if negb (json_size obj =? 2) then None else
  addr ← asString (member "addr" obj);
  hex ← asString (member "id" obj);
  i ← FromHex hex;
  Some (i, addr).

(** Modelled from the spec: the payload [{id: hex}] of an abort move; the
    parser is in the missing implementation file. *)
Definition ParseAbortChannelMove (obj : Json) : option uint256 :=
  if negb (isObject obj) then None else
  if negb (json_size obj =? 1) then None else
  hex ← asString (member "id" obj);
  FromHex hex.

(** Modelled from the spec: the payload [{id: hex, r: base64}] of a loss
    declaration; the parser is in the missing implementation file. *)
Definition ParseDeclareLossMove (obj : Json) : option (uint256 * bytes) :=
  if negb (isObject obj) then None else
  if negb (json_size obj =? 2) then None else
  hex ← asString (member "id" obj);
  i ← FromHex hex;
  r64 ← asString (member "r" obj);
  r ← DecodeBase64 r64;
  Some (i, r).

Section Logic.

Context {metadata_codec : ProtoCodec ChannelMetadata}.
Context {proof_codec : ProtoCodec StateProof}.
Context {board_codec : ProtoCodec Ships.BoardState}.
Context {move_codec : ProtoCodec Ships.BoardMove}.

(** Modelled from the spec: the payload [{id: hex, state: base64}] of a
    dispute or resolution; the parser is in the missing implementation
    file. *)
Definition ParseDisputeResolutionMove (obj : Json) : option (uint256 * StateProof) :=
  if negb (isObject obj) then None else
  if negb (json_size obj =? 2) then None else
  hex ← asString (member "id" obj);
  i ← FromHex hex;
  state64 ← asString (member "state" obj);
  proof ← ProtoFromBase64 state64;
  Some (i, proof).

(** The dispute and resolution rules of the channel framework
    ([ProcessDispute], [ProcessResolution]): they verify the state proof and
    update the handle, and tell whether the move was accepted. *)
Variable ProcessDispute : ChannelData -> Z -> StateProof -> Chk (bool * ChannelData).
Variable ProcessResolution : ChannelData -> StateProof -> Chk (bool * ChannelData).

(** The board rules of the game: [ShipsBoardRules::ParseState]. *)
Definition ParseState (channelId : uint256) (meta : ChannelMetadata) (s : bytes)
    : Chk (option Ships.ShipsBoardState) :=
  ProtoBoard.ParseState Ships.mkBoard Ships.IsValid channelId meta s.

(** Modelled from the spec: the reinitialisation marker, which changes with
    every reset of the channel; how the missing code derives it is not
    specified, a hash of the old marker and the transaction id stands for
    it. *)
Definition UpdateMetadataReinit (txid : uint256) (meta : ChannelMetadata) : ChannelMetadata :=
  mkMetadata (participants meta) (SHA256.Hash (reinit meta ++ txid)).

(** *** The statistics *)

Definition add_won (name : string) (s : gmap string (Z * Z)) : gmap string (Z * Z) :=
  let cur := default (0, 0) (s !! name) in
  <[name := (fst cur + 1, snd cur)]> s.

Definition add_lost (name : string) (s : gmap string (Z * Z)) : gmap string (Z * Z) :=
  let cur := default (0, 0) (s !! name) in
  <[name := (fst cur, snd cur + 1)]> s.

(** Modelled from the spec: [ShipsLogic::UpdateStats], whose implementation
    file is not among the sources: one more win for the participant
    [winner], one more loss for the other one (test
    [DeclareLossTests.UpdateStats]). *)
Definition UpdateStats (st : GameState) (meta : ChannelMetadata) (winner : Z)
    : Chk GameState :=
  _ ← CHECK (participants_size meta =? 2);
  _ ← CHECK ((0 <=? winner) && (winner <=? 1));
  w ← at_index (participants meta) winner;
  l ← at_index (participants meta) (1 - winner);
  Ok (mkGame (channels st) (add_lost (p_name l) (add_won (p_name w) (stats st)))
             (created st)).

(** *** The six operations *)

(** Modelled from the spec: the handler of a create move, whose
    implementation file is not among the sources.  It creates a
    single-participant channel.  For an id that is taken, the
    test [CreateChannelTests.FailsForIdCollision] of the repository expects
    the process to die with "Already have channel with ID". *)
Definition HandleCreateChannel (st : GameState) (obj : Json) (name : string)
    (i : uint256) (height : Z) : Chk GameState :=
  match ParseCreateChannelMove obj with
  | None => Ok st
  | Some addr =>
      existing ← GetById (channels st) i;
      _ ← CHECK (bool_decide (existing = None :> option ChannelData));
      let h := CreateNew i in
      let meta := mkMetadata [mkParticipant name addr] [] in
      let meta := UpdateMetadataReinit i meta in
      h ← Reinitialise meta [] h;
      t ← DestroyChannelData (channels st) h;
      Ok (mkGame t (stats st) (<[i := height]> (created st)))
  end.

(** Modelled from the spec: the handler of a join move, whose implementation
    file is not among the sources.  The sender joins an existing
    one-participant channel as second participant, unless it is the
    participant already there; the board becomes the initial state. *)
Definition HandleJoinChannel (st : GameState) (obj : Json) (name : string)
    (txid : uint256) : Chk GameState :=
  match ParseJoinChannelMove obj with
  | None => Ok st
  | Some (i, addr) =>
      existing ← GetById (channels st) i;
      match existing with
      | None => Ok st
      | Some h =>
          meta ← GetMetadata h;
          if negb (participants_size meta =? 1) then Ok st else
          first ← at_index (participants meta) 0;
          if String.eqb (p_name first) name then Ok st else
          let meta :=
            mkMetadata (participants meta ++ [mkParticipant name addr]) (reinit meta) in
          let meta := UpdateMetadataReinit txid meta in
          state ← BindBlobProto Ships.InitialBoardState;
          h ← Reinitialise meta state h;
          t ← DestroyChannelData (channels st) h;
          Ok (with_channels t st)
      end
  end.

(** Modelled from the spec: the handler of an abort move, whose
    implementation file is not among the sources.  It deletes a channel
    whose only participant is the sender. *)
Definition HandleAbortChannel (st : GameState) (obj : Json) (name : string)
    : Chk GameState :=
  match ParseAbortChannelMove obj with
  | None => Ok st
  | Some i =>
      existing ← GetById (channels st) i;
      match existing with
      | None => Ok st
      | Some h =>
          meta ← GetMetadata h;
          if negb (participants_size meta =? 1) then Ok st else
          first ← at_index (participants meta) 0;
          if negb (String.eqb (p_name first) name) then Ok st else
          Ok (mkGame (DeleteById (channels st) i) (stats st) (delete i (created st)))
      end
  end.

(** The index of the participant called [name], if there is one. *)
Fixpoint participant_index (ps : list Participant) (name : string) (i : Z) : option Z :=
  match ps with
  | [] => None
  | p :: ps' =>
      if String.eqb (p_name p) name then Some i
      else participant_index ps' name (i + 1)
  end.

(** Modelled from the spec: [ShipsLogic::HandleDeclareLoss], whose
    implementation file is not among the sources.  The sender, a
    participant of a two-participant channel with the given reinit marker,
    is the loser; the channel is closed. *)
Definition HandleDeclareLoss (st : GameState) (obj : Json) (name : string)
    : Chk GameState :=
  match ParseDeclareLossMove obj with
  | None => Ok st
  | Some (i, r) =>
      existing ← GetById (channels st) i;
      match existing with
      | None => Ok st
      | Some h =>
          meta ← GetMetadata h;
          if negb (participants_size meta =? 2) then Ok st else
          if negb (bool_decide (reinit meta = r)) then Ok st else
          match participant_index (participants meta) name 0 with
          | None => Ok st
          | Some loser =>
              st ← UpdateStats st meta (1 - loser);
              Ok (with_channels (DeleteById (channels st) i) st)
          end
      end
  end.

(** Modelled from the spec: [ShipsLogic::HandleDisputeResolution], whose
    implementation file is not among the sources.  It files a dispute or
    resolves one.  A resolution whose state is terminal
    closes the channel and updates the statistics. *)
Definition HandleDisputeResolution (st : GameState) (obj : Json) (height : Z)
    (isDispute : bool) : Chk GameState :=
  match ParseDisputeResolutionMove obj with
  | None => Ok st
  | Some (i, proof) =>
      existing ← GetById (channels st) i;
      match existing with
      | None => Ok st
      | Some h =>
          meta ← GetMetadata h;
          if negb (participants_size meta =? 2) then Ok st else
          r ← (if isDispute then ProcessDispute h height proof
               else ProcessResolution h proof);
          if negb (fst r) then Ok st else
          let h := snd r in
          t ← DestroyChannelData (channels st) h;
          let st := with_channels t st in
          if isDispute then Ok st else
          latest ← GetLatestState h;
          parsed ← ParseState i meta latest;
          match parsed with
          | None => Fatal
          | Some state =>
              match Ships.winner (Ships.GetState state) with
              | None => Ok st
              | Some winner =>
                  st ← UpdateStats st meta winner;
                  Ok (with_channels (DeleteById (channels st) i) st)
              end
          end
      end
  end.

(** *** A block *)

(** Modelled from the spec: the body of the loop of
    [ShipsLogic::UpdateState] over the moves of a block.  A move that is not
    an object or has more than one key is dropped; each handler ignores a
    payload it cannot parse. *)
Definition ProcessMove (height : Z) (st : GameState) (mv : BlockMove) : Chk GameState :=
  let data := mv_move mv in
  if negb (isObject data) then Ok st else
  if 1 <? json_size data then Ok st else
  let i := default (mv_txid mv) (mv_mvid mv) in
  st ← HandleCreateChannel st (member "c" data) (mv_name mv) i height;
  st ← HandleJoinChannel st (member "j" data) (mv_name mv) (mv_txid mv);
  st ← HandleAbortChannel st (member "a" data) (mv_name mv);
  st ← HandleDeclareLoss st (member "l" data) (mv_name mv);
  st ← HandleDisputeResolution st (member "d" data) height true;
  HandleDisputeResolution st (member "r" data) height false.

Fixpoint ProcessMoves (height : Z) (st : GameState) (moves : list BlockMove)
    : Chk GameState :=
  match moves with
  | [] => Ok st
  | mv :: rest => st' ← ProcessMove height st mv; ProcessMoves height st' rest
  end.

(** Modelled from the spec: the first half of
    [ShipsLogic::ProcessExpiredDisputes] for one row, whose implementation
    file is not among the sources.
    The participant whose turn is pending in the latest state of a channel
    under dispute, with the metadata of the channel.  A dispute is only ever
    filed on a channel with two participants and a valid state in which some
    player is to move; anything else here is an invariant breach. *)
Definition PendingLoser (r : uint256 * Row) : Chk (ChannelMetadata * Z) :=
  h ← ChannelDataFromRow (fst r) (snd r);
  meta ← GetMetadata h;
  _ ← CHECK (participants_size meta =? 2);
  latest ← GetLatestState h;
  parsed ← ParseState (fst r) meta latest;
  match parsed with
  | None => Fatal
  | Some state =>
      loser ← Ships.WhoseTurn state;
      _ ← CHECK (negb (loser =? Ships.NO_TURN));
      _ ← CHECK (0 <=? loser);
      _ ← CHECK (loser <=? 1);
      Ok (meta, loser)
  end.

(** Modelled from the spec: the second half of
    [ShipsLogic::ProcessExpiredDisputes] for one row.
    Close one channel whose dispute expired: the participant whose turn is
    pending loses, the other one wins. *)
Definition ExpireDispute (st : GameState) (r : uint256 * Row) : Chk GameState :=
  ml ← PendingLoser r;
  let winner := 1 - snd ml in
  st ← UpdateStats st (fst ml) winner;
  Ok (with_channels (DeleteById (channels st) (fst r)) st).

Fixpoint ExpireDisputes (st : GameState) (rows : list (uint256 * Row)) : Chk GameState :=
  match rows with
  | [] => Ok st
  | r :: rest => st' ← ExpireDispute st r; ExpireDisputes st' rest
  end.

(** Modelled from the spec: [ShipsLogic::ProcessExpiredDisputes], whose
    implementation file is not among the sources: the channels with
    [dispute_height <= height - DISPUTE_BLOCKS]. *)
Definition ProcessExpiredDisputes (st : GameState) (height : Z) : Chk GameState :=
  ExpireDisputes st (QueryForDisputeHeight (channels st) (height - DISPUTE_BLOCKS)).

(** Modelled from the spec: the unjoined timeout, whose code is not among
    the sources: a channel created [CHANNEL_TIMEOUT_BLOCKS] ago
    that still has a single participant is swept. *)
Definition TimeOutChannel (st : GameState) (c : uint256 * Z) : Chk GameState :=
  existing ← GetById (channels st) (fst c);
  match existing with
  | None => Ok st
  | Some h =>
      meta ← GetMetadata h;
      if negb (participants_size meta =? 1) then Ok st else
      Ok (mkGame (DeleteById (channels st) (fst c)) (stats st)
                 (delete (fst c) (created st)))
  end.

Fixpoint TimeOutAll (st : GameState) (cs : list (uint256 * Z)) : Chk GameState :=
  match cs with
  | [] => Ok st
  | c :: rest => st' ← TimeOutChannel st c; TimeOutAll st' rest
  end.

Definition TimeOutChannels (st : GameState) (height : Z) : Chk GameState :=
  TimeOutAll st
    (List.filter (fun c => snd c <=? height - CHANNEL_TIMEOUT_BLOCKS)
                 (merge_sort by_id (map_to_list (created st)))).

(** Modelled from the spec: [ShipsLogic::UpdateState], whose implementation
    file is not among the sources, for the block at [height] with its
    [moves]: the moves in order, then the expired disputes, then the
    unjoined timeout. *)
Definition UpdateState (st : GameState) (height : Z) (moves : list BlockMove)
    : Chk GameState :=
  st ← ProcessMoves height st moves;
  st ← ProcessExpiredDisputes st height;
  TimeOutChannels st height.

End Logic.
End Arbiter.

(** ** The board rules of the ships game over the wire *)

Section ShipsRules.

Context {board_codec : ProtoCodec Ships.BoardState}.
Context {move_codec : ProtoCodec Ships.BoardMove}.
Variable VerifyPositionOfShips : Z -> bool.
Variable VerifyPositionForAnswers : Z -> Z -> Z -> bool.
Variable TotalShipCells : Z.
Variable RandomBit : uint256 -> bool.

(** A default-constructed [proto::BoardState]. *)
Definition empty_board : Ships.BoardState :=
  Ships.mkState None None [] None None [] [] None.

(** [ShipsBoardState::ApplyMove], inherited from [ProtoBoardState]. *)
Definition ShipsApplyMove (s : Ships.ShipsBoardState) (mv newState : bytes)
    : Chk (bool * bytes) :=
  ProtoBoard.ApplyMove
    (Ships.ApplyMoveProto VerifyPositionOfShips VerifyPositionForAnswers
                          TotalShipCells RandomBit)
    empty_board s mv newState.

(** [ShipsBoardRules::ParseState], inherited from [ProtoBoardRules]. *)
Definition ShipsParseState (channelId : uint256) (meta : ChannelMetadata) (s : bytes)
    : Chk (option Ships.ShipsBoardState) :=
  ProtoBoard.ParseState Ships.mkBoard Ships.IsValid channelId meta s.

End ShipsRules.

(** ** A reference codec

    The statements below hold for every wire codec.  To exhibit inputs for
    them, here is one that exists: a message is numbered by the [Countable]
    instance of its type and the number is written out bit by bit.  It
    parses back what it serialises, for every message. *)

Module Reference.

Import Ships.

Fixpoint pos_bits (p : positive) : bytes :=
  match p with
  | xH => []
  | xO q => x00 :: pos_bits q
  | xI q => x01 :: pos_bits q
  end.

Fixpoint bits_pos (b : bytes) : option positive :=
  match b with
  | [] => Some xH
  | x :: rest =>
      q ← bits_pos rest;
      if bool_decide (x = x00) then Some (xO q)
      else if bool_decide (x = x01) then Some (xI q)
      else None
  end.

Definition serialize `{Countable M} (m : M) : option bytes := Some (pos_bits (encode m)).

Definition parse `{Countable M} (b : bytes) : option M := bits_pos b ≫= decode.

(** A message type without unknown fields. *)
Definition plain (M : Type) `{Countable M} : ProtoCodec M :=
  {| SerializeToString := serialize;
     ParseFromString := parse;
     HasAnyUnknownFields := fun _ => false |}.

(** A message together with the payloads of its unknown fields. *)
Definition tagged (M : Type) `{Countable M} : ProtoCodec (M * list bytes) :=
  {| SerializeToString := serialize;
     ParseFromString := parse;
     HasAnyUnknownFields := fun m => negb (bool_decide (snd m = [])) |}.

#[global] Instance Participant_countable : Countable Participant :=
  inj_countable' (fun p => (p_name p, p_address p))
                 (fun t => mkParticipant (fst t) (snd t)) (fun p => match p with mkParticipant _ _ => eq_refl end).

#[global] Instance ChannelMetadata_countable : Countable ChannelMetadata :=
  inj_countable' (fun m => (participants m, reinit m))
                 (fun t => mkMetadata (fst t) (snd t)) (fun m => match m with mkMetadata _ _ => eq_refl end).

#[global] Instance SignedData_eq_dec : EqDecision SignedData.
Proof. solve_decision. Defined.
#[global] Instance StateTransition_eq_dec : EqDecision StateTransition.
Proof. solve_decision. Defined.
#[global] Instance StateProof_eq_dec : EqDecision StateProof.
Proof. solve_decision. Defined.

#[global] Instance SignedData_countable : Countable SignedData :=
  inj_countable' (fun m => (sd_data m, sd_signatures m))
                 (fun t => mkSigned (fst t) (snd t)) (fun m => match m with mkSigned _ _ => eq_refl end).

#[global] Instance StateTransition_countable : Countable StateTransition :=
  inj_countable' (fun m => (st_move m, st_new_state m))
                 (fun t => mkTransition (fst t) (snd t)) (fun m => match m with mkTransition _ _ => eq_refl end).

#[global] Instance StateProof_countable : Countable StateProof :=
  inj_countable' (fun m => (initial_state m, transitions m))
                 (fun t => mkProof (fst t) (snd t)) (fun m => match m with mkProof _ _ => eq_refl end).

#[global] Instance KnownShips_countable : Countable KnownShips :=
  inj_countable' (fun m => (guessed m, hits m))
                 (fun t => mkKnown (fst t) (snd t)) (fun m => match m with mkKnown _ _ => eq_refl end).

#[global] Instance BoardState_countable : Countable BoardState :=
  inj_countable'
    (fun m => (turn m, winner m, position_hashes m, seed_hash_0 m, seed_1 m,
               known_ships m, positions m, current_shot m))
    (fun t => match t with
              | (a, b, c, d, e, f, g, h) => mkState a b c d e f g h
              end)
    (fun m => match m with mkState _ _ _ _ _ _ _ _ => eq_refl end).

#[global] Instance PositionCommitmentMove_eq_dec : EqDecision PositionCommitmentMove.
Proof. solve_decision. Defined.
#[global] Instance SeedRevealMove_eq_dec : EqDecision SeedRevealMove.
Proof. solve_decision. Defined.
#[global] Instance ShotMove_eq_dec : EqDecision ShotMove.
Proof. solve_decision. Defined.
#[global] Instance ReplyType_eq_dec : EqDecision ReplyType.
Proof. solve_decision. Defined.
#[global] Instance ReplyMove_eq_dec : EqDecision ReplyMove.
Proof. solve_decision. Defined.
#[global] Instance PositionRevealMove_eq_dec : EqDecision PositionRevealMove.
Proof. solve_decision. Defined.
#[global] Instance BoardMove_eq_dec : EqDecision BoardMove.
Proof. solve_decision. Defined.

#[global] Instance PositionCommitmentMove_countable : Countable PositionCommitmentMove :=
  inj_countable' (fun m => (position_hash m, seed_hash m, pc_seed m))
                 (fun t => match t with (a, b, c) => mkCommit a b c end)
                 (fun m => match m with mkCommit _ _ _ => eq_refl end).

#[global] Instance SeedRevealMove_countable : Countable SeedRevealMove :=
  inj_countable' sr_seed mkSeedReveal (fun m => match m with mkSeedReveal _ => eq_refl end).

#[global] Instance ShotMove_countable : Countable ShotMove :=
  inj_countable' location mkShot (fun m => match m with mkShot _ => eq_refl end).

#[global] Instance ReplyType_countable : Countable ReplyType :=
  inj_countable'
    (fun r => match r with HIT => 0%nat | MISS => 1%nat | REPLY_OTHER => 2%nat end)
    (fun n => match n with 0%nat => HIT | 1%nat => MISS | _ => REPLY_OTHER end)
    (fun r => match r with HIT | MISS | REPLY_OTHER => eq_refl end).

#[global] Instance ReplyMove_countable : Countable ReplyMove :=
  inj_countable' reply mkReply (fun m => match m with mkReply _ => eq_refl end).

#[global] Instance PositionRevealMove_countable : Countable PositionRevealMove :=
  inj_countable' (fun m => (pr_position m, salt m))
                 (fun t => mkReveal (fst t) (snd t))
                 (fun m => match m with mkReveal _ _ => eq_refl end).

#[global] Instance BoardMove_countable : Countable BoardMove :=
  inj_countable'
    (fun mv => match mv with
               | kPositionCommitment m => inl (inl (inl m))
               | kSeedReveal m => inl (inl (inr m))
               | kShot m => inl (inr (inl m))
               | kReply m => inl (inr (inr m))
               | kPositionReveal m => inr (Some m)
               | MOVE_NOT_SET => inr None
               end)
    (fun t => match t with
              | inl (inl (inl m)) => kPositionCommitment m
              | inl (inl (inr m)) => kSeedReveal m
              | inl (inr (inl m)) => kShot m
              | inl (inr (inr m)) => kReply m
              | inr (Some m) => kPositionReveal m
              | inr None => MOVE_NOT_SET
              end)
    (fun mv => match mv with
               | kPositionCommitment _ | kSeedReveal _ | kShot _ | kReply _
               | kPositionReveal _ | MOVE_NOT_SET => eq_refl
               end).

End Reference.

(** ** Notions used by the statements *)

(** The state [pb] in the channel of [s]. *)
Definition with_state (s : Ships.ShipsBoardState) (pb : Ships.BoardState) : Ships.ShipsBoardState :=
  Ships.mkBoard (Ships.channelId s) (Ships.GetMetadata s) pb.

(** A seed reveal on a state that carries a [current_shot]. *)
Definition stale_shot (s : Ships.ShipsBoardState) (mv : Ships.BoardMove) : bool :=
  match mv with
  | Ships.kSeedReveal _ => Ships.has (Ships.current_shot (Ships.GetState s))
  | _ => false
  end.

(** A position reveal whose position [TurnCount] takes for unrevealed: its
    value bound to the [int] of the loop is zero. *)
Definition uncounted_reveal (mv : Ships.BoardMove) : bool :=
  match mv with
  | Ships.kPositionReveal m => u32 (default 0 (Ships.pr_position m)) =? 0
  | _ => false
  end.

(** The turn count of [s] is below the one of [s'] in the channel of [s]. *)
Definition tc_grows (s : Ships.ShipsBoardState) (s' : Ships.BoardState) : Prop :=
  exists n n', Ships.TurnCount s = Ok n /\ Ships.TurnCount (with_state s s') = Ok n' /\ n < n'.

(** What [TurnCount] adds for the position [p]. *)
Definition nz (p : Z) : Z := if u32 p =? 0 then 0 else 1.

(** The serialised message [s] parses as an [M] that has unknown fields. *)
Definition contains_unknown_fields (M : Type) {codec : ProtoCodec M} (s : bytes) : Prop :=
  exists p : M, ParseFromString s = Some p /\ HasAnyUnknownFields p = true.

(** A message that the codec serialises and parses back: what the protobuf
    library promises for the messages it can serialise. *)
Definition roundtrips {M} {codec : ProtoCodec M} (m : M) : Prop :=
  exists b, SerializeToString m = Some b /\ ParseFromString b = Some m.

(** The statistics of a name; a name without a row has none. *)
Definition wins (s : gmap string (Z * Z)) (name : string) : Z :=
  fst (default (0, 0) (s !! name)).

Definition losses (s : gmap string (Z * Z)) (name : string) : Z :=
  snd (default (0, 0) (s !! name)).

Definition b2z (b : bool) : Z := if b then 1 else 0.

Section ExpiryNotions.

Import Database Arbiter.

Context {metadata_codec : ProtoCodec ChannelMetadata}.
Context {proof_codec : ProtoCodec StateProof}.
Context {board_codec : ProtoCodec Ships.BoardState}.

(** What a row holds of a channel under dispute, read off its columns with
    the codecs alone: the metadata, and the board state at the end of the
    stored proof (the reinitialisation state when the proof is NULL). *)
Definition disputed_state (row : Row) : option (ChannelMetadata * Ships.BoardState) :=
  meta ← ParseFromString (M := ChannelMetadata) (col_metadata row);
  proof ← match col_stateproof row with
          | None => Some (mkProof (mkSigned (col_reinit row) []) [])
          | Some blob => ParseFromString (M := StateProof) blob
          end;
  pb ← ParseFromString (M := Ships.BoardState)
         (match list.last (transitions proof) with
          | None => sd_data (initial_state proof)
          | Some t => sd_data (st_new_state t)
          end);
  Some (meta, pb).

(** The names of the winner and of the loser of a channel under dispute,
    as the specification names them: the participant at the index of the [turn] field
    of that state has the turn pending and loses, the other one wins. *)
Definition verdict (row : Row) : option (string * string) :=
  match disputed_state row with
  | Some (meta, pb) =>
      match participants meta, Ships.turn pb with
      | [p0; p1], Some 0 => Some (p_name p1, p_name p0)
      | [p0; p1], Some 1 => Some (p_name p0, p_name p1)
      | _, _ => None
      end
  | None => None
  end.

(** A dispute as it is filed: two participants and a pending turn in a
    state without unknown fields that [IsValid] accepts. *)
Definition pending_dispute (r : uint256 * Row) : bool :=
  match disputed_state (snd r), verdict (snd r) with
  | Some (meta, pb), Some _ =>
      negb (HasAnyUnknownFields pb) &&
      match Ships.IsValid (Ships.mkBoard (fst r) meta pb) with
      | Ok true => true
      | _ => false
      end
  | _, _ => false
  end.

(** The rows whose dispute has expired at the block [height]: the dispute
    height is set and at most [height - 10]. *)
Definition expired_at (height : Z) (r : uint256 * Row) : bool :=
  match col_disputeHeight (snd r) with
  | Some d => d <=? height - 10
  | None => false
  end.

(** Whether [name] is the winner, the loser, of the channel of a row. *)
Definition wins_row (name : string) (r : uint256 * Row) : bool :=
  match verdict (snd r) with
  | Some (w, _) => bool_decide (w = name)
  | None => false
  end.

Definition loses_row (name : string) (r : uint256 * Row) : bool :=
  match verdict (snd r) with
  | Some (_, l) => bool_decide (l = name)
  | None => false
  end.

(** The number of channels of the table with an expired dispute that
    [name] wins, and that it loses. *)
Definition won_in (name : string) (db : Table) (height : Z) : Z :=
  Z.of_nat (length (List.filter (fun r => expired_at height r && wins_row name r)
                                (map_to_list db))).

Definition lost_in (name : string) (db : Table) (height : Z) : Z :=
  Z.of_nat (length (List.filter (fun r => expired_at height r && loses_row name r)
                                (map_to_list db))).

End ExpiryNotions.

(** The id of the channel a create move opens: [mvid] if supplied, else
    the transaction id. *)
Definition channel_id (mv : Arbiter.BlockMove) : uint256 :=
  default (Arbiter.mv_txid mv) (Arbiter.mv_mvid mv).

Section MoveNotions.

Import Database Arbiter.

Context {proof_codec : ProtoCodec StateProof}.

(** Some operation key of the move carries a payload of its form. *)
Definition selects_operation (data : Json) : bool :=
  bool_decide (is_Some (ParseCreateChannelMove (member "c" data)))
  || bool_decide (is_Some (ParseJoinChannelMove (member "j" data)))
  || bool_decide (is_Some (ParseAbortChannelMove (member "a" data)))
  || bool_decide (is_Some (ParseDeclareLossMove (member "l" data)))
  || bool_decide (is_Some (ParseDisputeResolutionMove (member "d" data)))
  || bool_decide (is_Some (ParseDisputeResolutionMove (member "r" data))).

(** A move that is not an object, has more than one key, or has no
    operation key with a well-formed payload. *)
Definition invalid_move (mv : BlockMove) : bool :=
  negb (isObject (mv_move mv))
  || (1 <? json_size (mv_move mv))
  || negb (selects_operation (mv_move mv)).

(** A well-formed create move with the address [addr]. *)
Definition creates (mv : BlockMove) (addr : string) : Prop :=
  isObject (mv_move mv) = true /\
  json_size (mv_move mv) <= 1 /\
  ParseCreateChannelMove (member "c" (mv_move mv)) = Some addr.

(** The metadata with which a create move opens its channel. *)
Definition created_metadata (name addr : string) (i : uint256) : ChannelMetadata :=
  UpdateMetadataReinit i (mkMetadata [mkParticipant name addr] []).

End MoveNotions.

(** ** Sample inputs *)

Module Sample.

Import Ships.

(** Stand-ins for the parameters of the board rules: the fleet rules of the
    missing [grid.cpp] and the bit of [Random]. *)
Definition any_fleet (g : Z) : bool := true.
Definition no_fleet (g : Z) : bool := false.
Definition any_answers (g targeted hits : Z) : bool := true.
Definition ship_cells : Z := 17.
Definition low_bit (h : uint256) : bool :=
  match h with
  | b :: _ => Z.odd (byteZ b)
  | [] => false
  end.

(** The channel of the board tests. *)
Definition two_players : ChannelMetadata :=
  mkMetadata [mkParticipant "alice" "addr 0"; mkParticipant "bob" "addr 1"] [].

Definition one_player : ChannelMetadata :=
  mkMetadata [mkParticipant "alice" "addr 0"] [].

Definition test_channel : uint256 := SHA256.Hash (bytes_of_string "foo").

(** The state and the move of [PositionCommitmentTests.ValidFirstCommitment]. *)
Definition first_state : ShipsBoardState :=
  mkBoard test_channel two_players InitialBoardState.

Definition first_commitment : BoardMove :=
  kPositionCommitment
    (mkCommit (Some (bytes_of_string "xxxxxxxxxxxxxxxxxxxxxxxxxxxxxxxx"))
              (Some (bytes_of_string "yyyyyyyyyyyyyyyyyyyyyyyyyyyyyyyy"))
              None).

Definition second_state : BoardState :=
  mkState (Some 1) None [bytes_of_string "xxxxxxxxxxxxxxxxxxxxxxxxxxxxxxxx"]
          (Some (bytes_of_string "yyyyyyyyyyyyyyyyyyyyyyyyyyyyyyyy")) None [] [] None.

(** The state of the test [SeedRevealTests.Valid], for the empty seed, with
    a [current_shot] left in it, and the seed reveal of that test. *)
Definition stalled_state : ShipsBoardState :=
  mkBoard test_channel two_players
    (mkState (Some 0) None
       [bytes_of_string "first hash"; bytes_of_string "second hash"]
       (Some (SHA256.Hash [])) (Some (bytes_of_string "other seed"))
       [] [] (Some 42)).

Definition stalled_move : BoardMove := kSeedReveal (mkSeedReveal (Some [])).

(** A state in the shooting phase whose first player committed to the
    position with the single cell 32, and the reveal of that position. *)
Definition high_rows : Z := 2 ^ 32.

Definition shoot_state : ShipsBoardState :=
  mkBoard test_channel two_players
    (mkState (Some 0) None
       [SHA256.Hash (Grid_Blob (Grid high_rows)); bytes_of_string "second hash"]
       None None [mkKnown (Some 0) (Some 0); mkKnown (Some 0) (Some 0)] [] None).

Definition high_reveal : BoardMove := kPositionReveal (mkReveal (Some high_rows) None).

(** The state of the test [SinglePlayerStateTests.IsValid]. *)
Definition lonely_state : ShipsBoardState :=
  mkBoard test_channel one_player (mkState (Some 100) None [] None None [] [] None).

End Sample.

Section WireSamples.

Import Ships Sample Reference Database.

(** A game whose messages carry the payloads of their unknown fields next
    to the known ones: the ships rules on the known part. *)
Definition tagged_make (channelId : uint256) (meta : ChannelMetadata)
    (p : BoardState * list bytes) : ShipsBoardState :=
  mkBoard channelId meta (fst p).

Definition tagged_apply (this : ShipsBoardState) (pm : BoardMove * list bytes)
    (pn : BoardState * list bytes) : Chk (bool * (BoardState * list bytes)) :=
  r ← ApplyMoveProto any_fleet any_answers ship_cells low_bit this (fst pm) (fst pn);
  Ok (fst r, (snd r, [])).

(** The initial state and the first commitment, each with one unknown field. *)
Definition state_with_extra : bytes :=
  default [] (serialize (InitialBoardState, [bytes_of_string "extra"])).

Definition move_with_extra : bytes :=
  default [] (serialize (first_commitment, [bytes_of_string "another signature"])).

(** A proof with one transition on top of its initial state. *)
Definition played_proof : StateProof :=
  mkProof (mkSigned (bytes_of_string "reinit state") [])
          [mkTransition (bytes_of_string "move")
                        (mkSigned (bytes_of_string "new state") [bytes_of_string "sgn 1"])].

Definition played_blob : bytes := pos_bits (encode played_proof).

(** The row of a channel that has not left its reinitialisation state. *)
Definition fresh_row : Row :=
  mkRow (pos_bits (encode two_players)) (bytes_of_string "reinit state") None None.

Definition fresh_handle : ChannelData :=
  mkChannel test_channel true two_players (bytes_of_string "reinit state")
            (StateProofFromReinit (bytes_of_string "reinit state")) 0 false.

Definition reads : list Call :=
  [CallGetMetadata; CallGetReinitState; CallGetStateProof; CallGetLatestState].

(** A handle in dispute whose proof has moved on from the reinitialisation
    state. *)
Definition disputed_handle : ChannelData :=
  mkChannel test_channel true two_players (bytes_of_string "reinit state")
            played_proof 100 true.

End WireSamples.

(** ** The blocks of [logic_tests.cpp] *)

Section ArbiterSamples.

Import Ships Reference Database Arbiter.

(** A channel framework that accepts no dispute and no resolution. *)
Definition no_dispute : ChannelData -> Z -> StateProof -> Chk (bool * ChannelData) :=
  fun h _ _ => Ok (false, h).

Definition no_resolution : ChannelData -> StateProof -> Chk (bool * ChannelData) :=
  fun h _ => Ok (false, h).

Definition empty_game : GameState := mkGame ∅ ∅ ∅.

(** [DisputeResolutionTests.ExpiringDisputes]. *)
Definition dispute_channel : uint256 := SHA256.Hash (bytes_of_string "test channel").

Definition dispute_players : ChannelMetadata :=
  mkMetadata [mkParticipant "name 0" "addr 0"; mkParticipant "name 1" "addr 1"] [].

Definition turn_0 : BoardState := mkState (Some 0) None [] None None [] [] None.

Definition disputed_row : Row :=
  mkRow (pos_bits (encode dispute_players)) (pos_bits (encode turn_0)) None (Some 100).

Definition disputed_game : GameState :=
  mkGame {[ dispute_channel := disputed_row ]}
         {[ "name 0"%string := (0, 0); "name 1"%string := (0, 0) ]} ∅.

Definition closed_game : GameState :=
  mkGame ∅ {[ "name 0"%string := (0, 1); "name 1"%string := (1, 0) ]} ∅.

(** [CreateChannelTests.FailsForIdCollision]. *)
Definition create_data : Json := JObj [("c"%string, JObj [("addr"%string, JStr "address")])].

Definition foo_id : uint256 := SHA256.Hash (bytes_of_string "foo").

Definition move_foo : BlockMove := mkMove "foo" foo_id None create_data.
Definition move_bar : BlockMove := mkMove "bar" foo_id None create_data.

(** The state after [move_foo] in the block at height 10. *)
Definition after_foo : GameState :=
  mkGame {[ foo_id := mkRow (pos_bits (encode (created_metadata "foo" "address" foo_id)))
                            [] None None ]}
         ∅ {[ foo_id := 10 ]}.

(** [StateUpdateTests.InvalidMoveContinuesProcessing]. *)
Definition move_not_object : BlockMove := mkMove "foo" foo_id None (JStr "foo").

Definition bar_id : uint256 := SHA256.Hash (bytes_of_string "bar").

Definition create_bar : BlockMove :=
  mkMove "bar" bar_id None
         (JObj [("c"%string, JObj [("addr"%string, JStr "my address")])]).

Definition after_bar : GameState :=
  mkGame {[ bar_id := mkRow (pos_bits (encode (created_metadata "bar" "my address" bar_id)))
                            [] None None ]}
         ∅ {[ bar_id := 10 ]}.

End ArbiterSamples.

(** ** Play on the ships board

    Notions for the statements about [src/ships/board.cpp] as a whole: what
    [IsValid] asks, what play keeps true, and the moves of a game applied in
    a row. *)

Section PlayNotions.

Import Ships.

(** What [IsValid] asks of a state with two participants, phase by phase. *)
Definition valid_shape (pb : BoardState) : Prop :=
  match GetPhaseOf pb with
  | INVALID => False
  | FINISHED => turn pb = None
  | FIRST_COMMITMENT | FIRST_REVEAL_SEED => turn pb = Some 0
  | SECOND_COMMITMENT => turn pb = Some 1
  | SHOOT | ANSWER => turn pb = Some 0 \/ turn pb = Some 1
  | SECOND_REVEAL_POSITION =>
      (turn pb = Some 0 /\ exists q, positions pb = [0; q] /\ q <> 0) \/
      (turn pb = Some 1 /\ exists p, positions pb = [p; 0] /\ p <> 0)
  end.

(** The test [(known.hits () & ~known.guessed ()) != 0] of
    [ApplyPositionReveal] finds nothing: every hit is on a guessed cell. *)
Definition hits_guessed (k : KnownShips) : bool :=
  Z.land (get_hits k) (u64 (Z.lnot (get_guessed k))) =? 0.

(** What play keeps true of a state beyond [IsValid]: before the shooting
    starts there are no known ships, no revealed positions and no shot; from
    then on every hit is on a guessed cell; and a shot that waits for its
    answer is on the board, on a cell of the answering player that is
    guessed and not yet hit. *)
Definition tidy (pb : BoardState) : bool :=
  match GetPhaseOf pb with
  | INVALID => false
  | FIRST_COMMITMENT | SECOND_COMMITMENT | FIRST_REVEAL_SEED =>
      bool_decide (known_ships pb = []) && bool_decide (positions pb = [])
      && negb (has (current_shot pb))
  | ANSWER =>
      forallb hits_guessed (known_ships pb) &&
      match known_ships pb !! Z.to_nat (get_turn pb), current_shot pb with
      | Some k, Some c =>
          IsOnBoard c && Grid_Get (Grid (get_guessed k)) c
          && negb (Grid_Get (Grid (get_hits k)) c)
      | _, _ => false
      end
  | SHOOT | SECOND_REVEAL_POSITION | FINISHED => forallb hits_guessed (known_ships pb)
  end.

(** The phases in which [ApplyMoveProto] looks at a move of each kind. *)
Definition fits_phase (mv : BoardMove) (phase : Phase) : bool :=
  match mv, phase with
  | kPositionCommitment _, (FIRST_COMMITMENT | SECOND_COMMITMENT) => true
  | kSeedReveal _, FIRST_REVEAL_SEED => true
  | kShot _, SHOOT => true
  | kReply _, ANSWER => true
  | kPositionReveal _, (SHOOT | ANSWER | SECOND_REVEAL_POSITION) => true
  | _, _ => false
  end.

(** The phase after an accepted move, in play. *)
Definition next_phase (mv : BoardMove) (phase phase' : Phase) : bool :=
  match mv, phase, phase' with
  | kPositionCommitment _, FIRST_COMMITMENT, SECOND_COMMITMENT => true
  | kPositionCommitment _, SECOND_COMMITMENT, FIRST_REVEAL_SEED => true
  | kSeedReveal _, FIRST_REVEAL_SEED, SHOOT => true
  | kShot _, SHOOT, ANSWER => true
  | kReply _, ANSWER, SHOOT => true
  | kPositionReveal _, (SHOOT | ANSWER), (SECOND_REVEAL_POSITION | FINISHED) => true
  | kPositionReveal _, SECOND_REVEAL_POSITION, FINISHED => true
  | _, _, _ => false
  end.

Variable VerifyPositionOfShips : Z -> bool.
Variable VerifyPositionForAnswers : Z -> Z -> Z -> bool.
Variable TotalShipCells : Z.
Variable RandomBit : uint256 -> bool.

(** The moves of a game applied one after the other, each to the state the
    one before gave and, as [ProtoBoardState::ApplyMove] does, with a
    default-constructed [newState]; [None] when one of them is rejected. *)
Fixpoint play (s : ShipsBoardState) (moves : list BoardMove) : Chk (option ShipsBoardState) :=
  match moves with
  | [] => Ok (Some s)
  | mv :: rest =>
      match ApplyMoveProto VerifyPositionOfShips VerifyPositionForAnswers TotalShipCells
                           RandomBit s mv empty_board with
      | Ok (true, pb) => play (with_state s pb) rest
      | Ok (false, _) => Ok None
      | Fatal => Fatal
      end
  end.

End PlayNotions.

(** ** [xutil/random.tpp] *)

Section RandomShuffle.

Context {A Rnd : Type}.

(** [Random::NextInt (n)]: the number drawn and the generator afterwards. *)
Variable NextInt : Z -> Rnd -> Z * Rnd.

(** [std::swap] on what the iterators [i] and [j] point to; an iterator
    outside the range is undefined behaviour in the C++ and counts as an
    abort here. *)
Definition swap (l : list A) (i j : Z) : Chk (list A) :=
  x ← at_index l i;
  y ← at_index l j;
  l ← set_index l i y;
  set_index l j x.

(** The loop of [Random::Shuffle] from the iterator [i], for the [todo]
    rounds that are left before [i + 1 == end]. *)
Fixpoint shuffle_from (todo : nat) (i : Z) (l : list A) (rnd : Rnd)
    : Chk (list A * Rnd) :=
  match todo with
  | O => Ok (l, rnd)
  | S todo' =>
      let (k, rnd) := NextInt (Z.of_nat (length l) - i) rnd in
      let j := i + k in
      l ← (if negb (i =? j) then swap l i j else Ok l);
      shuffle_from todo' (i + 1) l rnd
  end.

(** [Random::Shuffle (begin, end)] on the elements [l] of the range. *)
Definition Shuffle (l : list A) (rnd : Rnd) : Chk (list A * Rnd) :=
  match l with
  | [] => Ok (l, rnd)
  | _ :: _ => shuffle_from (length l - 1) 0 l rnd
  end.

End RandomShuffle.

(** ** A game played to its end, and further sample inputs *)

Section PlaySamples.

Import Ships Sample Reference Database.

(** Fleet rules that reject the empty grid only. *)
Definition some_fleet (g : Z) : bool := negb (g =? 0).

(** Both players commit to the cells 10 and 11, with the same salt. *)
Definition fleet : Z := 3072.
Definition fleet_salt : bytes := bytes_of_string "salt".
Definition fleet_hash : bytes := SHA256.Hash (Grid_Blob (Grid fleet) ++ fleet_salt).
Definition first_seed : bytes := bytes_of_string "seed 0".
Definition second_seed : bytes := bytes_of_string "seed 1".

Definition fleet_reveal : PositionRevealMove := mkReveal (Some fleet) (Some fleet_salt).

(** Two commitments, the seed, a shot at cell 10 that hits, and the two
    reveals. *)
Definition game : list BoardMove :=
  [ kPositionCommitment (mkCommit (Some fleet_hash) (Some (SHA256.Hash first_seed)) None);
    kPositionCommitment (mkCommit (Some fleet_hash) None (Some second_seed));
    kSeedReveal (mkSeedReveal (Some first_seed));
    kShot (mkShot (Some 10));
    kReply (mkReply (Some HIT));
    kPositionReveal fleet_reveal;
    kPositionReveal fleet_reveal ].

(** The state of [game] after the seed reveal, after the shot, after the
    reply, after the first reveal, and at the end. *)
Definition opened_state : ShipsBoardState :=
  mkBoard test_channel two_players
    (mkState (Some 0) None [fleet_hash; fleet_hash] None None
             [mkKnown (Some 0) (Some 0); mkKnown (Some 0) (Some 0)] [] None).

Definition answer_state : ShipsBoardState :=
  mkBoard test_channel two_players
    (mkState (Some 1) None [fleet_hash; fleet_hash] None None
             [mkKnown (Some 0) (Some 0); mkKnown (Some 1024) (Some 0)] [] (Some 10)).

Definition hit_state : ShipsBoardState :=
  mkBoard test_channel two_players
    (mkState (Some 0) None [fleet_hash; fleet_hash] None None
             [mkKnown (Some 0) (Some 0); mkKnown (Some 1024) (Some 1024)] [] None).

Definition reveal_state : ShipsBoardState :=
  mkBoard test_channel two_players
    (mkState (Some 1) None [[]; fleet_hash] None None
             [mkKnown (Some 0) (Some 0); mkKnown (Some 1024) (Some 1024)] [fleet; 0] None).

Definition end_state : BoardState :=
  mkState None (Some 1) [[]; []] None None
          [mkKnown (Some 0) (Some 0); mkKnown (Some 1024) (Some 1024)] [fleet; fleet] None.

(** A handle whose proof is a signed copy of the reinitialisation state. *)
Definition signed_handle : ChannelData :=
  mkChannel test_channel true two_players (bytes_of_string "reinit state")
            (mkProof (mkSigned (bytes_of_string "reinit state") [bytes_of_string "sgn 0"]) [])
            0 true.

(** The table that [disputed_handle] leaves behind. *)
Definition stored_table : Table :=
  {[ test_channel := mkRow (pos_bits (encode two_players)) (bytes_of_string "reinit state")
                           (Some played_blob) (Some 100) ]}.

(** The metadata of the same channel after a reinitialisation. *)
Definition rejoined_players : ChannelMetadata :=
  mkMetadata [mkParticipant "alice" "addr 0"; mkParticipant "bob" "addr 1"]
             (bytes_of_string "reinit 2").

(** A generator that counts up: the number drawn is the count modulo [n]. *)
Definition counting (n : Z) (r : Z) : Z * Z := (r mod n, r + 1).

End PlaySamples.

(** * Properties *)

(** Closed equations between evaluated terms, checked by the virtual
    machine. *)
Ltac by_evaluation :=
  lazymatch goal with |- ?a = ?b => exact (@eq_refl _ b <: a = b) end.

(** ** The hash on its test vectors *)

Example sha256_empty :
  ToHex (SHA256.Hash []) =
  "e3b0c44298fc1c149afbf4c8996fb92427ae41e4649b934ca495991b7852b855"%string.
Proof. vm_compute. reflexivity. Qed.

Example sha256_abc :
  ToHex (SHA256.Hash (bytes_of_string "abc")) =
  "ba7816bf8f01cfea414140de5dae2223b00361a396177a9cb410ff61f20015ad"%string.
Proof. vm_compute. reflexivity. Qed.

(** ** The reference codec parses what it serialises *)

Section ReferenceFacts.

Import Reference.

Lemma bits_pos_bits p : bits_pos (pos_bits p) = Some p.
Proof. induction p as [p IH|p IH|]; cbn; [rewrite IH..|]; done. Qed.

Lemma parse_serialize `{Countable M} (m : M) b :
  serialize m = Some b -> parse b = Some m.
Proof.
  unfold serialize, parse. intros [= <-]. rewrite bits_pos_bits. cbn. apply decode_encode.
Qed.

End ReferenceFacts.

(** ** The abort monad *)

Lemma bind_Ok {A B} (m : Chk A) (f : A -> Chk B) b :
  (m ≫= f) = Ok b -> exists a, m = Ok a /\ f a = Ok b.
Proof. destruct m; [eauto|done]. Qed.

Lemma CHECK_Ok b u : CHECK b = Ok u -> b = true.
Proof. by destruct b. Qed.

Lemma u32_small x : 0 <= x < 2 ^ 32 -> u32 x = x.
Proof. intros. unfold u32. apply Z.mod_small. lia. Qed.

(** ** Base64 round trip *)

Lemma byteZ_range b : 0 <= byteZ b < 256.
Proof. unfold byteZ. pose proof (Byte.to_N_bounded b). lia. Qed.

Lemma Zbyte_byteZ b : Zbyte (byteZ b) = b.
Proof.
  unfold Zbyte. rewrite Z.mod_small by apply byteZ_range.
  unfold byteZ. rewrite N2Z.id, Byte.of_to_N. done.
Qed.

Lemma dec6_enc6 k : 0 <= k < 64 -> dec6 (enc6 k) = Some k /\ enc6 k <> pad_char.
Proof.
  intros Hk.
  assert (Hall : forallb (fun k => bool_decide (dec6 (enc6 k) = Some k /\ enc6 k <> pad_char))
                   (map Z.of_nat (seq 0 64)) = true) by (vm_compute; reflexivity).
  rewrite forallb_forall in Hall.
  specialize (Hall k). rewrite bool_decide_eq_true in Hall. apply Hall.
  apply in_map_iff. exists (Z.to_nat k). split; [lia|]. apply in_seq. lia.
Qed.

Lemma list_ind3 {A} (P : list A -> Prop) :
  P [] -> (forall a, P [a]) -> (forall a b, P [a; b]) ->
  (forall a b c l, P l -> P (a :: b :: c :: l)) ->
  forall l, P l.
Proof.
  intros H0 H1 H2 H3.
  fix IH 1. intros [|a [|b [|c l]]].
  - exact H0.
  - apply H1.
  - apply H2.
  - apply H3, IH.
Qed.

Lemma quad_enc a b c :
  let n := byteZ a * 65536 + byteZ b * 256 + byteZ c in
  quad (enc6 (n / 262144)) (enc6 (n / 4096 mod 64)) (enc6 (n / 64 mod 64)) (enc6 (n mod 64))
  = Some n.
Proof.
  intros n. pose proof (byteZ_range a). pose proof (byteZ_range b). pose proof (byteZ_range c).
  assert (0 <= n < 16777216) by (unfold n; lia).
  unfold quad.
  destruct (dec6_enc6 (n / 262144)) as [-> _]; [split; [apply Z.div_pos; lia|apply Z.div_lt_upper_bound; lia]|].
  destruct (dec6_enc6 (n / 4096 mod 64)) as [-> _]; [apply Z.mod_pos_bound; lia|].
  destruct (dec6_enc6 (n / 64 mod 64)) as [-> _]; [apply Z.mod_pos_bound; lia|].
  destruct (dec6_enc6 (n mod 64)) as [-> _]; [apply Z.mod_pos_bound; lia|].
  cbn. f_equal. clearbody n. Z.div_mod_to_equations. lia.
Qed.

Lemma encode_nil data : encode_groups data = [] -> data = [].
Proof. destruct data as [|a [|b [|c l]]]; cbn; congruence. Qed.

Lemma bytes_of_triple a b c :
  let n := byteZ a * 65536 + byteZ b * 256 + byteZ c in
  Zbyte (n / 65536) = a /\ Zbyte (n / 256 mod 256) = b /\ Zbyte (n mod 256) = c.
Proof.
  intros n. pose proof (byteZ_range a). pose proof (byteZ_range b). pose proof (byteZ_range c).
  replace (n / 65536) with (byteZ a) by (unfold n; Z.div_mod_to_equations; lia).
  replace (n / 256 mod 256) with (byteZ b) by (unfold n; Z.div_mod_to_equations; lia).
  replace (n mod 256) with (byteZ c) by (unfold n; Z.div_mod_to_equations; lia).
  by rewrite !Zbyte_byteZ.
Qed.

Lemma decode_encode_groups data : decode_groups (encode_groups data) = Some data.
Proof.
  induction data as [|a|a b|a b c l IH] using list_ind3.
  - done.
  - cbn [encode_groups decode_groups]. rewrite !bool_decide_eq_true_2 by done.
    pose proof (byteZ_range a).
    destruct (dec6_enc6 (byteZ a * 65536 / 262144)) as [-> _];
      [split; [apply Z.div_pos; lia|apply Z.div_lt_upper_bound; lia]|].
    destruct (dec6_enc6 (byteZ a * 65536 / 4096 mod 64)) as [-> _]; [apply Z.mod_pos_bound; lia|].
    cbn [mbind option_bind].
    replace ((byteZ a * 65536 / 262144 * 64 + byteZ a * 65536 / 4096 mod 64) / 16)
      with (byteZ a) by (Z.div_mod_to_equations; lia).
    by rewrite Zbyte_byteZ.
  - cbn [encode_groups decode_groups]. rewrite bool_decide_eq_true_2 by done.
    pose proof (byteZ_range a). pose proof (byteZ_range b).
    set (n := byteZ a * 65536 + byteZ b * 256).
    assert (0 <= n < 16777216) by (unfold n; lia).
    destruct (dec6_enc6 (n / 64 mod 64)) as [E3 N3]; [apply Z.mod_pos_bound; lia|].
    rewrite bool_decide_eq_false_2 by done.
    destruct (dec6_enc6 (n / 262144)) as [-> _];
      [split; [apply Z.div_pos; lia|apply Z.div_lt_upper_bound; lia]|].
    destruct (dec6_enc6 (n / 4096 mod 64)) as [-> _]; [apply Z.mod_pos_bound; lia|].
    rewrite E3. cbn [mbind option_bind].
    set (m := (n / 262144 * 64 + n / 4096 mod 64) * 64 + n / 64 mod 64).
    replace (m / 1024) with (byteZ a) by (unfold m, n; Z.div_mod_to_equations; lia).
    replace (m / 4 mod 256) with (byteZ b) by (unfold m, n; Z.div_mod_to_equations; lia).
    by rewrite !Zbyte_byteZ.
  - cbn [encode_groups]. set (n := byteZ a * 65536 + byteZ b * 256 + byteZ c).
    pose proof (quad_enc a b c) as Hq. cbn zeta in Hq. fold n in Hq.
    destruct (bytes_of_triple a b c) as (Ha & Hb & Hc). fold n in Ha, Hb, Hc.
    pose proof (byteZ_range a). pose proof (byteZ_range b). pose proof (byteZ_range c).
    destruct (dec6_enc6 (n mod 64)) as [_ N4]; [apply Z.mod_pos_bound; lia|].
    cbn [decode_groups]. destruct (encode_groups l) eqn:El.
    + apply encode_nil in El. subst l.
      rewrite bool_decide_eq_false_2 by done. rewrite Hq. cbn. by rewrite Ha, Hb, Hc.
    + rewrite Hq. cbn [mbind option_bind]. rewrite IH. cbn. by rewrite Ha, Hb, Hc.
Qed.

Lemma DecodeBase64_EncodeBase64 data : DecodeBase64 (EncodeBase64 data) = Some data.
Proof.
  unfold DecodeBase64, EncodeBase64. rewrite list_byte_of_string_of_list_byte.
  apply decode_encode_groups.
Qed.

(** ** The ships board *)

Section ShipsFacts.

Import Ships.

Lemma count_bits_bounds n x : 0 <= count_bits n x <= Z.of_nat n.
Proof. induction n as [|n IH]; cbn [count_bits]; [lia|]. destruct (Z.testbit x (Z.of_nat n)); lia. Qed.

Lemma CountOnes_bounds g : 0 <= CountOnes g <= 64.
Proof. unfold CountOnes. pose proof (count_bits_bounds 64 g). lia. Qed.

Lemma testbit_set x c i : 0 <= c -> 0 <= i ->
  Z.testbit (Z.lor x (Z.shiftl 1 c)) i = Z.testbit x i || (i =? c).
Proof.
  intros Hc Hi. rewrite Z.lor_spec, Z.shiftl_spec by lia.
  f_equal. destruct (Z.eqb_spec i c) as [->|Hne].
  - rewrite Z.sub_diag. reflexivity.
  - destruct (Z.lt_ge_cases i c).
    + apply Z.testbit_neg_r. lia.
    + apply Z.bits_above_log2; [lia|]. change (Z.log2 1) with 0. lia.
Qed.

Lemma count_bits_set n x c : 0 <= c -> Z.testbit x c = false ->
  count_bits n (Z.lor x (Z.shiftl 1 c)) =
  count_bits n x + (if c <? Z.of_nat n then 1 else 0).
Proof.
  intros Hc Hx. induction n as [|n IH].
  - cbn [count_bits]. destruct (Z.ltb_spec c (Z.of_nat 0)); lia.
  - cbn [count_bits]. rewrite IH, testbit_set by lia.
    destruct (Z.eqb_spec (Z.of_nat n) c) as [<-|Hne].
    + rewrite Hx. cbn [orb].
      destruct (Z.ltb_spec (Z.of_nat n) (Z.of_nat n)), (Z.ltb_spec (Z.of_nat n) (Z.of_nat (S n))); lia.
    + rewrite orb_false_r.
      destruct (Z.ltb_spec c (Z.of_nat n)), (Z.ltb_spec c (Z.of_nat (S n))); lia.
Qed.

Lemma count_bits_u64 n x : (n <= 64)%nat -> count_bits n (u64 x) = count_bits n x.
Proof.
  intros Hn. induction n as [|n IH]; cbn [count_bits]; [done|].
  rewrite IH by lia. unfold u64 at 1.
  rewrite Z.mod_pow2_bits_low by lia. done.
Qed.

Lemma CountOnes_Grid g : CountOnes (Grid g) = CountOnes g.
Proof. apply count_bits_u64. lia. Qed.

Lemma CountOnes_Set g c :
  IsOnBoard c = true -> Grid_Get g c = false ->
  CountOnes (Grid_Set g c) = CountOnes g + 1.
Proof.
  unfold IsOnBoard, CELLS, Grid_Get, CountOnes, Grid_Set. intros Hc Hg.
  apply andb_true_iff in Hc as [H0%Z.leb_le H1%Z.ltb_lt].
  rewrite (count_bits_set 64 g c H0 Hg).
  destruct (Z.ltb_spec c (Z.of_nat 64)); lia.
Qed.

Lemma size_is_0 {A} (l : list A) : (Z.of_nat (length l) =? 0) = true -> l = [].
Proof. destruct l; cbn; [done|]. intros H%Z.eqb_eq. lia. Qed.

Lemma size_is_1 {A} (l : list A) : (Z.of_nat (length l) =? 1) = true -> exists a, l = [a].
Proof. destruct l as [|a [|b l]]; cbn [length]; intros H%Z.eqb_eq; try lia. eauto. Qed.

Lemma size_is_2 {A} (l : list A) : (Z.of_nat (length l) =? 2) = true -> exists a b, l = [a; b].
Proof. destruct l as [|a [|b [|c l]]]; cbn [length]; intros H%Z.eqb_eq; try lia. eauto. Qed.

Lemma has_true {A} (o : option A) : has o = true -> exists a, o = Some a.
Proof. destruct o; [eauto|done]. Qed.

Lemma has_false {A} (o : option A) : has o = false -> o = None.
Proof. destruct o; [done|done]. Qed.

(** What each phase says about the fields of the state. *)
Lemma phase_inv pb :
  match GetPhaseOf pb with
  | FINISHED => exists w, winner pb = Some w
  | FIRST_COMMITMENT => winner pb = None /\ position_hashes pb = []
  | SECOND_COMMITMENT => winner pb = None /\ exists a, position_hashes pb = [a]
  | FIRST_REVEAL_SEED =>
      winner pb = None /\ (exists a b, position_hashes pb = [a; b]) /\ known_ships pb = []
  | SHOOT =>
      winner pb = None /\ (exists a b, position_hashes pb = [a; b]) /\
      (exists k0 k1, known_ships pb = [k0; k1]) /\ positions pb = [] /\
      current_shot pb = None
  | ANSWER =>
      winner pb = None /\ (exists a b, position_hashes pb = [a; b]) /\
      (exists k0 k1, known_ships pb = [k0; k1]) /\ positions pb = [] /\
      exists c, current_shot pb = Some c
  | SECOND_REVEAL_POSITION =>
      winner pb = None /\ (exists a b, position_hashes pb = [a; b]) /\
      (exists k0 k1, known_ships pb = [k0; k1]) /\ exists p q, positions pb = [p; q]
  | INVALID => True
  end.
Proof.
  unfold GetPhaseOf, position_hashes_size, known_ships_size, positions_size.
  destruct (has (winner pb)) eqn:Hw; [by apply has_true|apply has_false in Hw].
  destruct (_ =? 0) eqn:H0; [by apply size_is_0 in H0|clear H0].
  destruct (_ =? 1) eqn:H1; [by apply size_is_1 in H1|clear H1].
  destruct (_ =? 2) eqn:H2; cbn [negb]; [apply size_is_2 in H2|done].
  destruct (_ =? 0) eqn:K0; [by apply size_is_0 in K0|clear K0].
  destruct (_ =? 2) eqn:K2; cbn [negb]; [apply size_is_2 in K2|done].
  destruct (_ =? 2) eqn:P2; [by apply size_is_2 in P2|clear P2].
  destruct (_ =? 0) eqn:P0; cbn [negb]; [apply size_is_0 in P0|done].
  destruct (has (current_shot pb)) eqn:Hc; [apply has_true in Hc|apply has_false in Hc]; done.
Qed.

(** A valid two-player state that is not finished has a turn of 0 or 1. *)
Lemma valid_turn s :
  participants_size (GetMetadata s) = 2 -> IsValid s = Ok true ->
  GetPhase s <> INVALID /\
  (GetPhase s <> FINISHED -> exists t, turn (GetState s) = Some t /\ (t = 0 \/ t = 1)).
Proof.
  intros Hn Hv. unfold IsValid in Hv. rewrite Hn in Hv. cbn in Hv.
  case_bool_decide as Hi; [done|]. split; [done|]. intros Hf.
  destruct (turn (GetState s)) as [t|] eqn:Ht; cbn in Hv.
  - case_bool_decide; [done|]. cbn in Hv. exists t. split; [done|].
    unfold get_turn in Hv. rewrite Ht in Hv. cbn in Hv.
    destruct (Z.ltb_spec t 0), (Z.ltb_spec 1 t); cbn in Hv; try done. lia.
  - case_bool_decide; [done|]. cbn in Hv. done.
Qed.

End ShipsFacts.

(** ** Turn counts *)

Section TurnCounts.

Import Ships.

Ltac chk_step H :=
  let u := fresh "u" in let Hc := fresh "Hc" in
  apply bind_Ok in H as (u & Hc & H).

#[local] Arguments u32 : simpl never.
#[local] Arguments u64 : simpl never.
#[local] Arguments CountOnes : simpl never.
#[local] Arguments Grid : simpl never.
#[local] Arguments Grid_Set : simpl never.
#[local] Arguments Grid_Get : simpl never.
#[local] Arguments IsOnBoard : simpl never.
#[local] Arguments CheckHashValue : simpl never.
#[local] Arguments SHA256.Hash : simpl never.
#[local] Arguments Grid_Blob : simpl never.
#[local] Arguments str_size : simpl never.
#[local] Arguments Z.land : simpl never.
#[local] Arguments Z.lnot : simpl never.

Variable VPoS : Z -> bool.
Variable VPfA : Z -> Z -> Z -> bool.
Variable T : Z.
Variable RB : uint256 -> bool.

Ltac use_phase H :=
  repeat match type of H with
  | _ /\ _ => let H1 := fresh "Hp" in destruct H as [H1 H]; try use_phase H1
  | exists _, _ => let x := fresh "x" in destruct H as [x H]
  end.

Ltac split_ifs H :=
  repeat match type of H with
  | context [if ?b then _ else _] => destruct b eqn:?; try discriminate H
  | context [match ?o with Some _ => _ | None => _ end] => destruct o eqn:?; try discriminate H
  | context [CHECK ?b] => destruct b eqn:?; simpl in H; try discriminate H
  end.

Ltac norm_state :=
  cbv beta iota delta
    [set_turn set_winner set_position_hashes set_seed_hash_0 set_seed_1
     set_known_ships set_positions set_current_shot
     turn winner position_hashes seed_hash_0 seed_1 known_ships positions
     current_shot get_turn] in *.

Ltac tc_done := eexists _, _; split; [reflexivity|]; split; [reflexivity|]; try lia.

Lemma count_shots2 k0 k1 :
  count_shots [k0; k1] = CountOnes (get_guessed k0) + CountOnes (get_guessed k1).
Proof.
  unfold count_shots. cbn [fold_left]. rewrite !CountOnes_Grid.
  pose proof (CountOnes_bounds (get_guessed k0)).
  pose proof (CountOnes_bounds (get_guessed k1)).
  rewrite !u32_small by (rewrite ?u32_small; lia). lia.
Qed.

Lemma count_positions2 p q c :
  0 <= c < 2 ^ 31 -> count_positions [p; q] c = c + nz p + nz q.
Proof.
  intros Hc. unfold count_positions, nz. cbn [fold_left].
  destruct (u32 p =? 0), (u32 q =? 0); rewrite ?u32_small by (rewrite ?u32_small; lia); lia.
Qed.

Ltac u32s :=
  repeat match goal with
  | |- context [u32 ?x] => rewrite (u32_small x) by lia
  end.

Ltac tc_arith :=
  rewrite ?count_shots2;
  repeat match goal with
  | |- context [CountOnes ?g] =>
      lazymatch goal with
      | _ : 0 <= CountOnes g <= 64 |- _ => fail
      | _ => pose proof (CountOnes_bounds g)
      end
  end;
  repeat match goal with
  | |- context [if has ?c then _ else _] => destruct (has c) eqn:?
  end;
  u32s;
  rewrite ?count_positions2 by lia;
  unfold nz;
  repeat match goal with
  | |- context [if ?b then _ else _] => destruct b eqn:?
  end;
  repeat match goal with
  | H : (_ =? _) = true |- _ => apply Z.eqb_eq in H
  end;
  u32s;
  try lia.

Lemma tc_commit s m s' :
  participants_size (GetMetadata s) = 2 ->
  GetPhaseOf s' <> INVALID ->
  ApplyPositionCommitment m (GetPhase s) (GetState s) = Ok (true, s') ->
  tc_grows s s'.
Proof.
  intros Hn Hv' Ha. unfold tc_grows, TurnCount, GetPhase in *.
  cbn [with_state GetState GetMetadata]. rewrite Hn. change (2 =? 1) with false. cbv iota.
  pose proof (phase_inv (GetState s)) as Hp. pose proof (phase_inv s') as Hp'.
  destruct s as [id meta [t w ph sh0 sd1 ks ps cs]]. cbn [GetState GetMetadata] in *.
  unfold ApplyPositionCommitment in Ha.
  destruct (GetPhaseOf (mkState _ _ _ _ _ _ _ _)) eqn:Hph; use_phase Hp; simpl in * |-; subst; split_ifs Ha;
  simpl in Ha; simplify_eq; norm_state; simpl in *;
  destruct (GetPhaseOf (mkState _ _ _ _ _ _ _ _)) eqn:Hph'; try done; use_phase Hp'; simpl in * |-; simplify_eq;
  tc_done.
  all: tc_arith.
Qed.

Ltac tc_start Hn Hp Hp' :=
  unfold tc_grows, TurnCount, GetPhase in *;
  cbn [with_state GetState GetMetadata]; rewrite Hn; change (2 =? 1) with false; cbv iota;
  match goal with s : ShipsBoardState, s' : BoardState |- _ =>
    pose proof (phase_inv (GetState s)) as Hp; pose proof (phase_inv s') as Hp';
    destruct s as [?id ?meta [?t ?w ?ph ?sh0 ?sd1 ?ks ?ps ?cs]]
  end; cbn [GetState GetMetadata] in *.

Lemma tc_seed s m s' :
  participants_size (GetMetadata s) = 2 ->
  GetPhaseOf s' <> INVALID ->
  current_shot (GetState s) = None ->
  ApplySeedReveal RB m (GetPhase s) (GetState s) = Ok (true, s') ->
  tc_grows s s'.
Proof.
  intros Hn Hv' Hcs Ha. tc_start Hn Hp Hp'.
  unfold ApplySeedReveal in Ha.
  destruct (GetPhaseOf (mkState _ _ _ _ _ _ _ _)) eqn:Hph; use_phase Hp; simpl in * |-; subst; split_ifs Ha;
  simpl in Ha; simplify_eq; norm_state; simpl in *;
  destruct (GetPhaseOf (mkState _ _ _ _ _ _ _ _)) eqn:Hph'; try done; use_phase Hp'; simpl in * |-; simplify_eq;
  tc_done.
  all: tc_arith.
Qed.

Lemma tc_shot s m s' t :
  participants_size (GetMetadata s) = 2 ->
  turn (GetState s) = Some t -> t = 0 \/ t = 1 ->
  ApplyShot m (GetPhase s) (GetState s) = Ok (true, s') ->
  tc_grows s s'.
Proof.
  intros Hn Ht Ht01 Ha. tc_start Hn Hp Hp'.
  unfold ApplyShot in Ha.
  destruct (GetPhaseOf (mkState _ _ _ _ _ _ _ _)) eqn:Hph; use_phase Hp; simpl in * |-; subst; try done.
  destruct Ht01; subst; norm_state; simpl in Ha; split_ifs Ha; simpl in Ha; simplify_eq; norm_state; simpl in *;
  destruct (GetPhaseOf (mkState _ _ _ _ _ _ _ _)) eqn:Hph'; try done; use_phase Hp'; simpl in * |-; simplify_eq;
  tc_done.
  all: rewrite !count_shots2; unfold get_guessed; simpl.
  all: match goal with H : negb (IsOnBoard _) = false |- _ => apply negb_false_iff in H end.
  all: erewrite CountOnes_Set by eassumption; rewrite CountOnes_Grid.
  all: tc_arith.
Qed.

Lemma tc_reply s m s' t :
  participants_size (GetMetadata s) = 2 ->
  turn (GetState s) = Some t -> t = 0 \/ t = 1 ->
  ApplyReply m (GetPhase s) (GetState s) = Ok (true, s') ->
  tc_grows s s'.
Proof.
  intros Hn Ht Ht01 Ha. tc_start Hn Hp Hp'.
  unfold ApplyReply in Ha.
  destruct (GetPhaseOf (mkState _ _ _ _ _ _ _ _)) eqn:Hph; use_phase Hp; simpl in * |-; subst; try done.
  destruct Ht01; subst; norm_state; simpl in Ha; split_ifs Ha; simpl in Ha;
  repeat match type of Ha with context [match ?r with HIT => _ | _ => _ end] => destruct r end;
  simpl in Ha; split_ifs Ha; simpl in Ha; simplify_eq; norm_state; simpl in *;
  destruct (GetPhaseOf (mkState _ _ _ _ _ _ _ _)) eqn:Hph'; try done; use_phase Hp'; simpl in * |-; simplify_eq;
  tc_done.
  all: rewrite !count_shots2; unfold get_guessed; simpl.
  all: tc_arith.
Qed.

Ltac norm_state_in H :=
  cbv beta iota delta
    [set_turn set_winner set_position_hashes set_seed_hash_0 set_seed_1
     set_known_ships set_positions set_current_shot
     turn winner position_hashes seed_hash_0 seed_1 known_ships positions
     current_shot get_turn] in H.

Lemma nz_u32 p : u32 p <> 0 -> nz p = 1.
Proof. unfold nz. intros H. destruct (Z.eqb_spec (u32 p) 0); [done|done]. Qed.

Lemma tc_reveal s m s' t :
  participants_size (GetMetadata s) = 2 ->
  turn (GetState s) = Some t -> t = 0 \/ t = 1 ->
  u32 (default 0 (pr_position m)) <> 0 ->
  ApplyPositionReveal VPoS VPfA T m (GetPhase s) (GetState s) = Ok (true, s') ->
  tc_grows s s'.
Proof.
  intros Hn Ht Ht01 Hpos Ha. tc_start Hn Hp Hp'.
  unfold ApplyPositionReveal in Ha.
  destruct (GetPhaseOf (mkState _ _ _ _ _ _ _ _)) eqn:Hph; use_phase Hp; simpl in * |-; subst; try done.
  all: destruct Ht01; subst; norm_state_in Ha; simpl in Ha; split_ifs Ha; simpl in Ha; split_ifs Ha;
    simpl in Ha; simplify_eq.
  all: norm_state; simpl in *.
  all: destruct (GetPhaseOf (mkState _ _ _ _ _ _ _ _)) eqn:Hph'; try done; use_phase Hp'; simpl in * |-; simplify_eq.
  all: tc_done.
  all: rewrite ?count_shots2.
  all: tc_arith.
Qed.

(** Apart from two cases, an accepted move between valid states of two
    participants makes the turn count grow: a seed reveal on a state that
    carries a [current_shot], which play never reaches, and a position
    reveal of a position that the loop of [TurnCount] does not count. *)
Lemma turn_count_increases (s : ShipsBoardState) (mv : BoardMove)
    (out s' : BoardState) :
  participants_size (GetMetadata s) = 2 ->
  IsValid s = Ok true ->
  ApplyMoveProto VPoS VPfA T RB s mv out = Ok (true, s') ->
  IsValid (with_state s s') = Ok true ->
  stale_shot s mv = false ->
  uncounted_reveal mv = false ->
  exists n n', TurnCount s = Ok n /\ TurnCount (with_state s s') = Ok n' /\ n < n'.
Proof.
  intros Hn Hv Ha Hv' Hst Hun.
  destruct (valid_turn s Hn Hv) as [Hinv Hturn].
  destruct (valid_turn (with_state s s') Hn Hv') as [Hinv' _].
  unfold ApplyMoveProto in Ha.
  apply bind_Ok in Ha as (t & Hwt & Ha). apply bind_Ok in Ha as ([] & Hc & Ha).
  apply CHECK_Ok, negb_true_iff, Z.eqb_neq in Hc.
  assert (exists t0, turn (GetState s) = Some t0 /\ (t0 = 0 \/ t0 = 1)) as (t0 & Ht0 & Ht01).
  { unfold WhoseTurn in Hwt. rewrite Hn in Hwt. change (2 =? 1) with false in Hwt. cbv iota in Hwt.
    destruct (turn (GetState s)) as [t0|] eqn:Ht0; cbn in Hwt; [|by simplify_eq].
    exists t0. split; [done|]. unfold get_turn in Hwt. rewrite Ht0 in Hwt. cbn in Hwt.
    destruct (Z.leb_spec 0 t0); cbn in Hwt; [|done].
    destruct (Z.leb_spec t0 1); cbn in Hwt; [|done]. lia. }
  destruct mv as [m|m|m|m|m|]; [..|done].
  - by eapply tc_commit.
  - eapply tc_seed; [done|done| |done]. cbn in Hst. by apply has_false in Hst.
  - by eapply tc_shot.
  - by eapply tc_reply.
  - eapply tc_reveal; [done|done|done| |done]. cbn in Hun. by apply Z.eqb_neq in Hun.
Qed.

End TurnCounts.

(** ** Turn counts on the states of the board tests *)

Section TurnCountExamples.

Import Ships Sample.

(** [turn_count_increases] on the first position commitment of the board
    tests. *)
Lemma turn_count_increases_witness :
  participants_size (GetMetadata first_state) = 2 /\
  IsValid first_state = Ok true /\
  ApplyMoveProto any_fleet any_answers ship_cells low_bit first_state first_commitment
                 InitialBoardState = Ok (true, second_state) /\
  IsValid (with_state first_state second_state) = Ok true /\
  stale_shot first_state first_commitment = false /\
  uncounted_reveal first_commitment = false /\
  exists n n', TurnCount first_state = Ok n /\
               TurnCount (with_state first_state second_state) = Ok n' /\ n < n'.
Proof.
  assert (H1 : participants_size (GetMetadata first_state) = 2) by reflexivity.
  assert (H2 : IsValid first_state = Ok true) by (vm_compute; reflexivity).
  assert (H3 : ApplyMoveProto any_fleet any_answers ship_cells low_bit first_state
                 first_commitment InitialBoardState = Ok (true, second_state))
    by (vm_compute; reflexivity).
  assert (H4 : IsValid (with_state first_state second_state) = Ok true)
    by (vm_compute; reflexivity).
  assert (H5 : stale_shot first_state first_commitment = false) by reflexivity.
  assert (H6 : uncounted_reveal first_commitment = false) by reflexivity.
  repeat (split; [assumption|]).
  exact (turn_count_increases any_fleet any_answers ship_cells low_bit
           first_state first_commitment InitialBoardState second_state
           H1 H2 H3 H4 H5 H6).
Defined.

(** [stalled_state] is a valid two-participant state that play does not
    reach (phase: first reveal of the seed, with a [current_shot]; turn
    count 3).  [ApplyMoveProto] accepts the seed reveal on it, whatever the
    fleet rules and the random bit are; the resulting state is valid, in
    the answer phase, and its turn count is 3 again. *)
Lemma turn_count_stalls :
  participants_size (GetMetadata stalled_state) = 2 /\
  IsValid stalled_state = Ok true /\
  TurnCount stalled_state = Ok 3 /\
  forall VerifyPositionOfShips VerifyPositionForAnswers TotalShipCells RandomBit out,
  exists s',
    ApplyMoveProto VerifyPositionOfShips VerifyPositionForAnswers TotalShipCells
                   RandomBit stalled_state stalled_move out = Ok (true, s') /\
    IsValid (with_state stalled_state s') = Ok true /\
    GetPhaseOf s' = ANSWER /\
    TurnCount (with_state stalled_state s') = Ok 3.
Proof.
  split; [reflexivity|]. split; [vm_compute; reflexivity|]. split; [vm_compute; reflexivity|].
  intros VPoS VPfA T RB out.
  exists (mkState (Some (if RB (SHA256.Hash (bytes_of_string "other seed")) then 1 else 0))
                  None [bytes_of_string "first hash"; bytes_of_string "second hash"]
                  None None [mkKnown (Some 0) (Some 0); mkKnown (Some 0) (Some 0)]
                  [] (Some 42)).
  split; [vm_compute; reflexivity|].
  repeat split; destruct (RB _); vm_compute; reflexivity.
Qed.

(** C3.  The claim fails on the code.  The loop of [TurnCount] over the
    revealed positions binds each 64-bit position to an [int], so a
    revealed position whose low 32 bits are zero is not counted.  In
    [shoot_state], a valid state of two participants in the shooting phase
    with turn count 4, the player to move reveals the position [2 ^ 32],
    the single cell 32, to which the state commits.  Whatever the two
    checks of the fleet rules answer and whatever the number of ship cells
    is, the move is accepted, the resulting state is valid and holds the
    position, and its turn count is 4 again. *)
Theorem turn_count_misses_reveal (fleet_ok answers_ok : bool) TotalShipCells RandomBit out :
  participants_size (GetMetadata shoot_state) = 2 /\
  IsValid shoot_state = Ok true /\
  TurnCount shoot_state = Ok 4 /\
  exists s',
    ApplyMoveProto (fun _ => fleet_ok) (fun _ _ _ => answers_ok) TotalShipCells
                   RandomBit shoot_state high_reveal out = Ok (true, s') /\
    IsValid (with_state shoot_state s') = Ok true /\
    positions s' = [high_rows; 0] /\
    TurnCount (with_state shoot_state s') = Ok 4.
Proof.
  split; [reflexivity|]. split; [by_evaluation|]. split; [by_evaluation|].
  destruct fleet_ok, answers_ok, TotalShipCells.
  all: eexists; split; [vm_compute; reflexivity|].
  all: repeat split; vm_compute; reflexivity.
Qed.

End TurnCountExamples.

(** ** Single-participant states *)

Section SingleParticipant.

Import Ships Sample.

(** C4.  Every ships board state of a channel with exactly one participant
    is valid, whatever it holds, and has no player to move. *)
Theorem single_participant_valid (s : ShipsBoardState) :
  participants_size (GetMetadata s) = 1 ->
  IsValid s = Ok true /\ WhoseTurn s = Ok NO_TURN.
Proof.
  intros Hn. unfold IsValid, WhoseTurn. rewrite Hn. done.
Qed.

(** C4, witness: the state [turn: 100] of the board tests. *)
Lemma single_participant_valid_witness :
  participants_size (GetMetadata lonely_state) = 1 /\
  IsValid lonely_state = Ok true /\ WhoseTurn lonely_state = Ok NO_TURN.
Proof.
  split; [reflexivity|].
  apply (single_participant_valid lonely_state). reflexivity.
Defined.

End SingleParticipant.

(** ** Unknown fields *)

Section UnknownFields.

Context {State Move : Type}.
Context {state_codec : ProtoCodec State} {move_codec : ProtoCodec Move}.
Context {StateClass : Type}.
Variable make : uint256 -> ChannelMetadata -> State -> StateClass.
Variable IsValid : StateClass -> Chk bool.
Variable ApplyMoveProto : StateClass -> Move -> State -> Chk (bool * State).
Variable empty_state : State.

(** C5.  A serialised board state with unknown fields does not parse
    ([ParseState] returns null), and a serialised move with unknown fields
    is not applied ([ApplyMove] returns false and leaves [newState]
    alone), for every game built on [ProtoBoardRules]. *)
Theorem unknown_fields_rejected (channelId : uint256) (meta : ChannelMetadata)
    (this : StateClass) (s mv newState : bytes) :
  contains_unknown_fields State s ->
  contains_unknown_fields Move mv ->
  ProtoBoard.ParseState make IsValid channelId meta s = Ok None /\
  ProtoBoard.ApplyMove ApplyMoveProto empty_state this mv newState = Ok (false, newState).
Proof.
  intros (p & Hp & Hu) (pm & Hpm & Hum). split.
  - unfold ProtoBoard.ParseState. by rewrite Hp, Hu.
  - unfold ProtoBoard.ApplyMove. by rewrite Hpm, Hum.
Qed.

End UnknownFields.

Section UnknownFieldsExample.

Import Ships Sample Reference.

(** C5, witness. *)
Lemma unknown_fields_rejected_witness :
  contains_unknown_fields (codec := tagged BoardState)
    (BoardState * list bytes) state_with_extra /\
  contains_unknown_fields (codec := tagged BoardMove)
    (BoardMove * list bytes) move_with_extra /\
  ProtoBoard.ParseState (state_codec := tagged BoardState) tagged_make IsValid
    test_channel two_players state_with_extra = Ok None /\
  ProtoBoard.ApplyMove (state_codec := tagged BoardState) (move_codec := tagged BoardMove)
    tagged_apply (empty_board, []) first_state move_with_extra [] = Ok (false, []).
Proof.
  assert (H1 : contains_unknown_fields (codec := tagged BoardState)
                 (BoardState * list bytes) state_with_extra).
  { exists (InitialBoardState, [bytes_of_string "extra"]).
    split; [apply parse_serialize|]; reflexivity. }
  assert (H2 : contains_unknown_fields (codec := tagged BoardMove)
                 (BoardMove * list bytes) move_with_extra).
  { exists (first_commitment, [bytes_of_string "another signature"]).
    split; [apply parse_serialize|]; reflexivity. }
  split; [exact H1|]. split; [exact H2|].
  exact (unknown_fields_rejected (state_codec := tagged BoardState)
           (move_codec := tagged BoardMove)
           tagged_make IsValid tagged_apply (empty_board, [])
           test_channel two_players first_state state_with_extra move_with_extra []
           H1 H2).
Defined.

End UnknownFieldsExample.

(** ** State proofs in base64 *)

Section Base64RoundTrip.

Context {proof_codec : ProtoCodec StateProof}.

(** C8.  Encoding a [StateProof] to base64 with [ProtoToBase64] and decoding
    it back with [ProtoFromBase64] succeeds and yields the message again,
    for every message that the wire codec itself round-trips. *)
Theorem stateproof_base64_roundtrip (p : StateProof) :
  roundtrips p ->
  exists str, ProtoToBase64 p = Ok str /\ ProtoFromBase64 str = Some p.
Proof.
  intros (b & Hs & Hp). exists (EncodeBase64 b). unfold ProtoToBase64, ProtoFromBase64.
  rewrite Hs. split; [done|]. by rewrite DecodeBase64_EncodeBase64.
Qed.

End Base64RoundTrip.

(** ** Channel rows *)

Section ChannelRows.

Import Database.

Context {metadata_codec : ProtoCodec ChannelMetadata}.
Context {proof_codec : ProtoCodec StateProof}.

Lemma readonly_call_preserves c h h' :
  mutating c = false -> call c h = Ok h' -> h' = h.
Proof.
  destruct c; try done; cbn; intros _ Hc; apply bind_Ok in Hc as (? & _ & Hc);
    by simplify_eq.
Qed.

Lemma readonly_calls_preserve cs h h' :
  forallb (fun c => negb (mutating c)) cs = true -> calls cs h = Ok h' -> h' = h.
Proof.
  revert h. induction cs as [|c cs IH]; intros h Hro Hc; cbn in *.
  - by simplify_eq.
  - apply andb_true_iff in Hro as [Hc1%negb_true_iff Hro].
    apply bind_Ok in Hc as (h1 & Hcall & Hc).
    apply readonly_call_preserves in Hcall; [|done]. subst h1. by apply IH.
Qed.

Lemma from_row_clean i row h :
  ChannelDataFromRow i row = Ok h ->
  initialised h = true /\ dirty h = false /\ id h = i.
Proof.
  unfold ChannelDataFromRow. destruct (ParseFromString (col_metadata row)); [|done].
  intros Hb. apply bind_Ok in Hb as (p & _ & Hb). by simplify_eq.
Qed.

(** C10.  A handle constructed from a row, on which only reading methods
    are called, writes nothing when it is destroyed: the destructor returns
    and the table is the one before. *)
Theorem read_only_handle_writes_nothing (db : Table) (i : uint256) (row : Row)
    (cs : list Call) (h h' : ChannelData) :
  ChannelDataFromRow i row = Ok h ->
  forallb (fun c => negb (mutating c)) cs = true ->
  calls cs h = Ok h' ->
  DestroyChannelData db h' = Ok db.
Proof.
  intros Hrow Hro Hcs. apply readonly_calls_preserve in Hcs; [|done]. subst h'.
  apply from_row_clean in Hrow as (Hi & Hd & _).
  unfold DestroyChannelData. by rewrite Hi, Hd.
Qed.

(** C9.  Destroying a modified, initialised handle writes its row; the
    [stateproof] column of the row is NULL exactly when the final state of
    the proof is the reinitialisation state; a row with NULL [stateproof]
    loads with the proof that consists of the reinitialisation state; and
    loading the written row gives back the metadata, the reinitialisation
    state, the latest state and the dispute height. *)
Theorem store_then_load (db : Table) (c : ChannelData) :
  initialised c = true ->
  dirty c = true ->
  0 <= disputeHeight c < 2 ^ 32 ->
  roundtrips (metadata c) ->
  roundtrips (proof c) ->
  exists db' row c',
    DestroyChannelData db c = Ok db' /\
    db' !! id c = Some row /\
    (col_stateproof row = None <-> UnverifiedProofEndState (proof c) = reinit_state c) /\
    (forall i r h, col_stateproof r = None -> ChannelDataFromRow i r = Ok h ->
                   proof h = mkProof (mkSigned (col_reinit r) []) []) /\
    GetById db' (id c) = Ok (Some c') /\
    metadata c' = metadata c /\
    reinit_state c' = reinit_state c /\
    GetLatestState c' = GetLatestState c /\
    disputeHeight c' = disputeHeight c.
Proof.
  intros Hi Hd Hh (mb & Hms & Hmp) (pb & Hps & Hpp).
  assert (Hload : forall i r h, col_stateproof r = None -> ChannelDataFromRow i r = Ok h ->
                   proof h = mkProof (mkSigned (col_reinit r) []) []).
  { intros i r h Hn Hr. unfold ChannelDataFromRow in Hr. rewrite Hn in Hr.
    destruct (ParseFromString (col_metadata r)); [|done]. simpl in Hr. by simplify_eq. }
  assert (Hdh : (match (if disputeHeight c =? 0 then None else Some (disputeHeight c)) with
                 | Some h => u32 h | None => 0 end) = disputeHeight c).
  { destruct (Z.eqb_spec (disputeHeight c) 0) as [->|]; [done|]. by apply u32_small. }
  unfold DestroyChannelData, GetById, GetLatestState, BindBlobProto.
  rewrite Hi, Hd, Hms. cbn [CHECK negb mbind Chk_bind].
  case_bool_decide as Hlatest; cbn [mbind Chk_bind].
  - eexists _, _, _. split; [reflexivity|]. rewrite lookup_insert_eq.
    split; [reflexivity|]. cbn [col_stateproof]. split; [done|]. split; [exact Hload|].
    unfold ChannelDataFromRow. cbn [col_metadata col_stateproof col_reinit col_disputeHeight].
    rewrite Hmp. cbn [mbind Chk_bind]. split; [reflexivity|]. cbn.
    repeat split; try done. by rewrite Hlatest.
  - rewrite Hps. cbn [mbind Chk_bind].
    eexists _, _, _. split; [reflexivity|]. rewrite lookup_insert_eq.
    split; [reflexivity|]. cbn [col_stateproof]. split; [done|]. split; [exact Hload|].
    unfold ChannelDataFromRow. cbn [col_metadata col_stateproof col_reinit col_disputeHeight].
    rewrite Hmp, Hpp. cbn [mbind Chk_bind]. split; [reflexivity|]. cbn.
    repeat split; done.
Qed.

End ChannelRows.

(** ** Examples for the state proofs and the channel rows *)

Section RowExamples.

Import Ships Sample Reference Database.

(** C8, witness: a proof with a transition, through the plain codec. *)
Lemma stateproof_base64_roundtrip_witness :
  roundtrips (codec := plain StateProof) played_proof /\
  exists str,
    ProtoToBase64 (proto_codec := plain StateProof) played_proof = Ok str /\
    ProtoFromBase64 (proto_codec := plain StateProof) str = Some played_proof.
Proof.
  assert (H : roundtrips (codec := plain StateProof) played_proof).
  { exists played_blob. split; [reflexivity|]. by_evaluation. }
  split; [exact H|].
  exact (stateproof_base64_roundtrip (proof_codec := plain StateProof) played_proof H).
Defined.

(** C10, witness: a handle of [fresh_row] on which every getter that the
    row allows is called. *)
Lemma read_only_handle_writes_nothing_witness :
  ChannelDataFromRow (metadata_codec := plain ChannelMetadata)
    (proof_codec := plain StateProof) test_channel fresh_row = Ok fresh_handle /\
  forallb (fun c => negb (mutating c)) reads = true /\
  calls reads fresh_handle = Ok fresh_handle /\
  DestroyChannelData (metadata_codec := plain ChannelMetadata)
    (proof_codec := plain StateProof) {[ test_channel := fresh_row ]} fresh_handle
    = Ok {[ test_channel := fresh_row ]}.
Proof.
  assert (H1 : ChannelDataFromRow (metadata_codec := plain ChannelMetadata)
                 (proof_codec := plain StateProof) test_channel fresh_row = Ok fresh_handle).
  { by_evaluation. }
  assert (H2 : forallb (fun c => negb (mutating c)) reads = true) by reflexivity.
  assert (H3 : calls reads fresh_handle = Ok fresh_handle) by reflexivity.
  split; [exact H1|]. split; [exact H2|]. split; [exact H3|].
  exact (read_only_handle_writes_nothing (metadata_codec := plain ChannelMetadata)
           (proof_codec := plain StateProof) {[ test_channel := fresh_row ]}
           test_channel fresh_row reads fresh_handle fresh_handle H1 H2 H3).
Defined.

(** C9, witness: [disputed_handle] written into the empty table. *)
Lemma store_then_load_witness :
  initialised disputed_handle = true /\
  dirty disputed_handle = true /\
  0 <= disputeHeight disputed_handle < 2 ^ 32 /\
  roundtrips (codec := plain ChannelMetadata) (metadata disputed_handle) /\
  roundtrips (codec := plain StateProof) (proof disputed_handle) /\
  exists db' row c',
    DestroyChannelData (metadata_codec := plain ChannelMetadata)
      (proof_codec := plain StateProof) ∅ disputed_handle = Ok db' /\
    db' !! id disputed_handle = Some row /\
    (col_stateproof row = None <->
     UnverifiedProofEndState (proof disputed_handle) = reinit_state disputed_handle) /\
    (forall i r h, col_stateproof r = None ->
       ChannelDataFromRow (metadata_codec := plain ChannelMetadata)
         (proof_codec := plain StateProof) i r = Ok h ->
       proof h = mkProof (mkSigned (col_reinit r) []) []) /\
    GetById (metadata_codec := plain ChannelMetadata)
      (proof_codec := plain StateProof) db' (id disputed_handle) = Ok (Some c') /\
    metadata c' = metadata disputed_handle /\
    reinit_state c' = reinit_state disputed_handle /\
    GetLatestState c' = GetLatestState disputed_handle /\
    disputeHeight c' = disputeHeight disputed_handle.
Proof.
  assert (H1 : initialised disputed_handle = true) by reflexivity.
  assert (H2 : dirty disputed_handle = true) by reflexivity.
  assert (H3 : 0 <= disputeHeight disputed_handle < 2 ^ 32) by (cbn; lia).
  assert (H4 : roundtrips (codec := plain ChannelMetadata) (metadata disputed_handle)).
  { exists (pos_bits (encode two_players)). split; [reflexivity|]. by_evaluation. }
  assert (H5 : roundtrips (codec := plain StateProof) (proof disputed_handle)).
  { exists played_blob. split; [reflexivity|]. by_evaluation. }
  split; [exact H1|]. split; [exact H2|]. split; [exact H3|].
  split; [exact H4|]. split; [exact H5|].
  exact (store_then_load (metadata_codec := plain ChannelMetadata)
           (proof_codec := plain StateProof) ∅ disputed_handle H1 H2 H3 H4 H5).
Defined.

End RowExamples.

(** ** The queries over the channels table *)

Section Queries.

Import Database.

Lemma QueryAll_spec (db : Table) i row :
  In (i, row) (QueryAll db) <-> db !! i = Some row.
Proof.
  unfold QueryAll. rewrite <- list_elem_of_In, merge_sort_Permutation.
  apply elem_of_map_to_list.
Qed.

Lemma QueryForDisputeHeight_spec (db : Table) height i row :
  In (i, row) (QueryForDisputeHeight db height) <->
  db !! i = Some row /\ exists d, col_disputeHeight row = Some d /\ d <= height.
Proof.
  unfold QueryForDisputeHeight. rewrite filter_In, QueryAll_spec. cbn.
  split.
  - intros [Hl Hd]. split; [done|]. destruct (col_disputeHeight row) as [d|]; [|done].
    exists d. split; [done|]. lia.
  - intros [Hl (d & -> & Hd)]. split; [done|]. lia.
Qed.

Lemma classic_in (i : uint256) (l : list uint256) : In i l \/ ~ In i l.
Proof. destruct (in_dec (list_eq_dec byte_eq_dec) i l); auto. Qed.

Lemma lookup_fold_delete {A} (rows : list (uint256 * A)) (t : Table) i :
  (In i (map fst rows) -> fold_left (fun t r => delete (fst r) t) rows t !! i = None) /\
  (~ In i (map fst rows) -> fold_left (fun t r => delete (fst r) t) rows t !! i = t !! i).
Proof.
  revert t. induction rows as [|r rows IH]; intros t; cbn.
  - split; [done|done].
  - destruct (IH (delete (fst r) t)) as [IHin IHout]. split.
    + intros [Heq|Hin].
      * destruct (classic_in i (map fst rows)) as [Hin|Hout]; [by apply IHin|].
        rewrite IHout by done. subst i. apply lookup_delete_eq.
      * by apply IHin.
    + intros Hout. rewrite IHout by tauto. apply lookup_delete_ne. tauto.
Qed.

End Queries.

(** ** Expired disputes *)

Lemma wins_add_won n s m :
  wins (Arbiter.add_won n s) m = wins s m + b2z (bool_decide (n = m)).
Proof.
  unfold wins, Arbiter.add_won. cbn. case_bool_decide as E; cbn.
  - subst. rewrite lookup_insert_eq. cbn. lia.
  - rewrite lookup_insert_ne by done. lia.
Qed.

Lemma wins_add_lost n s m : wins (Arbiter.add_lost n s) m = wins s m.
Proof.
  unfold wins, Arbiter.add_lost. cbn. destruct (decide (n = m)) as [->|E].
  - by rewrite lookup_insert_eq.
  - by rewrite lookup_insert_ne.
Qed.

Lemma losses_add_lost n s m :
  losses (Arbiter.add_lost n s) m = losses s m + b2z (bool_decide (n = m)).
Proof.
  unfold losses, Arbiter.add_lost. cbn. case_bool_decide as E; cbn.
  - subst. rewrite lookup_insert_eq. cbn. lia.
  - rewrite lookup_insert_ne by done. lia.
Qed.

Lemma losses_add_won n s m : losses (Arbiter.add_won n s) m = losses s m.
Proof.
  unfold losses, Arbiter.add_won. cbn. destruct (decide (n = m)) as [->|E].
  - by rewrite lookup_insert_eq.
  - by rewrite lookup_insert_ne.
Qed.

Section Expiry.

Import Database Arbiter.

Context {metadata_codec : ProtoCodec ChannelMetadata}.
Context {proof_codec : ProtoCodec StateProof}.
Context {board_codec : ProtoCodec Ships.BoardState}.

Lemma ExpireDispute_ok st r w l :
  pending_dispute r = true ->
  verdict (snd r) = Some (w, l) ->
  ExpireDispute st r
    = Ok (mkGame (delete (fst r) (channels st))
                 (add_lost l (add_won w (stats st))) (created st)).
Proof.
  destruct r as [i row]. unfold pending_dispute, verdict, disputed_state. cbn [fst snd].
  unfold ExpireDispute, PendingLoser, ChannelDataFromRow, StateProofFromReinit. cbn [fst snd].
  destruct (ParseFromString (col_metadata row)) as [meta|]; [|done]. cbn [mbind option_bind].
  assert (Hproof :
    match col_stateproof row with
    | None => Ok (mkProof (mkSigned (col_reinit row) []) [])
    | Some blob => match ParseFromString (M := StateProof) blob with
                   | None => Fatal | Some p => Ok p end
    end
    = match (match col_stateproof row with
             | None => Some (mkProof (mkSigned (col_reinit row) []) [])
             | Some blob => ParseFromString (M := StateProof) blob
             end) with Some p => Ok p | None => Fatal end).
  { destruct (col_stateproof row); [|done]. by destruct (ParseFromString _). }
  rewrite Hproof. clear Hproof.
  destruct (match col_stateproof row with
            | None => Some _ | Some blob => ParseFromString blob end) as [pr|]; [|done].
  cbn [mbind option_bind Chk_bind].
  unfold GetMetadata, GetLatestState, UnverifiedProofEndState.
  cbn [initialised metadata proof CHECK mbind Chk_bind].
  destruct (ParseFromString (M := Ships.BoardState) _) as [pb|] eqn:Hpb; [|done].
  cbn [mbind option_bind].
  destruct (participants meta) as [|p0 [|p1 [|]]] eqn:Hps; try done.
  assert (Hsz : participants_size meta = 2) by (unfold participants_size; rewrite Hps; done).
  intros Hpend Hver.
  destruct (Ships.turn pb) as [[|[]|]|] eqn:Ht; try done; simplify_eq.
  all: apply andb_true_iff in Hpend as [Hunk Hval]; apply negb_true_iff in Hunk.
  all: destruct (Ships.IsValid _) as [[]|] eqn:Hv; try done.
  all: rewrite Hsz; cbn [Z.eqb Pos.eqb CHECK mbind Chk_bind].
  all: unfold ParseState, ProtoBoard.ParseState; rewrite Hpb, Hunk, Hv.
  all: cbn [mbind Chk_bind negb].
  all: unfold Ships.WhoseTurn; cbn [Ships.GetMetadata Ships.GetState]; rewrite Hsz.
  all: change (2 =? 1) with false; cbv iota.
  all: unfold UpdateStats, Ships.get_turn; rewrite Ht.
  all: cbn; rewrite Hsz; cbn; rewrite Hps; reflexivity.

Qed.

Lemma ExpireDisputes_ok rows : forall st,
  forallb pending_dispute rows = true ->
  exists st', ExpireDisputes st rows = Ok st' /\
    channels st' = fold_left (fun t r => delete (fst r) t) rows (channels st) /\
    created st' = created st /\
    forall name,
      wins (stats st') name
      = wins (stats st) name + Z.of_nat (length (List.filter (wins_row name) rows)) /\
      losses (stats st') name
      = losses (stats st) name + Z.of_nat (length (List.filter (loses_row name) rows)).
Proof.
  induction rows as [|r rows IH]; intros st Hv.
  - exists st. cbn. repeat split; lia.
  - cbn in Hv. apply andb_true_iff in Hv as [Hr Hv].
    assert (exists w l, verdict (snd r) = Some (w, l)) as (w & l & Hver).
    { unfold pending_dispute in Hr. destruct (disputed_state (snd r)) as [[]|]; [|done].
      destruct (verdict (snd r)) as [[w l]|]; [eauto|done]. }
    cbn [ExpireDisputes]. rewrite (ExpireDispute_ok st r w l Hr Hver). cbn [mbind Chk_bind].
    destruct (IH (mkGame (delete (fst r) (channels st))
                         (add_lost l (add_won w (stats st))) (created st)) Hv)
      as (st' & Hrun & Hch & Hcr & Hst).
    exists st'. split; [done|]. split; [done|]. split; [done|].
    intros name. destruct (Hst name) as [Hw Hl]. cbn [stats] in Hw, Hl.
    rewrite wins_add_lost, wins_add_won in Hw.
    rewrite losses_add_lost, losses_add_won in Hl.
    cbn [List.filter]. unfold wins_row at 1, loses_row at 1. rewrite Hver.
    unfold b2z in *. do 2 case_bool_decide; cbn [length]; lia.
Qed.

Lemma filter_length_perm {A} (f : A -> bool) (l1 l2 : list A) :
  l1 ≡ₚ l2 -> length (List.filter f l1) = length (List.filter f l2).
Proof.
  induction 1 as [|x l1 l2 _ IH|x y l|l1 l2 l3 _ IH1 _ IH2]; cbn.
  - done.
  - destruct (f x); cbn; congruence.
  - destruct (f x), (f y); reflexivity.
  - congruence.
Qed.

Lemma filter_twice {A} (f g : A -> bool) (l : list A) :
  List.filter g (List.filter f l) = List.filter (fun x => f x && g x) l.
Proof.
  induction l as [|x l IH]; cbn; [done|].
  destruct (f x); cbn; [|done]. destruct (g x); by rewrite IH.
Qed.

(** Counting over the rows of the scan is counting over the table. *)
Lemma expired_count (f : uint256 * Row -> bool) (db : Table) height :
  length (List.filter f (QueryForDisputeHeight db (height - DISPUTE_BLOCKS)))
  = length (List.filter (fun r => expired_at height r && f r) (map_to_list db)).
Proof.
  unfold QueryForDisputeHeight, QueryAll. rewrite filter_twice.
  apply filter_length_perm, merge_sort_Permutation.
Qed.

(** C2.  At the end of the block at [height], provided every channel whose
    dispute expired is a dispute as it is filed (two participants, a valid
    latest state with a pending turn): the scan ends; every channel with a
    dispute height of at most [height - 10] is gone from the table; a
    channel with a later dispute height, or without a dispute, is as
    before; and each name has one more loss per expired channel in which
    its turn was pending, by the [turn] field of the stored state, and one
    more win per expired channel in which the turn of the other participant
    was pending. *)
Theorem expired_disputes_close (st : GameState) (height : Z) :
  (forall i row, channels st !! i = Some row -> expired_at height (i, row) = true ->
                 pending_dispute (i, row) = true) ->
  exists st', ProcessExpiredDisputes st height = Ok st' /\
    (forall i row d, channels st !! i = Some row -> col_disputeHeight row = Some d ->
                     d <= height - 10 -> channels st' !! i = None) /\
    (forall i, (forall row d, channels st !! i = Some row ->
                  col_disputeHeight row = Some d -> height - 10 < d) ->
               channels st' !! i = channels st !! i) /\
    (forall name,
       wins (stats st') name = wins (stats st) name + won_in name (channels st) height /\
       losses (stats st') name = losses (stats st) name + lost_in name (channels st) height).
Proof.
  intros Hpend.
  set (expired := QueryForDisputeHeight (channels st) (height - DISPUTE_BLOCKS)).
  assert (Hv : forallb pending_dispute expired = true).
  { apply forallb_forall. intros [i row] Hin.
    apply QueryForDisputeHeight_spec in Hin as (Hrow & d & Hd & Hle).
    apply Hpend; [done|]. unfold expired_at. cbn [snd]. rewrite Hd.
    unfold DISPUTE_BLOCKS in Hle. lia. }
  destruct (ExpireDisputes_ok expired st Hv) as (st' & Hrun & Hch & _ & Hst).
  exists st'. split; [exact Hrun|]. split; [|split].
  - intros i row d Hrow Hd Hle. rewrite Hch.
    apply lookup_fold_delete. apply in_map_iff. exists (i, row). split; [done|].
    apply QueryForDisputeHeight_spec. split; [done|]. exists d. done.
  - intros i Hlater. rewrite Hch. apply lookup_fold_delete.
    intros Hin. apply in_map_iff in Hin as ([i' row] & Hfst & Hin). cbn in Hfst. subst i'.
    apply QueryForDisputeHeight_spec in Hin as (Hrow & d & Hd & Hle).
    specialize (Hlater row d Hrow Hd). unfold DISPUTE_BLOCKS in Hle. lia.
  - intros name. destruct (Hst name) as [Hw Hl]. unfold won_in, lost_in.
    rewrite <- !expired_count. done.
Qed.

End Expiry.

(** ** The moves of a block *)

Lemma not_Some_None {A} (o : option A) : bool_decide (is_Some o) = false -> o = None.
Proof. destruct o; [|done]. intros H. apply bool_decide_eq_false in H. destruct H. eauto. Qed.

Lemma member_single (k k' : string) (j : Json) :
  json_size j <= 1 -> member k j <> JNull -> k' <> k -> member k' j = JNull.
Proof.
  destruct j as [| | | | |members]; try done. cbn.
  destruct members as [|[key v] [|kv2 rest]]; cbn; [done| |lia].
  intros _. destruct (String.eqb_spec key k) as [->|]; [|done].
  intros _ Hne. destruct (String.eqb_spec k k'); [congruence|done].
Qed.

Section Blocks.

Import Database Arbiter.

Context {metadata_codec : ProtoCodec ChannelMetadata}.
Context {proof_codec : ProtoCodec StateProof}.
Context {board_codec : ProtoCodec Ships.BoardState}.

Variable ProcessDispute : ChannelData -> Z -> StateProof -> Chk (bool * ChannelData).
Variable ProcessResolution : ChannelData -> StateProof -> Chk (bool * ChannelData).

#[local] Abbreviation ProcessMove' := (ProcessMove ProcessDispute ProcessResolution).
#[local] Abbreviation ProcessMoves' := (ProcessMoves ProcessDispute ProcessResolution).
#[local] Abbreviation UpdateState' := (UpdateState ProcessDispute ProcessResolution).

Lemma ProcessMove_invalid height st mv :
  invalid_move mv = true -> ProcessMove' height st mv = Ok st.
Proof.
  unfold invalid_move, ProcessMove. intros H.
  destruct (isObject (mv_move mv)); [|done]. cbn [negb].
  destruct (1 <? json_size (mv_move mv)); [done|]. cbn [negb orb] in H.
  apply negb_true_iff in H. unfold selects_operation in H.
  repeat (apply orb_false_iff in H as [H ?]).
  repeat match goal with Hn : bool_decide (is_Some _) = false |- _ =>
    apply not_Some_None in Hn end.
  unfold HandleCreateChannel, HandleJoinChannel, HandleAbortChannel,
    HandleDeclareLoss, HandleDisputeResolution.
  repeat match goal with Hn : _ = None |- _ => rewrite Hn; clear Hn end.
  reflexivity.
Qed.

Lemma ProcessMoves_app height st pre post :
  ProcessMoves' height st (pre ++ post)
  = st' ← ProcessMoves' height st pre; ProcessMoves' height st' post.
Proof.
  revert st. induction pre as [|mv pre IH]; intros st; cbn; [done|].
  destruct (ProcessMove _ _ height st mv) as [st1|]; cbn; [apply IH|done].
Qed.

Lemma creates_inv mv addr :
  creates mv addr ->
  ParseJoinChannelMove (member "j" (mv_move mv)) = None /\
  ParseAbortChannelMove (member "a" (mv_move mv)) = None /\
  ParseDeclareLossMove (member "l" (mv_move mv)) = None /\
  ParseDisputeResolutionMove (member "d" (mv_move mv)) = None /\
  ParseDisputeResolutionMove (member "r" (mv_move mv)) = None.
Proof.
  intros (_ & Hsz & Hc).
  assert (Hnn : member "c" (mv_move mv) <> JNull) by (intros E; by rewrite E in Hc).
  rewrite !(member_single "c" _ (mv_move mv) Hsz Hnn) by done. done.
Qed.

Lemma HandleCreateChannel_taken st obj name i height addr :
  ParseCreateChannelMove obj = Some addr ->
  is_Some (channels st !! i) ->
  HandleCreateChannel st obj name i height = Fatal.
Proof.
  intros Hc [row Hrow]. unfold HandleCreateChannel, GetById. rewrite Hc, Hrow.
  destruct (ChannelDataFromRow i row); done.
Qed.

Lemma ProcessMove_create height st mv addr blob :
  creates mv addr ->
  channels st !! channel_id mv = None ->
  SerializeToString (created_metadata (mv_name mv) addr (channel_id mv)) = Some blob ->
  ProcessMove' height st mv
  = Ok (mkGame (<[channel_id mv := mkRow blob [] None None]> (channels st))
               (stats st)
               (<[channel_id mv := height]> (created st))).
Proof.
  intros Hcr Hfree Hblob. destruct (creates_inv mv addr Hcr) as (Hj & Ha & Hl & Hd & Hr).
  destruct Hcr as (Hobj & Hsz & Hc).
  unfold ProcessMove. rewrite Hobj. cbn [negb].
  replace (1 <? json_size (mv_move mv)) with false by lia.
  fold (channel_id mv). unfold HandleCreateChannel, GetById. rewrite Hc, Hfree.
  unfold created_metadata in Hblob.
  unfold CreateNew, NewChannelData, Reinitialise, DestroyChannelData, BindBlobProto,
    GetLatestState.
  cbn [mbind Chk_bind CHECK initialised dirty metadata negb id reinit_state proof
       disputeHeight]. rewrite Hblob.
  cbn [mbind Chk_bind CHECK].
  unfold HandleJoinChannel, HandleAbortChannel, HandleDeclareLoss, HandleDisputeResolution.
  rewrite Hj, Ha, Hl, Hd, Hr. reflexivity.
Qed.

(** C1, as the test [CreateChannelTests.FailsForIdCollision] has it.  When
    the moves of a block reach a well-formed create move whose channel id is
    in the table, the processing of the block aborts: no state comes out of
    it. *)
Theorem create_collision_aborts (st : GameState) (height : Z)
    (pre post : list BlockMove) (mv : BlockMove) (addr : string) (st1 : GameState) :
  ProcessMoves' height st pre = Ok st1 ->
  creates mv addr ->
  is_Some (channels st1 !! channel_id mv) ->
  UpdateState' st height (pre ++ mv :: post) = Fatal.
Proof.
  intros Hpre (Hobj & Hsz & Hc) Htaken.
  unfold UpdateState. rewrite ProcessMoves_app, Hpre. cbn [mbind Chk_bind ProcessMoves].
  unfold ProcessMove. rewrite Hobj. cbn [negb].
  replace (1 <? json_size (mv_move mv)) with false by lia.
  fold (channel_id mv).
  by rewrite (HandleCreateChannel_taken st1 _ (mv_name mv) (channel_id mv) height addr Hc Htaken).
Qed.

(** C7.  An invalid move leaves the whole state as it is, so the block
    goes on as if the move were not in it; and a well-formed create move
    that follows it opens its channel. *)
Theorem invalid_move_dropped (st : GameState) (height : Z) (mv : BlockMove) :
  invalid_move mv = true ->
  ProcessMove' height st mv = Ok st /\
  (forall st0 pre post,
     UpdateState' st0 height (pre ++ mv :: post) = UpdateState' st0 height (pre ++ post)) /\
  (forall later addr blob,
     creates later addr ->
     channels st !! channel_id later = None ->
     SerializeToString (created_metadata (mv_name later) addr (channel_id later)) = Some blob ->
     exists st', ProcessMoves' height st [mv; later] = Ok st' /\
                 channels st' !! channel_id later = Some (mkRow blob [] None None)).
Proof.
  intros Hinv. split; [by apply ProcessMove_invalid|]. split.
  - intros st0 pre post. unfold UpdateState. rewrite !ProcessMoves_app.
    destruct (ProcessMoves _ _ height st0 pre) as [st1|]; [|done].
    cbn [mbind Chk_bind ProcessMoves]. by rewrite (ProcessMove_invalid height st1 mv Hinv).
  - intros later addr blob Hcr Hfree Hblob. cbn [ProcessMoves].
    rewrite (ProcessMove_invalid height st mv Hinv). cbn [mbind Chk_bind].
    rewrite (ProcessMove_create height st later addr blob Hcr Hfree Hblob).
    cbn [mbind Chk_bind]. eexists. split; [reflexivity|]. cbn [channels].
    apply lookup_insert_eq.
Qed.

End Blocks.

(** ** The cases of [logic_tests.cpp] *)

Section ArbiterExamples.

Import Ships Reference Database Arbiter.

#[local] Existing Instance plain.

(** *** [DisputeResolutionTests.ExpiringDisputes] *)

Example expiring_disputes_109 :
  UpdateState no_dispute no_resolution disputed_game 109 [] = Ok disputed_game.
Proof. by_evaluation. Qed.

Example expiring_disputes_110 :
  UpdateState no_dispute no_resolution disputed_game 110 [] = Ok closed_game.
Proof. by_evaluation. Qed.

(** The test expects the loss with "name 0", whose turn is pending in the
    state [turn_0] of the channel, and the win with "name 1". *)
Example expiring_dispute_verdict :
  verdict disputed_row = Some ("name 1"%string, "name 0"%string) /\
  won_in "name 1" (channels disputed_game) 110 = 1 /\
  lost_in "name 0" (channels disputed_game) 110 = 1 /\
  won_in "name 0" (channels disputed_game) 110 = 0 /\
  lost_in "name 1" (channels disputed_game) 110 = 0 /\
  won_in "name 1" (channels disputed_game) 109 = 0.
Proof. repeat split; by_evaluation. Qed.

(** C2, witness: the table of the test at height 110. *)
Lemma expired_disputes_close_witness :
  (forall i row, channels disputed_game !! i = Some row ->
                 expired_at 110 (i, row) = true -> pending_dispute (i, row) = true) /\
  exists st', ProcessExpiredDisputes disputed_game 110 = Ok st' /\
    (forall i row d, channels disputed_game !! i = Some row ->
                     col_disputeHeight row = Some d ->
                     d <= 110 - 10 -> channels st' !! i = None) /\
    (forall i, (forall row d, channels disputed_game !! i = Some row ->
                  col_disputeHeight row = Some d -> 110 - 10 < d) ->
               channels st' !! i = channels disputed_game !! i) /\
    (forall name,
       wins (stats st') name
       = wins (stats disputed_game) name + won_in name (channels disputed_game) 110 /\
       losses (stats st') name
       = losses (stats disputed_game) name + lost_in name (channels disputed_game) 110).
Proof.
  assert (H : forall i row, channels disputed_game !! i = Some row ->
                expired_at 110 (i, row) = true -> pending_dispute (i, row) = true).
  { intros i row Hrow _. unfold disputed_game in Hrow. cbn [channels] in Hrow.
    apply lookup_singleton_Some in Hrow as [<- <-]. by_evaluation. }
  split; [exact H|].
  exact (expired_disputes_close disputed_game 110 H).
Defined.

(** *** [CreateChannelTests.FailsForIdCollision] *)

(** C1, counterexample: the second create of the test names the id of the
    channel that the first one opened.  It does not leave the state as it
    is: the block aborts. *)
Lemma create_collision_is_fatal :
  ProcessMoves no_dispute no_resolution 10 empty_game [move_foo] = Ok after_foo /\
  is_Some (channels after_foo !! channel_id move_bar) /\
  ProcessMove no_dispute no_resolution 10 after_foo move_bar <> Ok after_foo /\
  UpdateState no_dispute no_resolution empty_game 10 [move_foo; move_bar] = Fatal.
Proof.
  split; [by_evaluation|].
  split; [vm_compute; eauto|].
  split; [|by_evaluation].
  assert (E : ProcessMove no_dispute no_resolution 10 after_foo move_bar = Fatal)
    by (by_evaluation).
  rewrite E. discriminate.
Qed.

(** C1, witness of the amended statement: the same block. *)
Lemma create_collision_aborts_witness :
  ProcessMoves no_dispute no_resolution 10 empty_game [move_foo] = Ok after_foo /\
  creates move_bar "address" /\
  is_Some (channels after_foo !! channel_id move_bar) /\
  UpdateState no_dispute no_resolution empty_game 10 ([move_foo] ++ move_bar :: []) = Fatal.
Proof.
  assert (H1 : ProcessMoves no_dispute no_resolution 10 empty_game [move_foo] = Ok after_foo).
  { by_evaluation. }
  assert (H2 : creates move_bar "address").
  { unfold creates. cbn. split; [reflexivity|]. split; [lia|reflexivity]. }
  assert (H3 : is_Some (channels after_foo !! channel_id move_bar)).
  { vm_compute. eauto. }
  split; [exact H1|]. split; [exact H2|]. split; [exact H3|].
  exact (create_collision_aborts no_dispute no_resolution empty_game 10
           [move_foo] [] move_bar "address" after_foo H1 H2 H3).
Defined.

(** *** [StateUpdateTests.InvalidMoveContinuesProcessing] *)

Example invalid_move_continues_processing :
  UpdateState no_dispute no_resolution empty_game 10 [move_not_object; create_bar]
  = Ok after_bar.
Proof. by_evaluation. Qed.

(** The move of [StateUpdateTests.MultipleActions] is invalid as well. *)
Example multiple_actions_invalid :
  invalid_move
    (mkMove "foo" (replicate 32 x00) None
       (JObj [("c"%string, JObj [("addr"%string, JStr "my address")]);
              ("x"%string, JStr "something else")])) = true.
Proof. reflexivity. Qed.

(** C7, witness: the move that is a string, in the empty game. *)
Lemma invalid_move_dropped_witness :
  invalid_move move_not_object = true /\
  ProcessMove no_dispute no_resolution 10 empty_game move_not_object = Ok empty_game /\
  (forall st0 pre post,
     UpdateState no_dispute no_resolution st0 10 (pre ++ move_not_object :: post)
     = UpdateState no_dispute no_resolution st0 10 (pre ++ post)) /\
  (forall later addr blob,
     creates later addr ->
     channels empty_game !! channel_id later = None ->
     SerializeToString (created_metadata (mv_name later) addr (channel_id later)) = Some blob ->
     exists st', ProcessMoves no_dispute no_resolution 10 empty_game [move_not_object; later]
                 = Ok st' /\
                 channels st' !! channel_id later = Some (mkRow blob [] None None)).
Proof.
  assert (H : invalid_move move_not_object = true) by reflexivity.
  split; [exact H|].
  exact (invalid_move_dropped no_dispute no_resolution empty_game 10 move_not_object H).
Defined.

End ArbiterExamples.

(** * Further properties of the code *)

(** ** Bits of the grids *)

Section GridBits.

Import Ships.

Lemma testbit_u64 x n : 0 <= n -> Z.testbit (u64 x) n = (n <? 64) && Z.testbit x n.
Proof.
  intros Hn. unfold u64. destruct (Z.ltb_spec n 64).
  - by rewrite Z.mod_pow2_bits_low.
  - by rewrite Z.mod_pow2_bits_high.
Qed.

Lemma hits_guessed_bits k :
  hits_guessed k = true <->
  forall n, 0 <= n < 64 -> Z.testbit (get_hits k) n = true -> Z.testbit (get_guessed k) n = true.
Proof.
  unfold hits_guessed. rewrite Z.eqb_eq. split.
  - intros H n Hn Hh. apply (f_equal (fun z => Z.testbit z n)) in H.
    rewrite Z.land_spec, testbit_u64, Z.lnot_spec, Z.bits_0 in H by lia.
    rewrite Hh in H. destruct (Z.ltb_spec n 64); [|lia].
    destruct (Z.testbit (get_guessed k) n); done.
  - intros H. apply Z.bits_inj'. intros n Hn.
    rewrite Z.land_spec, testbit_u64, Z.lnot_spec, Z.bits_0 by lia.
    destruct (Z.ltb_spec n 64); [|by rewrite andb_false_r].
    destruct (Z.testbit (get_hits k) n) eqn:Hh; [|done].
    rewrite (H n) by (done || lia). done.
Qed.

Lemma hits_guessed_shot k c :
  IsOnBoard c = true -> hits_guessed k = true ->
  hits_guessed (mkKnown (Some (Grid_Set (Grid (get_guessed k)) c)) (hits k)) = true.
Proof.
  unfold IsOnBoard, CELLS. intros Hc%andb_true_iff. destruct Hc as [Hc0%Z.leb_le Hc1%Z.ltb_lt].
  rewrite !hits_guessed_bits. intros H n Hn Hh. unfold get_guessed, get_hits in *. simpl in *.
  unfold Grid_Set, Grid. rewrite testbit_set, testbit_u64 by lia.
  rewrite (H n Hn Hh). destruct (Z.ltb_spec n 64); [done|lia].
Qed.

Lemma hits_guessed_hit k c :
  IsOnBoard c = true -> hits_guessed k = true ->
  Grid_Get (Grid (get_guessed k)) c = true ->
  hits_guessed (mkKnown (guessed k) (Some (Grid_Set (Grid (get_hits k)) c))) = true.
Proof.
  unfold IsOnBoard, CELLS. intros Hc%andb_true_iff. destruct Hc as [Hc0%Z.leb_le Hc1%Z.ltb_lt].
  rewrite !hits_guessed_bits. unfold Grid_Get, Grid. rewrite testbit_u64 by lia.
  intros H Hg n Hn. unfold get_guessed, get_hits in *. simpl in *.
  unfold Grid_Set, Grid. rewrite testbit_set, testbit_u64 by lia.
  destruct (Z.eqb_spec n c) as [->|Hne].
  - intros _. by apply andb_true_iff in Hg as [_ Hg].
  - rewrite orb_false_r. intros Hh%andb_true_iff. apply H; [done|]. by destruct Hh.
Qed.

Lemma hits_guessed_fresh : hits_guessed (mkKnown (Some 0) (Some 0)) = true.
Proof. reflexivity. Qed.

(** A cell that is not guessed is not hit. *)
Lemma not_guessed_not_hit k c :
  IsOnBoard c = true -> hits_guessed k = true ->
  Grid_Get (Grid (get_guessed k)) c = false ->
  Grid_Get (Grid (get_hits k)) c = false.
Proof.
  unfold IsOnBoard, CELLS. intros Hc%andb_true_iff. destruct Hc as [Hc0%Z.leb_le Hc1%Z.ltb_lt].
  rewrite hits_guessed_bits. unfold Grid_Get, Grid. rewrite !testbit_u64 by lia.
  intros H Hg. destruct (Z.testbit (get_hits k) c) eqn:Hh; [|by rewrite andb_false_r].
  rewrite (H c) in Hg by (done || lia). by rewrite andb_true_r in *.
Qed.

Lemma Grid_Get_Set g c : IsOnBoard c = true -> Grid_Get (Grid (Grid_Set (Grid g) c)) c = true.
Proof.
  unfold IsOnBoard, CELLS. intros Hc%andb_true_iff. destruct Hc as [Hc0%Z.leb_le Hc1%Z.ltb_lt].
  unfold Grid_Get, Grid_Set, Grid. rewrite testbit_u64, testbit_set, Z.eqb_refl, orb_true_r by lia.
  destruct (Z.ltb_spec c 64); [done|lia].
Qed.

End GridBits.

(** ** The ships board in play *)

Section BoardPlay.

Import Ships.

Variable VPoS : Z -> bool.
Variable VPfA : Z -> Z -> Z -> bool.
Variable T : Z.
Variable RB : uint256 -> bool.

#[local] Arguments u32 : simpl never.
#[local] Arguments u64 : simpl never.
#[local] Arguments CountOnes : simpl never.
#[local] Arguments Grid : simpl never.
#[local] Arguments Grid_Set : simpl never.
#[local] Arguments Grid_Get : simpl never.
#[local] Arguments IsOnBoard : simpl never.
#[local] Arguments CheckHashValue : simpl never.
#[local] Arguments SHA256.Hash : simpl never.
#[local] Arguments Grid_Blob : simpl never.
#[local] Arguments str_size : simpl never.
#[local] Arguments Z.land : simpl never.
#[local] Arguments Z.lnot : simpl never.
#[local] Arguments hits_guessed : simpl never.

Ltac zcases :=
  repeat match goal with
  | |- context [?a <? ?b] => destruct (Z.ltb_spec a b)
  | |- context [?a =? ?b] => destruct (Z.eqb_spec a b)
  | H : context [?a <? ?b] |- _ => destruct (Z.ltb_spec a b)
  | H : context [?a =? ?b] |- _ => destruct (Z.eqb_spec a b)
  end.

Ltac use_phase H :=
  repeat match type of H with
  | _ /\ _ => let H1 := fresh "Hp" in destruct H as [H1 H]; try use_phase H1
  | exists _, _ => let x := fresh "x" in destruct H as [x H]
  end.

Ltac split_ifs H :=
  repeat match type of H with
  | context [if ?b then _ else _] => destruct b eqn:?; try discriminate H
  | context [match ?o with Some _ => _ | None => _ end] => destruct o eqn:?; try discriminate H
  | context [CHECK ?b] => destruct b eqn:?; simpl in H; try discriminate H
  end.

Ltac norm_state_in H :=
  cbv beta iota delta
    [set_turn set_winner set_position_hashes set_seed_hash_0 set_seed_1
     set_known_ships set_positions set_current_shot
     turn winner position_hashes seed_hash_0 seed_1 known_ships positions
     current_shot get_turn] in H.

Ltac norm_state :=
  cbv beta iota delta
    [set_turn set_winner set_position_hashes set_seed_hash_0 set_seed_1
     set_known_ships set_positions set_current_shot
     turn winner position_hashes seed_hash_0 seed_1 known_ships positions
     current_shot get_turn] in *.

Ltac use_tidy H :=
  rewrite ?andb_true_r in H;
  repeat match goal with
  | H : _ && _ = true |- _ => let H1 := fresh "Ht" in apply andb_true_iff in H as [H H1]
  | H : bool_decide _ = true |- _ => apply bool_decide_eq_true in H
  | H : negb (has _) = true |- _ => apply negb_true_iff, has_false in H
  | H : negb _ = true |- _ => apply negb_true_iff in H
  | H : negb _ = false |- _ => apply negb_false_iff in H
  end.

Ltac start s Hp :=
  unfold valid_shape, tidy, GetPhase in *;
  pose proof (phase_inv (GetState s)) as Hp;
  destruct s as [?i ?meta [?t ?w ?ph ?sh0 ?sd1 ?ks ?ps ?cs]]; cbn [GetState GetMetadata] in *.

Ltac start_count s Hn Hp :=
  unfold valid_shape, tidy, TurnCount, GetPhase in *;
  cbn [with_state GetState GetMetadata]; rewrite Hn; change (2 =? 1) with false; cbv iota;
  pose proof (phase_inv (GetState s)) as Hp;
  destruct s as [?i ?meta [?t ?w ?ph ?sh0 ?sd1 ?ks ?ps ?cs]]; cbn [GetState GetMetadata] in *.

Ltac u32s :=
  repeat match goal with
  | |- context [u32 ?x] => rewrite (u32_small x) by lia
  end.

Ltac counted :=
  eexists; split; [reflexivity|]; f_equal;
  rewrite ?count_shots2;
  unfold get_guessed; simpl;
  repeat match goal with
  | H : IsOnBoard _ = true |- _ => erewrite CountOnes_Set by eassumption
  end;
  rewrite ?CountOnes_Grid;
  repeat match goal with
  | |- context [CountOnes ?g] =>
      lazymatch goal with
      | _ : 0 <= CountOnes g <= 64 |- _ => fail
      | _ => pose proof (CountOnes_bounds g)
      end
  end;
  u32s;
  rewrite ?count_positions2 by lia;
  unfold nz;
  repeat match goal with
  | |- context [if ?b then _ else _] => destruct b eqn:?
  end;
  repeat match goal with
  | H : (_ =? _) = true |- _ => apply Z.eqb_eq in H
  end;
  u32s;
  try lia.

Lemma IsValid_shape s :
  participants_size (GetMetadata s) = 2 ->
  (IsValid s = Ok true <-> valid_shape (GetState s)).
Proof.
  intros Hn. unfold IsValid, valid_shape, GetPhase. rewrite Hn. cbn [Z.eqb Pos.eqb CHECK mbind Chk_bind].
  pose proof (phase_inv (GetState s)) as Hp.
  destruct s as [i meta [t w ph sh0 sd1 ks ps cs]]. cbn [GetState] in *.
  destruct (GetPhaseOf _) eqn:Hph; cbn [turn positions winner] in *.
  all: rewrite ?bool_decide_eq_true_2 by done; rewrite ?bool_decide_eq_false_2 by done.
  all: destruct t as [t|]; unfold get_turn; simpl.
  all: try (split; [intros ?|intros ?]; simplify_eq; done).
  all: try (unfold positions_size; simpl; destruct Hp as (_ & _ & _ & p & q & ->); simpl).
  all: clear Hn Hph; zcases; simpl.
  all: try (split; intros HH; [try discriminate HH; simplify_eq; try lia; auto
                               | try destruct HH as [HH|HH]; simplify_eq; try lia; done]).
  all: try (assert (t = 0 \/ t = 1) as [-> | ->] by lia; simpl).
  all: try (by auto).
  all: try (split; [done|]; intros [(HH & _)|(HH & _)]; simplify_eq; lia).
  all: zcases; simpl; subst.
  all: split; [intros HH; simplify_eq; eauto|intros [(HH & x & Hx & ?)|(HH & x & Hx & ?)]; simplify_eq; done].
Qed.

(** X1.  On a valid state of a channel with two participants,
    [ApplyMoveProto] aborts on a [CHECK] exactly when the state has no turn
    set, that is when the game is finished; for every other valid state it
    returns, whatever the move is. *)
Theorem apply_move_aborts_only_without_turn (s : ShipsBoardState) (mv : BoardMove)
    (out : BoardState) :
  participants_size (GetMetadata s) = 2 ->
  IsValid s = Ok true ->
  (ApplyMoveProto VPoS VPfA T RB s mv out = Fatal <-> turn (GetState s) = None).
Proof.
  intros Hn Hv. apply IsValid_shape in Hv; [|done].
  unfold ApplyMoveProto, WhoseTurn, GetPhase. rewrite Hn. change (2 =? 1) with false. cbv iota.
  unfold valid_shape in Hv. pose proof (phase_inv (GetState s)) as Hp.
  destruct s as [i meta [t w ph sh0 sd1 ks ps cs]]. cbn [GetState GetMetadata] in *.
  destruct (GetPhaseOf (mkState _ _ _ _ _ _ _ _)) eqn:Hph; try done; use_phase Hp; simpl in * |-; subst.
  all: try destruct Hv as [Hv|Hv]; use_phase Hv; simplify_eq.
  all: unfold get_turn; simpl.
  all: try (by (split; [done|]; intros _; reflexivity)).
  all: split; [|done]; intros Ha; exfalso.
  all: destruct mv as [m|m|m|m|m|]; try done.
  all: unfold ApplyPositionCommitment, ApplySeedReveal, ApplyShot, ApplyReply, ApplyPositionReveal in Ha.
  all: rewrite ?bool_decide_eq_true_2 in Ha by done; rewrite ?bool_decide_eq_false_2 in Ha by done.
  all: simpl in Ha; try done.
  all: norm_state_in Ha; simpl in Ha.
  all: split_ifs Ha; simpl in Ha; split_ifs Ha; simpl in Ha; try done.
  all: repeat match type of Ha with context [match ?r with HIT => _ | _ => _ end] => destruct r end;
    simpl in Ha; split_ifs Ha; try done.
Qed.

(** *** What play keeps *)

Lemma play_step_commit s m s' :
  valid_shape (GetState s) -> tidy (GetState s) = true ->
  ApplyPositionCommitment m (GetPhase s) (GetState s) = Ok (true, s') ->
  valid_shape s' /\ tidy s' = true.
Proof.
  intros Hv Ht Ha. start s Hp.
  unfold ApplyPositionCommitment in Ha.
  destruct (GetPhaseOf (mkState _ _ _ _ _ _ _ _)) eqn:Hph; try done; use_phase Hp; simpl in * |-; subst;
    split_ifs Ha; simpl in Ha; simplify_eq; use_tidy Ht; subst; norm_state; simpl in *; done.
Qed.

Lemma play_step_seed s m s' :
  valid_shape (GetState s) -> tidy (GetState s) = true ->
  ApplySeedReveal RB m (GetPhase s) (GetState s) = Ok (true, s') ->
  valid_shape s' /\ tidy s' = true.
Proof.
  intros Hv Ht Ha. start s Hp.
  unfold ApplySeedReveal in Ha.
  destruct (GetPhaseOf (mkState _ _ _ _ _ _ _ _)) eqn:Hph; try done; use_phase Hp; simpl in * |-; subst;
    split_ifs Ha; simpl in Ha; simplify_eq; use_tidy Ht; subst; norm_state; simpl in *.
  all: rewrite ?hits_guessed_fresh; simpl; auto.
Qed.

Lemma play_step_shot s m s' :
  valid_shape (GetState s) -> tidy (GetState s) = true ->
  ApplyShot m (GetPhase s) (GetState s) = Ok (true, s') ->
  valid_shape s' /\ tidy s' = true.
Proof.
  intros Hv Ht Ha. start s Hp.
  unfold ApplyShot in Ha.
  destruct (GetPhaseOf (mkState _ _ _ _ _ _ _ _)) eqn:Hph; try done; use_phase Hp; simpl in * |-; subst.
  destruct Hv; simplify_eq; norm_state_in Ha; simpl in Ha; split_ifs Ha; simpl in Ha; simplify_eq;
    norm_state; simpl in *; use_tidy Ht.
  all: split; [auto|].
  all: rewrite ?hits_guessed_shot by done.
  all: repeat match goal with H : hits_guessed _ = true |- _ => rewrite H; clear H end.
  all: unfold get_guessed, get_hits; simpl.
  all: rewrite Heqb, Grid_Get_Set by done; simpl.
  all: apply negb_true_iff, not_guessed_not_hit; done.
Qed.

Lemma play_step_reply s m s' :
  valid_shape (GetState s) -> tidy (GetState s) = true ->
  ApplyReply m (GetPhase s) (GetState s) = Ok (true, s') ->
  valid_shape s' /\ tidy s' = true.
Proof.
  intros Hv Ht Ha. start s Hp.
  unfold ApplyReply in Ha.
  destruct (GetPhaseOf (mkState _ _ _ _ _ _ _ _)) eqn:Hph; try done; use_phase Hp; simpl in * |-; subst.
  destruct Hv; simplify_eq; norm_state_in Ha; simpl in Ha; split_ifs Ha; simpl in Ha;
    repeat match type of Ha with context [match ?r with HIT => _ | _ => _ end] => destruct r end;
    simpl in Ha; split_ifs Ha; simpl in Ha; simplify_eq;
    norm_state; simpl in *; use_tidy Ht.
  all: split; [auto|].
  all: rewrite ?hits_guessed_hit by done.
  all: repeat match goal with H : hits_guessed _ = true |- _ => rewrite H; clear H end.
  all: done.
Qed.

Lemma play_step_reveal s m s' :
  VPoS 0 = false ->
  valid_shape (GetState s) -> tidy (GetState s) = true ->
  ApplyPositionReveal VPoS VPfA T m (GetPhase s) (GetState s) = Ok (true, s') ->
  valid_shape s' /\ tidy s' = true.
Proof.
  intros H0 Hv Ht Ha. start s Hp.
  unfold ApplyPositionReveal in Ha.
  destruct (GetPhaseOf (mkState _ _ _ _ _ _ _ _)) eqn:Hph; try done; use_phase Hp; simpl in * |-; subst.
  all: try destruct Hv as [Hv|Hv]; use_phase Hv; simplify_eq.
  all: norm_state_in Ha; simpl in Ha; split_ifs Ha; simpl in Ha; split_ifs Ha; simpl in Ha; simplify_eq.
  all: norm_state; simpl in *; use_tidy Ht.
  all: repeat match goal with H : hits_guessed _ = true |- _ => rewrite H; clear H end.
  all: try done.
  all: assert (z <> 0) by (intros ->; change (Grid 0) with 0 in *; congruence).
  all: split; [|done]; simpl.
  all: first [left; split; [done|]; eexists; split; [reflexivity|done]
             |right; split; [done|]; eexists; split; [reflexivity|done]].
Qed.

(** One accepted move keeps a valid, tidy state valid and tidy. *)
Lemma play_step s mv out s' :
  participants_size (GetMetadata s) = 2 ->
  VPoS 0 = false ->
  IsValid s = Ok true -> tidy (GetState s) = true ->
  ApplyMoveProto VPoS VPfA T RB s mv out = Ok (true, s') ->
  IsValid (with_state s s') = Ok true /\ tidy s' = true.
Proof.
  intros Hn H0 Hv Ht Ha. rewrite IsValid_shape by done. apply IsValid_shape in Hv; [|done].
  unfold ApplyMoveProto in Ha.
  apply bind_Ok in Ha as (t & _ & Ha). apply bind_Ok in Ha as ([] & _ & Ha).
  destruct mv as [m|m|m|m|m|]; [..|done].
  - by eapply play_step_commit.
  - by eapply play_step_seed.
  - by eapply play_step_shot.
  - by eapply play_step_reply.
  - by eapply play_step_reveal.
Qed.

(** *** Counting the moves *)

Lemma count_commit s m s' :
  participants_size (GetMetadata s) = 2 ->
  valid_shape (GetState s) -> tidy (GetState s) = true ->
  ApplyPositionCommitment m (GetPhase s) (GetState s) = Ok (true, s') ->
  exists n, TurnCount s = Ok n /\ TurnCount (with_state s s') = Ok (n + 1).
Proof.
  intros Hn Hv Ht Ha. start_count s Hn Hp.
  unfold ApplyPositionCommitment in Ha.
  destruct (GetPhaseOf (mkState _ _ _ _ _ _ _ _)) eqn:Hph; try done; use_phase Hp; simpl in * |-; subst;
    split_ifs Ha; simpl in Ha; simplify_eq; use_tidy Ht; subst; norm_state; simpl in *.
  all: counted.
Qed.

Lemma count_seed s m s' :
  participants_size (GetMetadata s) = 2 ->
  valid_shape (GetState s) -> tidy (GetState s) = true ->
  ApplySeedReveal RB m (GetPhase s) (GetState s) = Ok (true, s') ->
  exists n, TurnCount s = Ok n /\ TurnCount (with_state s s') = Ok (n + 1).
Proof.
  intros Hn Hv Ht Ha. start_count s Hn Hp.
  unfold ApplySeedReveal in Ha.
  destruct (GetPhaseOf (mkState _ _ _ _ _ _ _ _)) eqn:Hph; try done; use_phase Hp; simpl in * |-; subst;
    split_ifs Ha; simpl in Ha; simplify_eq; use_tidy Ht; subst; norm_state; simpl in *.
  all: counted.
Qed.

Lemma count_shot s m s' :
  participants_size (GetMetadata s) = 2 ->
  valid_shape (GetState s) -> tidy (GetState s) = true ->
  ApplyShot m (GetPhase s) (GetState s) = Ok (true, s') ->
  exists n, TurnCount s = Ok n /\ TurnCount (with_state s s') = Ok (n + 1).
Proof.
  intros Hn Hv Ht Ha. start_count s Hn Hp.
  unfold ApplyShot in Ha.
  destruct (GetPhaseOf (mkState _ _ _ _ _ _ _ _)) eqn:Hph; try done; use_phase Hp; simpl in * |-; subst.
  destruct Hv; simplify_eq; norm_state_in Ha; simpl in Ha; split_ifs Ha; simpl in Ha; simplify_eq;
    norm_state; simpl in *; use_tidy Ht.
  all: counted.
Qed.

Lemma count_reply s m s' :
  participants_size (GetMetadata s) = 2 ->
  valid_shape (GetState s) -> tidy (GetState s) = true ->
  ApplyReply m (GetPhase s) (GetState s) = Ok (true, s') ->
  exists n, TurnCount s = Ok n /\ TurnCount (with_state s s') = Ok (n + 1).
Proof.
  intros Hn Hv Ht Ha. start_count s Hn Hp.
  unfold ApplyReply in Ha.
  destruct (GetPhaseOf (mkState _ _ _ _ _ _ _ _)) eqn:Hph; try done; use_phase Hp; simpl in * |-; subst.
  destruct Hv; simplify_eq; norm_state_in Ha; simpl in Ha; split_ifs Ha; simpl in Ha;
    repeat match type of Ha with context [match ?r with HIT => _ | _ => _ end] => destruct r end;
    simpl in Ha; split_ifs Ha; simpl in Ha; simplify_eq;
    norm_state; simpl in *; use_tidy Ht.
  all: counted.
Qed.

Lemma count_reveal s m s' :
  participants_size (GetMetadata s) = 2 ->
  valid_shape (GetState s) -> tidy (GetState s) = true ->
  u32 (default 0 (pr_position m)) <> 0 ->
  ApplyPositionReveal VPoS VPfA T m (GetPhase s) (GetState s) = Ok (true, s') ->
  exists n, TurnCount s = Ok n /\ TurnCount (with_state s s') = Ok (n + 1).
Proof.
  intros Hn Hv Ht Hpos Ha. start_count s Hn Hp.
  unfold ApplyPositionReveal in Ha.
  destruct (GetPhaseOf (mkState _ _ _ _ _ _ _ _)) eqn:Hph; try done; use_phase Hp; simpl in * |-; subst.
  all: try destruct Hv as [Hv|Hv]; use_phase Hv; simplify_eq.
  all: norm_state_in Ha; simpl in Ha; split_ifs Ha; simpl in Ha; split_ifs Ha; simpl in Ha; simplify_eq.
  all: norm_state; simpl in *; use_tidy Ht.
  all: counted.
Qed.

(** One accepted move adds one to the turn count of a valid, tidy state. *)
Lemma count_step s mv out s' :
  participants_size (GetMetadata s) = 2 ->
  IsValid s = Ok true -> tidy (GetState s) = true ->
  uncounted_reveal mv = false ->
  ApplyMoveProto VPoS VPfA T RB s mv out = Ok (true, s') ->
  exists n, TurnCount s = Ok n /\ TurnCount (with_state s s') = Ok (n + 1).
Proof.
  intros Hn Hv Ht Hun Ha. apply IsValid_shape in Hv; [|done].
  unfold ApplyMoveProto in Ha.
  apply bind_Ok in Ha as (t & _ & Ha). apply bind_Ok in Ha as ([] & _ & Ha).
  destruct mv as [m|m|m|m|m|]; [..|done].
  - by eapply count_commit.
  - by eapply count_seed.
  - by eapply count_shot.
  - by eapply count_reply.
  - eapply count_reveal; [done|done|done| |done]. cbn in Hun. by apply Z.eqb_neq in Hun.
Qed.

Lemma play_from s moves s' :
  participants_size (GetMetadata s) = 2 ->
  VPoS 0 = false ->
  IsValid s = Ok true -> tidy (GetState s) = true ->
  play VPoS VPfA T RB s moves = Ok (Some s') ->
  IsValid s' = Ok true /\ tidy (GetState s') = true /\
  channelId s' = channelId s /\ GetMetadata s' = GetMetadata s.
Proof.
  intros Hn H0. revert s Hn. induction moves as [|mv moves IH]; intros s Hn Hv Ht Hp; cbn in Hp.
  - by simplify_eq.
  - destruct (ApplyMoveProto _ _ _ _ s mv empty_board) as [[[] pb]|] eqn:Ha; [|done|done].
    destruct (play_step s mv empty_board pb Hn H0 Hv Ht Ha) as [Hv' Ht'].
    destruct (IH (with_state s pb)) as (? & ? & ? & ?); done.
Qed.

Lemma count_from s moves s' n :
  participants_size (GetMetadata s) = 2 ->
  VPoS 0 = false ->
  IsValid s = Ok true -> tidy (GetState s) = true ->
  forallb (fun mv => negb (uncounted_reveal mv)) moves = true ->
  TurnCount s = Ok n ->
  play VPoS VPfA T RB s moves = Ok (Some s') ->
  TurnCount s' = Ok (n + Z.of_nat (length moves)).
Proof.
  intros Hn H0. revert s n Hn. induction moves as [|mv moves IH]; intros s n Hn Hv Ht Hun Hc Hp; cbn in Hp.
  - simplify_eq. rewrite Hc. f_equal. cbn. lia.
  - cbn in Hun. apply andb_true_iff in Hun as [Hmv%negb_true_iff Hun].
    destruct (ApplyMoveProto _ _ _ _ s mv empty_board) as [[[] pb]|] eqn:Ha; [|done|done].
    destruct (play_step s mv empty_board pb Hn H0 Hv Ht Ha) as [Hv' Ht'].
    destruct (count_step s mv empty_board pb Hn Hv Ht Hmv Ha) as (n0 & Hc0 & Hc').
    rewrite Hc in Hc0. simplify_eq.
    rewrite (IH (with_state s pb) (n0 + 1)); try done.
    f_equal. cbn [length]. lia.
Qed.

(** *** The rules of the moves *)

(** X2.  [ApplyMoveProto] accepts a move only in a phase that fits its
    kind: commitments in the two commitment phases, the seed reveal in its
    phase, a shot in [SHOOT], a reply in [ANSWER], a position reveal from
    [SHOOT] on; a move without a case is never accepted.  On a valid, tidy
    state the phase after the move is the one the flow of the game names. *)
Theorem accepted_move_fits_phase (s : ShipsBoardState) (mv : BoardMove)
    (out s' : BoardState) :
  ApplyMoveProto VPoS VPfA T RB s mv out = Ok (true, s') ->
  fits_phase mv (GetPhase s) = true /\
  (participants_size (GetMetadata s) = 2 ->
   IsValid s = Ok true -> tidy (GetState s) = true ->
   next_phase mv (GetPhase s) (GetPhaseOf s') = true).
Proof.
  intros Ha. split.
  - unfold ApplyMoveProto in Ha.
    apply bind_Ok in Ha as (t & _ & Ha). apply bind_Ok in Ha as ([] & _ & Ha).
    destruct mv as [m|m|m|m|m|]; [..|done]; destruct (GetPhase s) eqn:Hph; try done.
    all: unfold ApplyPositionCommitment, ApplySeedReveal, ApplyShot, ApplyReply in Ha.
    all: rewrite ?bool_decide_eq_false_2 in Ha by done; simpl in Ha; split_ifs Ha.
  - intros Hn Hv Ht. apply IsValid_shape in Hv; [|done].
    unfold ApplyMoveProto in Ha.
    apply bind_Ok in Ha as (t & _ & Ha). apply bind_Ok in Ha as ([] & _ & Ha).
    start s Hp.
    destruct mv as [m|m|m|m|m|]; [..|done].
    all: unfold ApplyPositionCommitment, ApplySeedReveal, ApplyShot, ApplyReply, ApplyPositionReveal in Ha.
    all: destruct (GetPhaseOf (mkState _ _ _ _ _ _ _ _)) eqn:Hph; try done; use_phase Hp; simpl in * |-; subst.
    all: rewrite ?bool_decide_eq_false_2 in Ha by done; simpl in Ha; try done.
    all: try destruct Hv as [Hv|Hv]; use_phase Hv; simplify_eq.
    all: norm_state_in Ha; simpl in Ha; split_ifs Ha; simpl in Ha; split_ifs Ha; simpl in Ha.
    all: repeat match type of Ha with context [match ?r with HIT => _ | _ => _ end] => destruct r end;
      simpl in Ha; split_ifs Ha; simpl in Ha.
    all: simplify_eq; use_tidy Ht; subst; done.
Qed.

(** X6.  In play, the player who has to answer a shot can always do so: on
    a valid, tidy state in the [ANSWER] phase a reply of hit or miss is
    accepted, clears the shot and leads to [SHOOT]; after a miss the turn
    stays with the player who replied, after a hit it goes back to the
    shooter. *)
Theorem reply_always_accepted (s : ShipsBoardState) (m : ReplyMove)
    (out : BoardState) (r : ReplyType) :
  participants_size (GetMetadata s) = 2 ->
  IsValid s = Ok true ->
  tidy (GetState s) = true ->
  GetPhase s = ANSWER ->
  reply m = Some r ->
  r <> REPLY_OTHER ->
  exists s',
    ApplyMoveProto VPoS VPfA T RB s (kReply m) out = Ok (true, s') /\
    GetPhaseOf s' = SHOOT /\
    current_shot s' = None /\
    turn s' = match r with
              | HIT => Some (1 - get_turn (GetState s))
              | _ => turn (GetState s)
              end.
Proof.
  intros Hn Hv Ht Hph Hr Hro. apply IsValid_shape in Hv; [|done].
  unfold ApplyMoveProto, WhoseTurn. rewrite Hn. change (2 =? 1) with false. cbv iota.
  start s Hp. rewrite Hph in *. use_phase Hp. simpl in * |-. subst.
  unfold ApplyReply. rewrite Hr.
  destruct Hv; simplify_eq; simpl in Ht; use_tidy Ht.
  all: unfold get_turn; simpl; norm_state; simpl.
  all: match goal with H : IsOnBoard _ = true |- _ => rewrite H end; simpl.
  all: destruct r; try done; simpl.
  all: repeat match goal with H : Grid_Get _ _ = false |- _ => rewrite H end; simpl.
  all: eexists; split; [reflexivity|]; done.
Qed.

(** X5.  On a valid state in the [SHOOT] phase a shot is accepted exactly
    when it names a cell on the board that is not yet guessed on the grid of
    the other player.  A rejected shot leaves the state as it is; an
    accepted one leads to [ANSWER], passes the turn, records the shot and
    marks one more guessed cell, the target, leaving the hits alone. *)
Theorem shot_accepted_iff (s : ShipsBoardState) (m : ShotMove) (out : BoardState) :
  participants_size (GetMetadata s) = 2 ->
  IsValid s = Ok true ->
  GetPhase s = SHOOT ->
  exists ok s' t k,
    ApplyMoveProto VPoS VPfA T RB s (kShot m) out = Ok (ok, s') /\
    turn (GetState s) = Some t /\
    known_ships (GetState s) !! Z.to_nat (1 - t) = Some k /\
    (ok = true <->
     exists c, location m = Some c /\ IsOnBoard c = true /\
               Grid_Get (Grid (get_guessed k)) c = false) /\
    (ok = false -> s' = GetState s) /\
    (ok = true ->
     GetPhaseOf s' = ANSWER /\ turn s' = Some (1 - t) /\ current_shot s' = location m /\
     exists k', known_ships s' !! Z.to_nat (1 - t) = Some k' /\
       hits k' = hits k /\
       CountOnes (get_guessed k') = CountOnes (get_guessed k) + 1 /\
       forall c, location m = Some c -> Grid_Get (Grid (get_guessed k')) c = true).
Proof.
  intros Hn Hv Hph. apply IsValid_shape in Hv; [|done].
  unfold ApplyMoveProto, WhoseTurn. rewrite Hn. change (2 =? 1) with false. cbv iota.
  start s Hp. rewrite Hph in *. use_phase Hp. simpl in * |-. subst.
  unfold ApplyShot.
  destruct Hv; simplify_eq; unfold get_turn; simpl; norm_state; simpl.
  all: destruct (location m) as [c|] eqn:Hl; simpl;
    [destruct (IsOnBoard c) eqn:Hc; simpl;
      [match goal with |- context [Grid_Get ?g c] => destruct (Grid_Get g c) eqn:Hg end; simpl|]|].
  all: eexists _, _, _, _; split; [reflexivity|]; split; [reflexivity|]; split; [reflexivity|].
  all: split; [split; [try done; intros _; eauto|try done; intros (c' & ? & ? & ?); simplify_eq; congruence]|].
  all: split; [done|]; try done.
  all: intros _; simpl; split; [done|]; split; [done|]; split; [done|].
  all: eexists; split; [reflexivity|]; split; [done|].
  all: unfold get_guessed at 1 2; simpl.
  all: split; [rewrite CountOnes_Set, CountOnes_Grid by done; done|].
  all: intros c' [= <-]; by apply Grid_Get_Set.
Qed.

(** X7.  An accepted position reveal in the phase
    [SECOND_REVEAL_POSITION] always ends the game: no turn is left, all
    position hashes are cleared, and the revealing player wins exactly when
    the position passes the fleet rules and matches the answers given;
    otherwise the other player wins. *)
Theorem second_reveal_decides (s : ShipsBoardState) (m : PositionRevealMove)
    (out s' : BoardState) :
  participants_size (GetMetadata s) = 2 ->
  IsValid s = Ok true ->
  GetPhase s = SECOND_REVEAL_POSITION ->
  ApplyMoveProto VPoS VPfA T RB s (kPositionReveal m) out = Ok (true, s') ->
  exists t k,
    turn (GetState s) = Some t /\
    known_ships (GetState s) !! Z.to_nat t = Some k /\
    GetPhaseOf s' = FINISHED /\
    turn s' = None /\
    winner s' =
      Some (if VPoS (Grid (default 0 (pr_position m)))
               && VPfA (Grid (default 0 (pr_position m)))
                       (Grid (get_guessed k)) (Grid (get_hits k))
            then t else 1 - t) /\
    Forall (fun h => h = []) (position_hashes s').
Proof.
  intros Hn Hv Hph Ha. apply IsValid_shape in Hv; [|done].
  unfold ApplyMoveProto in Ha.
  apply bind_Ok in Ha as (t & _ & Ha). apply bind_Ok in Ha as ([] & _ & Ha).
  start s Hp. rewrite Hph in *. use_phase Hp. simpl in * |-. subst.
  unfold ApplyPositionReveal in Ha.
  destruct Hv as [Hv|Hv]; use_phase Hv; simplify_eq.
  all: norm_state_in Ha; simpl in Ha; split_ifs Ha; simpl in Ha; split_ifs Ha; simpl in Ha; simplify_eq.
  all: eexists _, _; split; [reflexivity|]; split; [reflexivity|]; simpl.
  all: repeat match goal with
       | H : negb _ = true |- _ => apply negb_true_iff in H
       | H : negb _ = false |- _ => apply negb_false_iff in H
       end.
  all: repeat match goal with H : VPoS _ = _ |- _ => rewrite H; clear H end.
  all: repeat match goal with H : VPfA _ _ _ = _ |- _ => rewrite H; clear H end.
  all: repeat split; try done; repeat constructor.
Qed.

(** X15.  An accepted position reveal in the phase [SHOOT] or [ANSWER],
    the first of a game, records the position and leaves the known ships
    and the shot alone.  If the position passes the fleet rules and matches
    the answers given, and not all ships of the other player are hit, the
    game goes on with the turn of the other player, who is to reveal next;
    otherwise it ends at once, won by the revealing player exactly when the
    position is fine. *)
Theorem first_reveal_decides (s : ShipsBoardState) (m : PositionRevealMove)
    (out s' : BoardState) :
  participants_size (GetMetadata s) = 2 ->
  IsValid s = Ok true ->
  GetPhase s = SHOOT \/ GetPhase s = ANSWER ->
  ApplyMoveProto VPoS VPfA T RB s (kPositionReveal m) out = Ok (true, s') ->
  exists t k other p,
    turn (GetState s) = Some t /\
    known_ships (GetState s) !! Z.to_nat t = Some k /\
    known_ships (GetState s) !! Z.to_nat (1 - t) = Some other /\
    pr_position m = Some p /\
    positions s' !! Z.to_nat t = Some p /\
    positions s' !! Z.to_nat (1 - t) = Some 0 /\
    known_ships s' = known_ships (GetState s) /\
    current_shot s' = current_shot (GetState s) /\
    if VPoS (Grid p) && VPfA (Grid p) (Grid (get_guessed k)) (Grid (get_hits k))
       && (CountOnes (Grid (get_hits other)) <? T)
    then winner s' = None /\ turn s' = Some (1 - t) /\
         position_hashes s' = <[Z.to_nat t := []]> (position_hashes (GetState s))
    else winner s' =
           Some (if VPoS (Grid p) && VPfA (Grid p) (Grid (get_guessed k)) (Grid (get_hits k))
                 then t else 1 - t) /\
         turn s' = None /\ GetPhaseOf s' = FINISHED /\
         Forall (fun h => h = []) (position_hashes s').
Proof.
  intros Hn Hv Hph Ha. apply IsValid_shape in Hv; [|done].
  unfold ApplyMoveProto in Ha.
  apply bind_Ok in Ha as (t & _ & Ha). apply bind_Ok in Ha as ([] & _ & Ha).
  start s Hp. destruct Hph as [Hph|Hph]; rewrite Hph in *; use_phase Hp; simpl in * |-; subst.
  all: unfold ApplyPositionReveal in Ha.
  all: destruct Hv as [Hv|Hv]; simplify_eq.
  all: norm_state_in Ha; simpl in Ha; split_ifs Ha; simpl in Ha; split_ifs Ha; simpl in Ha; simplify_eq.
  all: eexists _, _, _, _; split; [reflexivity|]; split; [reflexivity|]; split; [reflexivity|]; split; [reflexivity|]; simpl.
  all: repeat match goal with
       | H : negb _ = true |- _ => apply negb_true_iff in H
       | H : negb _ = false |- _ => apply negb_false_iff in H
       end.
  all: repeat match goal with H : VPoS _ = _ |- _ => rewrite H; clear H end.
  all: repeat match goal with H : VPfA _ _ _ = _ |- _ => rewrite H; clear H end.
  all: rewrite ?Z.ltb_antisym.
  all: repeat match goal with H : (T <=? _) = _ |- _ => rewrite H; clear H end.
  all: simpl; repeat split; try done; repeat constructor.
Qed.

(** X8.  On every state that [IsValid] accepts, [WhoseTurn] and
    [TurnCount] return without a [CHECK] failure; the turn is [NO_TURN], 0
    or 1, and it is [NO_TURN] exactly for a channel with one participant or
    a finished game. *)
Theorem valid_state_has_turn_and_count (s : ShipsBoardState) :
  IsValid s = Ok true ->
  (exists t, WhoseTurn s = Ok t /\
     (t = NO_TURN \/ t = 0 \/ t = 1) /\
     (t = NO_TURN <-> participants_size (GetMetadata s) = 1 \/ GetPhase s = FINISHED)) /\
  (exists n, TurnCount s = Ok n).
Proof.
  intros Hv.
  destruct (Z.eqb_spec (participants_size (GetMetadata s)) 1) as [H1|H1].
  { unfold WhoseTurn, TurnCount. rewrite H1. simpl. split; [|by eexists].
    eexists. split; [reflexivity|]. split; [by left|]. split; auto. }
  assert (Hn : participants_size (GetMetadata s) = 2).
  { unfold IsValid in Hv. destruct (Z.eqb_spec (participants_size (GetMetadata s)) 1); [done|].
    apply bind_Ok in Hv as (? & Hc%CHECK_Ok & _). by apply Z.eqb_eq in Hc. }
  apply IsValid_shape in Hv; [|done].
  unfold WhoseTurn, TurnCount. rewrite Hn. change (2 =? 1) with false. cbv iota.
  start s Hp.
  destruct (GetPhaseOf (mkState _ _ _ _ _ _ _ _)) eqn:Hph; try done; use_phase Hp; simpl in * |-; subst.
  all: try destruct Hv as [Hv|Hv]; use_phase Hv; simplify_eq.
  all: unfold get_turn, NO_TURN; simpl.
  all: split; [|by eexists].
  all: eexists; split; [reflexivity|]; split; [auto|]; split; [try done; try lia|intros [?|?]; try done; lia].
  all: auto.
Qed.

(** *** Games from the initial state *)

Lemma tidy_hits pb k :
  tidy pb = true -> In k (known_ships pb) -> hits_guessed k = true.
Proof.
  unfold tidy. intros Ht Hk.
  assert (Hall : forallb hits_guessed (known_ships pb) = true).
  { destruct (GetPhaseOf pb); try done.
    1-3: apply andb_true_iff in Ht as [Ht _]; apply andb_true_iff in Ht as [Ht _];
      apply bool_decide_eq_true in Ht; by rewrite Ht in Hk.
    by apply andb_true_iff in Ht as [Ht _]. }
  rewrite forallb_forall in Hall. by apply Hall.
Qed.

(** X3.  Every state that accepted moves reach from the initial state of a
    channel with two participants is valid, provided the fleet rules reject
    the empty grid; and in every such state each hit recorded in
    [known_ships] is on a guessed cell, so the subset test of
    [ApplyPositionReveal] never fires in play. *)
Theorem play_keeps_valid (i : uint256) (meta : ChannelMetadata)
    (moves : list BoardMove) (s' : ShipsBoardState) :
  participants_size meta = 2 ->
  VPoS 0 = false ->
  play VPoS VPfA T RB (mkBoard i meta InitialBoardState) moves = Ok (Some s') ->
  IsValid s' = Ok true /\
  tidy (GetState s') = true /\
  forall k c, In k (known_ships (GetState s')) -> IsOnBoard c = true ->
    Grid_Get (Grid (get_hits k)) c = true -> Grid_Get (Grid (get_guessed k)) c = true.
Proof.
  intros Hn H0 Hp.
  destruct (play_from (mkBoard i meta InitialBoardState) moves s')
    as (Hv & Ht & _); try done.
  { unfold IsValid. cbn [GetMetadata]. rewrite Hn. reflexivity. }
  split; [done|]. split; [done|]. intros k c Hk Hc Hh.
  destruct (Grid_Get (Grid (get_guessed k)) c) eqn:Hg; [done|].
  rewrite (not_guessed_not_hit k c Hc (tidy_hits _ k Ht Hk) Hg) in Hh. done.
Qed.

(** X4.  In play from the initial state the turn count is one more than
    the number of moves made, as long as no revealed position has its low
    32 bits all zero. *)
Theorem turn_count_counts_moves (i : uint256) (meta : ChannelMetadata)
    (moves : list BoardMove) (s' : ShipsBoardState) :
  participants_size meta = 2 ->
  VPoS 0 = false ->
  forallb (fun mv => negb (uncounted_reveal mv)) moves = true ->
  play VPoS VPfA T RB (mkBoard i meta InitialBoardState) moves = Ok (Some s') ->
  TurnCount s' = Ok (1 + Z.of_nat (length moves)).
Proof.
  intros Hn H0 Hun Hp.
  apply (count_from (mkBoard i meta InitialBoardState) moves s' 1); try done.
  - unfold IsValid. cbn [GetMetadata]. rewrite Hn. reflexivity.
  - unfold TurnCount. cbn [GetMetadata]. rewrite Hn. reflexivity.
Qed.

(** X16.  The opening of a game, two commitments and the seed reveal,
    is accepted only when the revealed seed hashes to the seed hash of the
    first commitment.  The first shot is then with the player that
    [RandomBit] picks from the hash of the two seeds, and the state holds
    the two position hashes and two empty grids of known ships and nothing
    else. *)
Theorem opening_fixes_starting_player (i : uint256) (meta : ChannelMetadata)
    (c1 c2 : PositionCommitmentMove) (r : SeedRevealMove) (s' : ShipsBoardState) :
  play VPoS VPfA T RB (mkBoard i meta InitialBoardState)
       [kPositionCommitment c1; kPositionCommitment c2; kSeedReveal r] = Ok (Some s') ->
  bytes_or_empty (seed_hash c1) = SHA256.Hash (bytes_or_empty (sr_seed r)) /\
  GetState s' =
    mkState (Some (if RB (SHA256.Hash (bytes_or_empty (sr_seed r)
                                       ++ bytes_or_empty (pc_seed c2)))
                   then 1 else 0))
            None
            [bytes_or_empty (position_hash c1); bytes_or_empty (position_hash c2)]
            None None [mkKnown (Some 0) (Some 0); mkKnown (Some 0) (Some 0)] [] None /\
  GetPhase s' = SHOOT.
Proof.
  intros Hp. cbn [play] in Hp.
  destruct (ApplyMoveProto VPoS VPfA T RB _ (kPositionCommitment c1) _)
    as [[[] pb1]|] eqn:H1; try done.
  destruct (ApplyMoveProto VPoS VPfA T RB _ (kPositionCommitment c2) _)
    as [[[] pb2]|] eqn:H2; try done.
  destruct (ApplyMoveProto VPoS VPfA T RB _ (kSeedReveal r) _)
    as [[[] pb3]|] eqn:H3; try done.
  simplify_eq.
  unfold ApplyMoveProto in H1.
  apply bind_Ok in H1 as (t1 & _ & H1). apply bind_Ok in H1 as ([] & _ & H1).
  unfold ApplyPositionCommitment, InitialBoardState in H1.
  norm_state_in H1. simpl in H1. split_ifs H1. simpl in H1. simplify_eq.
  unfold ApplyMoveProto in H2.
  apply bind_Ok in H2 as (t2 & _ & H2). apply bind_Ok in H2 as ([] & _ & H2).
  unfold ApplyPositionCommitment in H2.
  norm_state_in H2. simpl in H2. split_ifs H2. simpl in H2. simplify_eq.
  unfold ApplyMoveProto in H3.
  apply bind_Ok in H3 as (t3 & _ & H3). apply bind_Ok in H3 as ([] & _ & H3).
  unfold ApplySeedReveal in H3.
  norm_state_in H3. simpl in H3. split_ifs H3; simpl in H3; simplify_eq.
  all: apply negb_false_iff in Heqb6; unfold CheckHashValue in Heqb6.
  all: destruct (negb (str_size (bytes_or_empty (seed_hash c1)) =? NUM_BYTES)); [done|].
  all: apply bool_decide_eq_true in Heqb6.
  all: rewrite <- Heqb6.
  all: repeat split; reflexivity.
Qed.

Context {board_codec : ProtoCodec BoardState}.
Context {move_codec : ProtoCodec BoardMove}.

(** X9.  The new state that [ApplyMove] serialises for an accepted move
    on a valid, tidy state is one that [ParseState] accepts again, for a
    wire codec that parses back what it serialises without unknown
    fields. *)
Theorem applied_move_parses_back (s : ShipsBoardState) (mv out new : bytes) :
  (forall (pb : BoardState) b, SerializeToString pb = Some b ->
                ParseFromString b = Some pb /\ HasAnyUnknownFields pb = false) ->
  participants_size (GetMetadata s) = 2 ->
  VPoS 0 = false ->
  IsValid s = Ok true ->
  tidy (GetState s) = true ->
  ShipsApplyMove VPoS VPfA T RB s mv out = Ok (true, new) ->
  exists pm pb,
    ParseFromString mv = Some pm /\
    ApplyMoveProto VPoS VPfA T RB s pm empty_board = Ok (true, pb) /\
    SerializeToString pb = Some new /\
    ShipsParseState (channelId s) (GetMetadata s) new = Ok (Some (with_state s pb)) /\
    tidy pb = true.
Proof.
  intros Hcodec Hn H0 Hv Ht Ha.
  unfold ShipsApplyMove, ProtoBoard.ApplyMove in Ha.
  destruct (ParseFromString mv) as [pm|] eqn:Hpm; [|done].
  destruct (HasAnyUnknownFields pm); [done|].
  apply bind_Ok in Ha as ([ok pb] & Happ & Ha). cbn [fst snd] in Ha.
  destruct ok; cbn [negb] in Ha; [|done].
  destruct (SerializeToString pb) as [b|] eqn:Hs; [|done]. simplify_eq.
  destruct (Hcodec pb new Hs) as [Hparse Hclean].
  destruct (play_step s pm empty_board pb Hn H0 Hv Ht Happ) as [Hv' Ht'].
  exists pm, pb. split; [done|]. split; [done|]. split; [done|]. split; [|done].
  unfold ShipsParseState, ProtoBoard.ParseState. rewrite Hparse, Hclean.
  change (mkBoard (channelId s) (GetMetadata s) pb) with (with_state s pb).
  rewrite Hv'. done.
Qed.

End BoardPlay.

(** *** A game replayed *)

Section BoardPlayExamples.

Import Ships Sample Reference.

(** X1, witness: the finished game, with no turn left. *)
Lemma apply_move_aborts_only_without_turn_witness :
  participants_size (GetMetadata (with_state first_state end_state)) = 2 /\
  IsValid (with_state first_state end_state) = Ok true /\
  (ApplyMoveProto some_fleet any_answers ship_cells low_bit
     (with_state first_state end_state) first_commitment InitialBoardState = Fatal <->
   turn (GetState (with_state first_state end_state)) = None).
Proof.
  assert (H1 : participants_size (GetMetadata (with_state first_state end_state)) = 2)
    by reflexivity.
  assert (H2 : IsValid (with_state first_state end_state) = Ok true) by by_evaluation.
  repeat (split; [assumption|]).
  exact (apply_move_aborts_only_without_turn some_fleet any_answers ship_cells low_bit
           (with_state first_state end_state) first_commitment InitialBoardState H1 H2).
Defined.

(** X2, witness: the first position commitment of the board tests. *)
Lemma accepted_move_fits_phase_witness :
  ApplyMoveProto any_fleet any_answers ship_cells low_bit first_state first_commitment
                 InitialBoardState = Ok (true, second_state) /\
  fits_phase first_commitment (GetPhase first_state) = true /\
  (participants_size (GetMetadata first_state) = 2 ->
   IsValid first_state = Ok true ->
   tidy (GetState first_state) = true ->
   next_phase first_commitment (GetPhase first_state) (GetPhaseOf second_state) = true).
Proof.
  assert (H1 : ApplyMoveProto any_fleet any_answers ship_cells low_bit first_state
                 first_commitment InitialBoardState = Ok (true, second_state))
    by by_evaluation.
  split; [assumption|].
  exact (accepted_move_fits_phase any_fleet any_answers ship_cells low_bit
           first_state first_commitment InitialBoardState second_state H1).
Defined.

(** X3, witness: a whole game, from the commitments to the second reveal. *)
Lemma play_keeps_valid_witness :
  participants_size two_players = 2 /\
  some_fleet 0 = false /\
  play some_fleet any_answers ship_cells low_bit
       (mkBoard test_channel two_players InitialBoardState) game
    = Ok (Some (with_state first_state end_state)) /\
  IsValid (with_state first_state end_state) = Ok true /\
  tidy (GetState (with_state first_state end_state)) = true /\
  forall k c,
    In k (known_ships (GetState (with_state first_state end_state))) ->
    IsOnBoard c = true ->
    Grid_Get (Grid (get_hits k)) c = true ->
    Grid_Get (Grid (get_guessed k)) c = true.
Proof.
  assert (H1 : participants_size two_players = 2) by reflexivity.
  assert (H2 : some_fleet 0 = false) by reflexivity.
  assert (H3 : play some_fleet any_answers ship_cells low_bit
                 (mkBoard test_channel two_players InitialBoardState) game
               = Ok (Some (with_state first_state end_state))) by by_evaluation.
  repeat (split; [assumption|]).
  exact (play_keeps_valid some_fleet any_answers ship_cells low_bit test_channel
           two_players game (with_state first_state end_state) H1 H2 H3).
Defined.

(** X4, witness: the same game of seven moves. *)
Lemma turn_count_counts_moves_witness :
  participants_size two_players = 2 /\
  some_fleet 0 = false /\
  forallb (fun mv => negb (uncounted_reveal mv)) game = true /\
  play some_fleet any_answers ship_cells low_bit
       (mkBoard test_channel two_players InitialBoardState) game
    = Ok (Some (with_state first_state end_state)) /\
  TurnCount (with_state first_state end_state) = Ok (1 + Z.of_nat (length game)).
Proof.
  assert (H1 : participants_size two_players = 2) by reflexivity.
  assert (H2 : some_fleet 0 = false) by reflexivity.
  assert (H3 : forallb (fun mv => negb (uncounted_reveal mv)) game = true) by reflexivity.
  assert (H4 : play some_fleet any_answers ship_cells low_bit
                 (mkBoard test_channel two_players InitialBoardState) game
               = Ok (Some (with_state first_state end_state))) by by_evaluation.
  repeat (split; [assumption|]).
  exact (turn_count_counts_moves some_fleet any_answers ship_cells low_bit test_channel
           two_players game (with_state first_state end_state) H1 H2 H3 H4).
Defined.

(** X5, witness: a shot at cell 10 in the state of the shooting tests. *)
Lemma shot_accepted_iff_witness :
  participants_size (GetMetadata shoot_state) = 2 /\
  IsValid shoot_state = Ok true /\
  GetPhase shoot_state = SHOOT /\
  exists ok s' t k,
    ApplyMoveProto any_fleet any_answers ship_cells low_bit shoot_state
      (kShot (mkShot (Some 10))) InitialBoardState = Ok (ok, s') /\
    turn (GetState shoot_state) = Some t /\
    known_ships (GetState shoot_state) !! Z.to_nat (1 - t) = Some k /\
    (ok = true <->
     exists c, location (mkShot (Some 10)) = Some c /\ IsOnBoard c = true /\
               Grid_Get (Grid (get_guessed k)) c = false) /\
    (ok = false -> s' = GetState shoot_state) /\
    (ok = true ->
     GetPhaseOf s' = ANSWER /\ turn s' = Some (1 - t) /\
     current_shot s' = location (mkShot (Some 10)) /\
     exists k', known_ships s' !! Z.to_nat (1 - t) = Some k' /\
                hits k' = hits k /\
                CountOnes (get_guessed k') = CountOnes (get_guessed k) + 1 /\
                forall c, location (mkShot (Some 10)) = Some c ->
                          Grid_Get (Grid (get_guessed k')) c = true).
Proof.
  assert (H1 : participants_size (GetMetadata shoot_state) = 2) by reflexivity.
  assert (H2 : IsValid shoot_state = Ok true) by by_evaluation.
  assert (H3 : GetPhase shoot_state = SHOOT) by reflexivity.
  repeat (split; [assumption|]).
  exact (shot_accepted_iff any_fleet any_answers ship_cells low_bit shoot_state
           (mkShot (Some 10)) InitialBoardState H1 H2 H3).
Defined.

(** X6, witness: the reply of a hit to the shot at cell 10. *)
Lemma reply_always_accepted_witness :
  participants_size (GetMetadata answer_state) = 2 /\
  IsValid answer_state = Ok true /\
  tidy (GetState answer_state) = true /\
  GetPhase answer_state = ANSWER /\
  exists s',
    ApplyMoveProto some_fleet any_answers ship_cells low_bit answer_state
      (kReply (mkReply (Some HIT))) InitialBoardState = Ok (true, s') /\
    GetPhaseOf s' = SHOOT /\
    current_shot s' = None /\
    turn s' = Some (1 - get_turn (GetState answer_state)).
Proof.
  assert (H1 : participants_size (GetMetadata answer_state) = 2) by reflexivity.
  assert (H2 : IsValid answer_state = Ok true) by by_evaluation.
  assert (H3 : tidy (GetState answer_state) = true) by by_evaluation.
  assert (H4 : GetPhase answer_state = ANSWER) by reflexivity.
  assert (H5 : reply (mkReply (Some HIT)) = Some HIT) by reflexivity.
  assert (H6 : HIT <> REPLY_OTHER) by discriminate.
  repeat (split; [assumption|]).
  exact (reply_always_accepted some_fleet any_answers ship_cells low_bit answer_state
           (mkReply (Some HIT)) InitialBoardState HIT H1 H2 H3 H4 H5 H6).
Defined.

(** X7, witness: the second reveal of the game, which the second player
    wins. *)
Lemma second_reveal_decides_witness :
  participants_size (GetMetadata reveal_state) = 2 /\
  IsValid reveal_state = Ok true /\
  GetPhase reveal_state = SECOND_REVEAL_POSITION /\
  ApplyMoveProto some_fleet any_answers ship_cells low_bit reveal_state
    (kPositionReveal fleet_reveal) InitialBoardState = Ok (true, end_state) /\
  exists t k,
    turn (GetState reveal_state) = Some t /\
    known_ships (GetState reveal_state) !! Z.to_nat t = Some k /\
    GetPhaseOf end_state = FINISHED /\
    turn end_state = None /\
    winner end_state =
      Some (if some_fleet (Grid (default 0 (pr_position fleet_reveal))) &&
               any_answers (Grid (default 0 (pr_position fleet_reveal)))
                           (Grid (get_guessed k)) (Grid (get_hits k))
            then t else 1 - t) /\
    Forall (fun h => h = []) (position_hashes end_state).
Proof.
  assert (H1 : participants_size (GetMetadata reveal_state) = 2) by reflexivity.
  assert (H2 : IsValid reveal_state = Ok true) by by_evaluation.
  assert (H3 : GetPhase reveal_state = SECOND_REVEAL_POSITION) by by_evaluation.
  assert (H4 : ApplyMoveProto some_fleet any_answers ship_cells low_bit reveal_state
                 (kPositionReveal fleet_reveal) InitialBoardState = Ok (true, end_state))
    by by_evaluation.
  repeat (split; [assumption|]).
  exact (second_reveal_decides some_fleet any_answers ship_cells low_bit reveal_state
           fleet_reveal InitialBoardState end_state H1 H2 H3 H4).
Defined.

(** X8, witness: the state after the first commitment. *)
Lemma valid_state_has_turn_and_count_witness :
  IsValid (with_state first_state second_state) = Ok true /\
  (exists t, WhoseTurn (with_state first_state second_state) = Ok t /\
             (t = NO_TURN \/ t = 0 \/ t = 1) /\
             (t = NO_TURN <->
              participants_size (GetMetadata (with_state first_state second_state)) = 1 \/
              GetPhase (with_state first_state second_state) = FINISHED)) /\
  exists n, TurnCount (with_state first_state second_state) = Ok n.
Proof.
  assert (H1 : IsValid (with_state first_state second_state) = Ok true) by by_evaluation.
  split; [assumption|].
  exact (valid_state_has_turn_and_count (with_state first_state second_state) H1).
Defined.

(** X9, witness: the first commitment on the wire of the reference codec. *)
Lemma applied_move_parses_back_witness :
  (forall (pb : BoardState) b,
     SerializeToString (ProtoCodec := plain BoardState) pb = Some b ->
     ParseFromString (ProtoCodec := plain BoardState) b = Some pb /\
     HasAnyUnknownFields (ProtoCodec := plain BoardState) pb = false) /\
  participants_size (GetMetadata first_state) = 2 /\
  some_fleet 0 = false /\
  IsValid first_state = Ok true /\
  tidy (GetState first_state) = true /\
  ShipsApplyMove (board_codec := plain BoardState) (move_codec := plain BoardMove)
    some_fleet any_answers ship_cells low_bit first_state
    (pos_bits (encode first_commitment)) [] = Ok (true, pos_bits (encode second_state)) /\
  exists pm pb,
    ParseFromString (ProtoCodec := plain BoardMove)
      (pos_bits (encode first_commitment)) = Some pm /\
    ApplyMoveProto some_fleet any_answers ship_cells low_bit first_state pm empty_board
      = Ok (true, pb) /\
    SerializeToString (ProtoCodec := plain BoardState) pb
      = Some (pos_bits (encode second_state)) /\
    ShipsParseState (board_codec := plain BoardState)
      (channelId first_state) (GetMetadata first_state) (pos_bits (encode second_state))
      = Ok (Some (with_state first_state pb)) /\
    tidy pb = true.
Proof.
  assert (H0 : forall (pb : BoardState) b,
             SerializeToString (ProtoCodec := plain BoardState) pb = Some b ->
             ParseFromString (ProtoCodec := plain BoardState) b = Some pb /\
             HasAnyUnknownFields (ProtoCodec := plain BoardState) pb = false)
    by (intros pb b Hs; split; [exact (parse_serialize pb b Hs)|reflexivity]).
  assert (H1 : participants_size (GetMetadata first_state) = 2) by reflexivity.
  assert (H2 : some_fleet 0 = false) by reflexivity.
  assert (H3 : IsValid first_state = Ok true) by by_evaluation.
  assert (H4 : tidy (GetState first_state) = true) by by_evaluation.
  assert (H5 : ShipsApplyMove (board_codec := plain BoardState)
                 (move_codec := plain BoardMove)
                 some_fleet any_answers ship_cells low_bit first_state
                 (pos_bits (encode first_commitment)) []
               = Ok (true, pos_bits (encode second_state))) by by_evaluation.
  repeat (split; [assumption|]).
  exact (applied_move_parses_back some_fleet any_answers ship_cells low_bit
           (board_codec := plain BoardState) (move_codec := plain BoardMove)
           first_state (pos_bits (encode first_commitment)) []
           (pos_bits (encode second_state)) H0 H1 H2 H3 H4 H5).
Defined.

(** X15, witness: the first reveal of the game, after one hit. *)
Lemma first_reveal_decides_witness :
  participants_size (GetMetadata hit_state) = 2 /\
  IsValid hit_state = Ok true /\
  (GetPhase hit_state = SHOOT \/ GetPhase hit_state = ANSWER) /\
  ApplyMoveProto some_fleet any_answers ship_cells low_bit hit_state
    (kPositionReveal fleet_reveal) InitialBoardState = Ok (true, GetState reveal_state) /\
  exists t k other p,
    turn (GetState hit_state) = Some t /\
    known_ships (GetState hit_state) !! Z.to_nat t = Some k /\
    known_ships (GetState hit_state) !! Z.to_nat (1 - t) = Some other /\
    pr_position fleet_reveal = Some p /\
    positions (GetState reveal_state) !! Z.to_nat t = Some p /\
    positions (GetState reveal_state) !! Z.to_nat (1 - t) = Some 0 /\
    known_ships (GetState reveal_state) = known_ships (GetState hit_state) /\
    current_shot (GetState reveal_state) = current_shot (GetState hit_state) /\
    if some_fleet (Grid p) && any_answers (Grid p) (Grid (get_guessed k)) (Grid (get_hits k))
       && (CountOnes (Grid (get_hits other)) <? ship_cells)
    then winner (GetState reveal_state) = None /\
         turn (GetState reveal_state) = Some (1 - t) /\
         position_hashes (GetState reveal_state)
         = <[Z.to_nat t := []]> (position_hashes (GetState hit_state))
    else winner (GetState reveal_state) =
           Some (if some_fleet (Grid p)
                    && any_answers (Grid p) (Grid (get_guessed k)) (Grid (get_hits k))
                 then t else 1 - t) /\
         turn (GetState reveal_state) = None /\
         GetPhaseOf (GetState reveal_state) = FINISHED /\
         Forall (fun h => h = []) (position_hashes (GetState reveal_state)).
Proof.
  assert (H1 : participants_size (GetMetadata hit_state) = 2) by reflexivity.
  assert (H2 : IsValid hit_state = Ok true) by by_evaluation.
  assert (H3 : GetPhase hit_state = SHOOT \/ GetPhase hit_state = ANSWER)
    by (left; reflexivity).
  assert (H4 : ApplyMoveProto some_fleet any_answers ship_cells low_bit hit_state
                 (kPositionReveal fleet_reveal) InitialBoardState
               = Ok (true, GetState reveal_state)) by by_evaluation.
  repeat (split; [assumption|]).
  exact (first_reveal_decides some_fleet any_answers ship_cells low_bit hit_state
           fleet_reveal InitialBoardState (GetState reveal_state) H1 H2 H3 H4).
Defined.

(** X16, witness: the opening of the game. *)
Lemma opening_fixes_starting_player_witness :
  play some_fleet any_answers ship_cells low_bit
       (mkBoard test_channel two_players InitialBoardState)
       [kPositionCommitment (mkCommit (Some fleet_hash) (Some (SHA256.Hash first_seed)) None);
        kPositionCommitment (mkCommit (Some fleet_hash) None (Some second_seed));
        kSeedReveal (mkSeedReveal (Some first_seed))] = Ok (Some opened_state) /\
  bytes_or_empty (Some (SHA256.Hash first_seed))
  = SHA256.Hash (bytes_or_empty (Some first_seed)) /\
  GetState opened_state =
    mkState (Some (if low_bit (SHA256.Hash (bytes_or_empty (Some first_seed)
                                            ++ bytes_or_empty (Some second_seed)))
                   then 1 else 0))
            None
            [bytes_or_empty (Some fleet_hash); bytes_or_empty (Some fleet_hash)]
            None None [mkKnown (Some 0) (Some 0); mkKnown (Some 0) (Some 0)] [] None /\
  GetPhase opened_state = SHOOT.
Proof.
  assert (H1 : play some_fleet any_answers ship_cells low_bit
                 (mkBoard test_channel two_players InitialBoardState)
                 [kPositionCommitment
                    (mkCommit (Some fleet_hash) (Some (SHA256.Hash first_seed)) None);
                  kPositionCommitment (mkCommit (Some fleet_hash) None (Some second_seed));
                  kSeedReveal (mkSeedReveal (Some first_seed))]
               = Ok (Some opened_state)) by by_evaluation.
  split; [assumption|].
  exact (opening_fixes_starting_player some_fleet any_answers ship_cells low_bit
           test_channel two_players
           (mkCommit (Some fleet_hash) (Some (SHA256.Hash first_seed)) None)
           (mkCommit (Some fleet_hash) None (Some second_seed))
           (mkSeedReveal (Some first_seed)) opened_state H1).
Defined.

End BoardPlayExamples.

(** ** The channels table in order *)

Section TableFacts.

Import Database.

Lemma blob_leb_total a b : blob_leb a b = true \/ blob_leb b a = true.
Proof.
  revert b. induction a as [|x a IH]; intros [|y b]; cbn; auto.
  destruct (Z.ltb_spec (byteZ x) (byteZ y)), (Z.ltb_spec (byteZ y) (byteZ x)); auto; lia.
Qed.

Lemma blob_leb_trans a b c : blob_leb a b = true -> blob_leb b c = true -> blob_leb a c = true.
Proof.
  revert b c. induction a as [|x a IH]; intros [|y b] [|z c]; cbn; try done.
  destruct (Z.ltb_spec (byteZ x) (byteZ y)), (Z.ltb_spec (byteZ y) (byteZ x)),
           (Z.ltb_spec (byteZ y) (byteZ z)), (Z.ltb_spec (byteZ z) (byteZ y)),
           (Z.ltb_spec (byteZ x) (byteZ z)), (Z.ltb_spec (byteZ z) (byteZ x));
    try done; try lia.
  apply IH.
Qed.

#[local] Instance by_id_total {A} : Total (@by_id A).
Proof. intros r1 r2. apply blob_leb_total. Qed.

#[local] Instance by_id_trans {A} : Transitive (@by_id A).
Proof. intros r1 r2 r3. apply blob_leb_trans. Qed.

Lemma QueryAll_sorted (db : Table) : StronglySorted by_id (QueryAll db).
Proof. unfold QueryAll. apply StronglySorted_merge_sort; apply _. Qed.

Lemma filter_sorted {A} (R : A -> A -> Prop) (f : A -> bool) l :
  StronglySorted R l -> StronglySorted R (List.filter f l).
Proof.
  induction 1 as [|x l Hs IH Hall]; cbn; [constructor|].
  destruct (f x); [|done]. constructor; [done|].
  rewrite List.Forall_forall in *. intros y Hy%filter_In. apply Hall. tauto.
Qed.

Lemma QueryAll_once (db : Table) : NoDup (map fst (QueryAll db)).
Proof.
  unfold QueryAll. rewrite merge_sort_Permutation. apply NoDup_fst_map_to_list.
Qed.

Lemma filter_once {A B} (f : A * B -> bool) (l : list (A * B)) :
  NoDup (map fst l) -> NoDup (map fst (List.filter f l)).
Proof.
  induction l as [|r l IH]; cbn; [constructor|].
  intros Hnd. inversion Hnd as [|? ? Hr Hl]; subst.
  destruct (f r); cbn; [|by apply IH].
  constructor; [|by apply IH].
  intros Hin. apply Hr. apply list_elem_of_In in Hin. apply list_elem_of_In.
  apply in_map_iff in Hin as (x & Hx & Hin). apply in_map_iff. exists x. split; [done|].
  by apply filter_In in Hin as [Hin _].
Qed.

(** X10.  [QueryAll] steps through every row of the table, and
    [QueryForDisputeHeight] through exactly the rows whose [disputeHeight]
    is not NULL and at most the given height; each row comes once, in the
    order of the ids. *)
Theorem queries_ordered_and_complete (db : Table) (height : Z) :
  (forall i row, In (i, row) (QueryAll db) <-> db !! i = Some row) /\
  (forall i row, In (i, row) (QueryForDisputeHeight db height) <->
     db !! i = Some row /\ exists d, col_disputeHeight row = Some d /\ d <= height) /\
  NoDup (map fst (QueryAll db)) /\
  NoDup (map fst (QueryForDisputeHeight db height)) /\
  StronglySorted (fun r1 r2 => blob_leb (fst r1) (fst r2) = true) (QueryAll db) /\
  StronglySorted (fun r1 r2 => blob_leb (fst r1) (fst r2) = true)
                 (QueryForDisputeHeight db height).
Proof.
  split; [apply QueryAll_spec|]. split.
  { intros i row. apply QueryForDisputeHeight_spec. }
  split; [apply QueryAll_once|]. split; [apply filter_once, QueryAll_once|].
  split; [apply QueryAll_sorted|apply filter_sorted, QueryAll_sorted].
Qed.

End TableFacts.

(** ** Handles and their rows *)

Section HandleFacts.

Import Database.

Context {metadata_codec : ProtoCodec ChannelMetadata}.
Context {proof_codec : ProtoCodec StateProof}.

(** X11.  A stored handle is loaded again with its own state proof
    unless the latest state of the proof is the reinitialisation state: then
    the column is NULL and the loaded proof is the bare reinitialisation
    state, so that signatures on such a proof are not kept. *)
Theorem stored_proof_reloaded (db : Table) (c : ChannelData) :
  initialised c = true ->
  dirty c = true ->
  roundtrips (metadata c) ->
  roundtrips (proof c) ->
  exists db' c',
    DestroyChannelData db c = Ok db' /\
    GetById db' (id c) = Ok (Some c') /\
    initialised c' = true /\ dirty c' = false /\
    proof c' = (if bool_decide (UnverifiedProofEndState (proof c) = reinit_state c)
                then StateProofFromReinit (reinit_state c) else proof c) /\
    (proof c' = proof c <->
     UnverifiedProofEndState (proof c) <> reinit_state c \/
     proof c = StateProofFromReinit (reinit_state c)).
Proof.
  intros Hi Hd (mb & Hms & Hmp) (pb & Hps & Hpp).
  unfold DestroyChannelData, GetById, GetLatestState, BindBlobProto.
  rewrite Hi, Hd, Hms. cbn [CHECK negb mbind Chk_bind].
  case_bool_decide as Hlatest; cbn [mbind Chk_bind].
  - eexists _, _. split; [reflexivity|]. rewrite lookup_insert_eq.
    unfold ChannelDataFromRow. cbn [col_metadata col_stateproof col_reinit col_disputeHeight].
    rewrite Hmp. cbn [mbind Chk_bind]. split; [reflexivity|]. cbn.
    split; [done|]. split; [done|]. split; [done|]. split; [auto|].
    intros [?|?]; done.
  - rewrite Hps. cbn [mbind Chk_bind].
    eexists _, _. split; [reflexivity|]. rewrite lookup_insert_eq.
    unfold ChannelDataFromRow. cbn [col_metadata col_stateproof col_reinit col_disputeHeight].
    rewrite Hmp, Hpp. cbn [mbind Chk_bind]. split; [reflexivity|]. cbn.
    split; [done|]. split; [done|]. split; [done|]. split; [auto|done].
Qed.

(** X12.  Destroying a handle changes no row but its own, and deleting
    its id afterwards removes that row and nothing else. *)
Theorem other_rows_untouched (db db' : Table) (c : ChannelData) (j : uint256) :
  DestroyChannelData db c = Ok db' ->
  j <> id c ->
  db' !! j = db !! j /\
  GetById db' j = GetById db j /\
  GetById (DeleteById db' (id c)) j = GetById db j /\
  GetById (DeleteById db' (id c)) (id c) = Ok None.
Proof.
  intros Hd Hj. unfold DestroyChannelData in Hd.
  apply bind_Ok in Hd as (? & _ & Hd).
  assert (Hrow : db' !! j = db !! j).
  { destruct (negb (dirty c)); [by simplify_eq|].
    apply bind_Ok in Hd as (? & _ & Hd). apply bind_Ok in Hd as (? & _ & Hd).
    apply bind_Ok in Hd as (? & _ & Hd). simplify_eq. by apply lookup_insert_ne. }
  split; [done|]. unfold GetById, DeleteById.
  rewrite lookup_delete_ne, lookup_delete_eq, Hrow by done. done.
Qed.

(** X13.  [Reinitialise] on an initialised handle aborts exactly when the
    reinitialisation id of the new metadata is the one the handle has.
    Otherwise the handle takes the new metadata and state, its proof and
    latest state are the new state alone, the dispute height stays, and the
    row it writes has a NULL state proof. *)
Theorem reinitialise_resets (db : Table) (m : ChannelMetadata) (state : bytes)
    (c : ChannelData) :
  initialised c = true ->
  (Reinitialise m state c = Fatal <-> reinit m = reinit (metadata c)) /\
  (reinit m <> reinit (metadata c) ->
   exists c',
     Reinitialise m state c = Ok c' /\
     GetMetadata c' = Ok m /\
     GetReinitState c' = Ok state /\
     GetLatestState c' = Ok state /\
     GetStateProof c' = Ok (StateProofFromReinit state) /\
     disputeHeight c' = disputeHeight c /\
     forall blob, SerializeToString m = Some blob ->
       DestroyChannelData db c'
       = Ok (<[id c := mkRow blob state None
                         (if disputeHeight c =? 0 then None else Some (disputeHeight c))]> db)).
Proof.
  intros Hi. unfold Reinitialise. rewrite Hi. split.
  - case_bool_decide as E; cbn; [done|]. split; [done|]. intros E'. by rewrite E' in E.
  - intros Hne. rewrite bool_decide_eq_false_2 by (intros E; by rewrite E in Hne).
    cbn. eexists. split; [reflexivity|]. repeat (split; [done|]).
    intros blob Hb. unfold DestroyChannelData, BindBlobProto, GetLatestState. cbn.
    rewrite Hb. cbn. rewrite bool_decide_eq_true_2 by done. done.
Qed.

End HandleFacts.

Section HandleExamples.

Import Ships Sample Reference Database.

#[local] Existing Instance plain.

(** X11, witness: a handle whose proof is the reinitialisation state with
    a signature on it; the signature is not there after loading. *)
Lemma stored_proof_reloaded_witness :
  initialised signed_handle = true /\
  dirty signed_handle = true /\
  roundtrips (metadata signed_handle) /\
  roundtrips (proof signed_handle) /\
  exists db' c',
    DestroyChannelData ∅ signed_handle = Ok db' /\
    GetById db' (id signed_handle) = Ok (Some c') /\
    initialised c' = true /\
    dirty c' = false /\
    proof c' =
      (if bool_decide (UnverifiedProofEndState (proof signed_handle)
                       = reinit_state signed_handle)
       then StateProofFromReinit (reinit_state signed_handle)
       else proof signed_handle) /\
    (proof c' = proof signed_handle <->
     UnverifiedProofEndState (proof signed_handle) <> reinit_state signed_handle \/
     proof signed_handle = StateProofFromReinit (reinit_state signed_handle)).
Proof.
  assert (H1 : initialised signed_handle = true) by reflexivity.
  assert (H2 : dirty signed_handle = true) by reflexivity.
  assert (H3 : roundtrips (metadata signed_handle)).
  { exists (pos_bits (encode (metadata signed_handle))). split; by_evaluation. }
  assert (H4 : roundtrips (proof signed_handle)).
  { exists (pos_bits (encode (proof signed_handle))). split; by_evaluation. }
  repeat (split; [assumption|]).
  exact (stored_proof_reloaded ∅ signed_handle H1 H2 H3 H4).
Defined.

(** X12, witness: [disputed_handle] written into the empty table, seen
    from the row of another channel. *)
Lemma other_rows_untouched_witness :
  DestroyChannelData ∅ disputed_handle = Ok stored_table /\
  dispute_channel <> id disputed_handle /\
  stored_table !! dispute_channel = (∅ : Table) !! dispute_channel /\
  GetById stored_table dispute_channel = GetById ∅ dispute_channel /\
  GetById (DeleteById stored_table (id disputed_handle)) dispute_channel
    = GetById ∅ dispute_channel /\
  GetById (DeleteById stored_table (id disputed_handle)) (id disputed_handle) = Ok None.
Proof.
  assert (H1 : DestroyChannelData ∅ disputed_handle = Ok stored_table) by by_evaluation.
  assert (H2 : dispute_channel <> id disputed_handle) by (vm_compute; discriminate).
  repeat (split; [assumption|]).
  exact (other_rows_untouched ∅ stored_table disputed_handle dispute_channel H1 H2).
Defined.

(** X13, witness: the handle of a loaded row, which is initialised. *)
Lemma reinitialise_resets_witness :
  initialised fresh_handle = true /\
  (Reinitialise rejoined_players (bytes_of_string "new state") fresh_handle = Fatal <->
   reinit rejoined_players = reinit (metadata fresh_handle)) /\
  (reinit rejoined_players <> reinit (metadata fresh_handle) ->
   exists c',
     Reinitialise rejoined_players (bytes_of_string "new state") fresh_handle = Ok c' /\
     GetMetadata c' = Ok rejoined_players /\
     GetReinitState c' = Ok (bytes_of_string "new state") /\
     GetLatestState c' = Ok (bytes_of_string "new state") /\
     GetStateProof c' = Ok (StateProofFromReinit (bytes_of_string "new state")) /\
     disputeHeight c' = disputeHeight fresh_handle /\
     forall blob,
       SerializeToString rejoined_players = Some blob ->
       DestroyChannelData ∅ c'
       = Ok (<[id fresh_handle :=
                 mkRow blob (bytes_of_string "new state") None
                       (if disputeHeight fresh_handle =? 0 then None
                        else Some (disputeHeight fresh_handle))]> ∅)).
Proof.
  assert (H1 : initialised fresh_handle = true) by reflexivity.
  split; [assumption|].
  exact (reinitialise_resets ∅ rejoined_players (bytes_of_string "new state")
           fresh_handle H1).
Defined.

End HandleExamples.

(** ** Shuffling *)

Section ShuffleFacts.

Context {A Rnd : Type}.
Variable NextInt : Z -> Rnd -> Z * Rnd.

Lemma at_index_Ok (l : list A) i x :
  at_index l i = Ok x <-> 0 <= i < Z.of_nat (length l) /\ l !! Z.to_nat i = Some x.
Proof.
  unfold at_index.
  destruct (Z.leb_spec 0 i), (Z.ltb_spec i (Z.of_nat (length l))); cbn.
  2-4: split; [done|intros [? ?]; lia].
  destruct (l !! Z.to_nat i) eqn:E; split; try done.
  - intros [= ->]. split; [lia|done].
  - intros [_ [= ->]]. done.
  - intros [_ ?]; done.
Qed.

Lemma at_index_in_range (l : list A) i :
  0 <= i < Z.of_nat (length l) -> exists x, at_index l i = Ok x.
Proof.
  intros Hi. destruct (lookup_lt_is_Some_2 l (Z.to_nat i)) as [x Hx]; [lia|].
  exists x. by apply at_index_Ok.
Qed.

Lemma set_index_in_range (l : list A) i x :
  0 <= i < Z.of_nat (length l) -> set_index l i x = Ok (<[Z.to_nat i := x]> l).
Proof.
  intros Hi. unfold set_index.
  destruct (Z.leb_spec 0 i), (Z.ltb_spec i (Z.of_nat (length l))); cbn; try lia. done.
Qed.

Lemma insert_Permutation (l : list A) j a y :
  l !! j = Some y -> y :: <[j := a]> l ≡ₚ a :: l.
Proof.
  revert j. induction l as [|b l IH]; intros [|j] Hj; cbn in *; simplify_eq.
  - apply perm_swap.
  - rewrite perm_swap, (IH j Hj). apply perm_swap.
Qed.

Lemma swap_Permutation (l : list A) i j x y :
  l !! i = Some x -> l !! j = Some y -> <[j := x]> (<[i := y]> l) ≡ₚ l.
Proof.
  revert i j. induction l as [|a l IH]; intros [|i] [|j] Hi Hj; cbn in *; simplify_eq.
  - done.
  - by apply insert_Permutation.
  - by apply insert_Permutation.
  - f_equiv. by apply IH.
Qed.

Lemma shuffle_from_spec todo : forall i (l : list A) (rnd : Rnd),
  (forall n r, 0 < n -> 0 <= fst (NextInt n r) < n) ->
  0 <= i -> i + Z.of_nat todo < Z.of_nat (length l) ->
  exists l' rnd', shuffle_from NextInt todo i l rnd = Ok (l', rnd') /\ l' ≡ₚ l.
Proof.
  induction todo as [|todo IH]; intros i l rnd Hnext Hi Hlen; cbn [shuffle_from].
  - eauto.
  - pose proof (Hnext (Z.of_nat (length l) - i) rnd) as Hk.
    destruct (NextInt (Z.of_nat (length l) - i) rnd) as [k rnd1]. cbn [fst] in Hk.
    destruct (Z.eqb_spec i (i + k)) as [E|E]; cbn [negb mbind Chk_bind].
    + destruct (IH (i + 1) l rnd1) as (l' & rnd' & -> & Hp); [done|lia|lia|]. eauto.
    + destruct (at_index_in_range l i) as [x Hx]; [lia|].
      destruct (at_index_in_range l (i + k)) as [y Hy]; [lia|].
      unfold swap. rewrite Hx, Hy. cbn [mbind Chk_bind].
      apply at_index_Ok in Hx as [_ Hx]. apply at_index_Ok in Hy as [_ Hy].
      rewrite set_index_in_range by lia. cbn [mbind Chk_bind].
      rewrite set_index_in_range by (rewrite length_insert; lia). cbn [mbind Chk_bind].
      destruct (IH (i + 1) (<[Z.to_nat (i + k) := x]> (<[Z.to_nat i := y]> l)) rnd1)
        as (l' & rnd' & -> & Hp); [done|lia|rewrite !length_insert; lia|].
      eexists _, _. split; [done|]. rewrite Hp. by apply swap_Permutation.
Qed.

(** X14.  With a generator whose [NextInt (n)] stays below [n],
    [Random::Shuffle] returns a permutation of its range; a range of at
    most one element is returned as it is, without drawing a number. *)
Theorem shuffle_permutes (l : list A) (rnd : Rnd) :
  (forall n r, 0 < n -> 0 <= fst (NextInt n r) < n) ->
  (exists l' rnd', Shuffle NextInt l rnd = Ok (l', rnd') /\ l' ≡ₚ l) /\
  ((length l <= 1)%nat -> Shuffle NextInt l rnd = Ok (l, rnd)).
Proof.
  intros Hnext. split.
  - destruct l as [|a l]; [by eexists _, _|]. unfold Shuffle.
    apply shuffle_from_spec; [done|lia|]. cbn [length]. lia.
  - destruct l as [|a [|b l]]; cbn; [done|done|lia].
Qed.

End ShuffleFacts.

Section ShuffleExamples.

(** X14, witness: the generator that counts up, on a range of five. *)
Lemma shuffle_permutes_witness :
  (forall n r, 0 < n -> 0 <= fst (counting n r) < n) /\
  (exists l' rnd', Shuffle counting [1; 2; 3; 4; 5] 2 = Ok (l', rnd') /\
                   l' ≡ₚ [1; 2; 3; 4; 5]) /\
  ((length [1; 2; 3; 4; 5] <= 1)%nat ->
   Shuffle counting [1; 2; 3; 4; 5] 2 = Ok ([1; 2; 3; 4; 5], 2)).
Proof.
  assert (H1 : forall n r, 0 < n -> 0 <= fst (counting n r) < n)
    by (intros n r Hn; cbn; apply Z.mod_pos_bound; exact Hn).
  split; [assumption|].
  exact (shuffle_permutes counting [1; 2; 3; 4; 5] 2 H1).
Defined.

End ShuffleExamples.
